(** * instax SP-1 client: a model of [instax/sp1.py]

    The client drives an instant-photo printer over one TCP connection.  The
    class [SP1] talks to a worker thread through two queues, polls the reply
    queue against a wall clock, and sequences many request/response round
    trips into the [printPhoto] procedure.

    The development embeds [sp1.py] in a state-and-exception monad over a
    [World] that holds the [SP1] object, a millisecond clock and the replies
    the worker threads are going to enqueue.  Every run also yields the list
    of [Event]s it produced (commands queued, packets sent and received,
    progress callbacks, raised exceptions), which is what the theorems at the
    end of the file talk about. *)

From Stdlib Require Import ZArith List String Ascii QArith Lia Bool Arith.
From Stdlib Require Import DecimalString.
Import ListNotations.
Open Scope string_scope.
Open Scope list_scope.
Open Scope Z_scope.

Set Implicit Arguments.

(** ** Python values *)

Definition bytes := list Byte.byte.

(** The values that travel through headers, payloads and the progress
    callback.  A [PyFloat] carries the exact rational value of the float
    expression that produced it; binary64 rounding is not modelled. *)
#[local] Unset Elimination Schemes.
Inductive pyval : Type :=
| PyNone
| PyInt (z : Z)
| PyFloat (q : Q)
| PyStr (s : string)
| PyBytes (b : bytes)
| PyList (l : list pyval)
| PyDict (d : list (string * pyval)).
#[local] Set Elimination Schemes.

(** [isinstance(v, int)] *)
Definition is_int (v : pyval) : bool :=
  match v with PyInt _ => true | _ => false end.

(** [isinstance(v, float)] *)
Definition is_float (v : pyval) : bool :=
  match v with PyFloat _ => true | _ => false end.

(** A number whose value is a whole number, whatever its type. *)
Definition is_integral (v : pyval) : bool :=
  match v with
  | PyInt _ => true
  | PyFloat q => Pos.eqb (Qden (Qred q)) 1
  | _ => false
  end.

(** The rational value of a number. *)
Definition num_value (v : pyval) : Q :=
  match v with
  | PyInt z => inject_Z z
  | PyFloat q => q
  | _ => 0%Q
  end.

(** Dictionaries are association lists in insertion order. *)
Fixpoint dict_get (d : list (string * pyval)) (k : string) : option pyval :=
  match d with
  | [] => None
  | (k', v) :: d' => if String.eqb k k' then Some v else dict_get d' k
  end.

(** [str(n)] for an integer. *)
Definition str_of_int (z : Z) : string :=
  NilZero.string_of_int (Z.to_int z).

(** The newline character of the two final status texts. *)
Definition nl : string := String (ascii_of_nat 10) EmptyString.

(** ** Exceptions *)

(** [CommandTimedOutException] and [ConnectError] are the two exceptions
    [sp1.py] raises itself.  [DecodeError] stands for whatever
    [PacketFactory.decode] raises on a frame it cannot decode;
    [AttributeError] is what Python raises when [self.comms] is unset or
    [None]; [KeyError] and [TypeError] come from subscripting. *)
Inductive exn : Type :=
| CommandTimedOutException
| ConnectError (detail : option bytes)
| QueueEmpty
| DecodeError
| AttributeError
| KeyError (key : string)
| TypeError
| ZeroDivisionError.

(** ** Messages exchanged with the worker thread ([comms.py]) *)

Inductive ClientCommand : Type :=
| CONNECT (host : string) (port : Z)
| SEND (data : bytes)
| RECEIVE
| CLOSE.

Inductive ReplyType : Type := SUCCESS | ERROR.

(** [ClientReply(type, data=None)]: the data is a received frame or an error
    detail; both are kept as uninterpreted bytes. *)
Record ClientReply : Type := mkReply {
  rtype : ReplyType;
  rdata : option bytes
}.

Definition is_SUCCESS (r : ClientReply) : bool :=
  match rtype r with SUCCESS => true | ERROR => false end.

(** A reply together with the clock reading (milliseconds) at which the
    worker puts it on the reply queue. *)
Definition Arrival : Type := (Z * ClientReply)%type.

(** A [SocketClientThread]: what the caller can see of it is the FIFO of
    replies it will deliver and whether it has been started. *)
Record SocketClientThread : Type := mkThread {
  reply_q : list Arrival;
  started : bool
}.

(** ** Packets ([packet.py]) *)

(** The closed set of command variants.  All of them are built with
    [Packet.MESSAGE_MODE_COMMAND], which is therefore left out. *)
Inductive Command : Type :=
| SpecificationsCommand
| VersionCommand
| PrintCountCommand
| ModelNameCommand
| PrePrintCommand (cmdNumber : Z)
| PrinterLockCommand (lockState : Z)
| ResetCommand
| PrepImageCommand (format options imgLength : Z)
| SendImageCommand (sequenceNumber : Z) (payloadBytes : bytes)
| Type83Command
| Type195Command
| LockStateCommand.

(** A decoded packet: [header] is a dict, [payload] whatever the decoder
    produced for the command. *)
Record Packet : Type := mkPacket {
  header : list (string * pyval);
  payload : pyval
}.

(** The codec lives in [packet.py], which [sp1.py] only imports.  It is taken
    as an interface: [encodeCommand] is the method of the command classes,
    [decode] the method of [PacketFactory] ([None] when it raises), and
    [RTN_E_RCV_FRAME] the constant of class [Packet]. *)
Class PacketFactory : Type := {
  encodeCommand : Command -> Z -> Z -> bytes;
  decode : bytes -> option Packet;
  RTN_E_RCV_FRAME : Z
}.

(** ** The SP1 object and the world around it *)

Record SP1 : Type := mkSP1 {
  ip : string;
  port : Z;
  timeout : Z;
  pinCode : Z;
  currentTimeMillis : Z;
  comms : option SocketClientThread
}.

(** [clock] is [time.time()] in milliseconds.  [workers] lists, for the
    threads that will be created from now on, the replies each of them is
    going to enqueue: the worker is not part of [sp1.py], so its behaviour is
    an arbitrary script. *)
Record World : Type := mkWorld {
  self : SP1;
  clock : Z;
  workers : list (list Arrival)
}.

(** What a run lets an observer see. *)
Inductive Event : Type :=
| EvStart
| EvPut (c : ClientCommand)
| EvJoin
| EvCommand (c : Command)
| EvResponse (c : Command) (p : Packet)
| EvProgress (current : pyval) (total : Z) (status : string)
| EvRaise (e : exn).

(** ** The monad *)

Inductive outcome (A : Type) : Type :=
| Returned (a : A)
| Raised (e : exn)
| OutOfFuel.
Arguments Raised {A} e.
Arguments OutOfFuel {A}.

Record Run (A : Type) : Type := mkRun {
  outcome_of : outcome A;
  world_of : World;
  events_of : list Event
}.

Definition M (A : Type) : Type := World -> Run A.

Definition ret {A} (a : A) : M A := fun w => mkRun (Returned a) w [].

Definition bind {A B} (m : M A) (f : A -> M B) : M B :=
  fun w =>
    match m w with
    | mkRun (Returned a) w1 e1 =>
        match f a w1 with
        | mkRun o w2 e2 => mkRun o w2 (e1 ++ e2)
        end
    | mkRun (Raised e) w1 e1 => mkRun (Raised e) w1 e1
    | mkRun OutOfFuel w1 e1 => mkRun OutOfFuel w1 e1
    end.

Declare Scope monad_scope.
Delimit Scope monad_scope with monad.
Notation "x <- m ;; k" := (bind m (fun x => k))
  (at level 61, m at next level, right associativity) : monad_scope.
Notation "m ;; k" := (bind m (fun _ => k))
  (at level 61, right associativity) : monad_scope.
Open Scope monad_scope.

(** An exception that travels without being observed (used for
    [queue.Empty], which is caught where it is raised). *)
Definition throw {A} (e : exn) : M A := fun w => mkRun (Raised e) w [].

Definition emit (ev : Event) : M unit := fun w => mkRun (Returned tt) w [ev].

(** A [raise] statement. *)
Definition raise_ {A} (e : exn) : M A := emit (EvRaise e) ;; throw e.

Definition out_of_fuel {A} : M A := fun w => mkRun OutOfFuel w [].

(** [try: body  except queue.Empty: handler] *)
Definition try_except_Empty {A} (body handler : M A) : M A :=
  fun w =>
    match body w with
    | mkRun (Raised QueueEmpty) w1 e1 =>
        match handler w1 with
        | mkRun o w2 e2 => mkRun o w2 (e1 ++ e2)
        end
    | r => r
    end.

Definition get_world : M World := fun w => mkRun (Returned w) w [].
Definition put_world (w' : World) : M unit := fun _ => mkRun (Returned tt) w' [].

Definition get_self : M SP1 := w <- get_world ;; ret (self w).

Definition set_comms (c : option SocketClientThread) : M unit :=
  w <- get_world ;;
  let s := self w in
  put_world (mkWorld (mkSP1 (ip s) (port s) (timeout s) (pinCode s)
                            (currentTimeMillis s) c)
                     (clock w) (workers w)).

(** ** [time] *)

(** [int(time.time())]: whole seconds.  The clock counts from the epoch, so
    truncation and floor agree. *)
Definition int_time : M Z := w <- get_world ;; ret (clock w / 1000).

(** [time.sleep(ms / 1000)]: the clock moves on by exactly the time asked
    for; nothing else takes time. *)
Definition sleep (ms : Z) : M unit :=
  w <- get_world ;; put_world (mkWorld (self w) (clock w + ms) (workers w)).

(** ** The worker's queues *)

(** [SocketClientThread()]: the new thread will deliver the next script. *)
Definition SocketClientThread_new : M SocketClientThread :=
  w <- get_world ;;
  put_world (mkWorld (self w) (clock w) (tl (workers w))) ;;
  ret (mkThread (hd [] (workers w)) false).

(** [self.comms], which must be a thread. *)
Definition the_comms : M SocketClientThread :=
  s <- get_self ;;
  match comms s with
  | Some th => ret th
  | None => raise_ AttributeError
  end.

(** [self.comms.start()] *)
Definition comms_start : M unit :=
  th <- the_comms ;;
  set_comms (Some (mkThread (reply_q th) true)) ;;
  emit EvStart.

(** [self.comms.cmd_q.put(c)] *)
Definition cmd_q_put (c : ClientCommand) : M unit :=
  _ <- the_comms ;; emit (EvPut c).

(** [self.comms.reply_q.get(False)]: the oldest reply if the worker has
    enqueued it by now, [queue.Empty] otherwise. *)
Definition reply_q_get : M ClientReply :=
  th <- the_comms ;;
  w <- get_world ;;
  match reply_q th with
  | (t, r) :: q =>
      if t <=? clock w
      then set_comms (Some (mkThread q (started th))) ;; ret r
      else throw QueueEmpty
  | [] => throw QueueEmpty
  end.

(** [self.comms.join()]: assumed to return (the worker shuts down). *)
Definition comms_join : M unit :=
  _ <- the_comms ;; emit EvJoin.

(** ** Polling the reply queue *)

(** The loop shared by [connect], [send_and_recieve] and [close]:
<<
    while(int(time.time()) < (start + timeout)):
        try:
            reply = self.comms.reply_q.get(False)
            ... on_reply ...
        except queue.Empty:
            time.sleep(0.1)
>>
    [on_reply] answers [Some a] when the body executes [return a] and [None]
    when it falls through to the next iteration.  The loop itself answers
    [None] when its condition fails. *)
Fixpoint poll_loop {A} (fuel : nat) (deadline : Z)
    (on_reply : ClientReply -> M (option A)) : M (option A) :=
  match fuel with
  | O => out_of_fuel
  | S fuel' =>
      now <- int_time ;;
      if now <? deadline then
        x <- try_except_Empty
               (reply <- reply_q_get ;; on_reply reply)
               (sleep 100 ;; ret None) ;;
        match x with
        | Some a => ret (Some a)
        | None => poll_loop fuel' deadline on_reply
        end
      else ret None
  end.

(** Iterations the loop can still make: one per queued reply and at most one
    per millisecond left before the deadline. *)
Definition poll_measure (deadline : Z) (w : World) : nat :=
  match comms (self w) with
  | Some th => List.length (reply_q th)
  | None => O
  end + Z.to_nat (deadline * 1000 - clock w).

Definition poll {A} (deadline : Z) (on_reply : ClientReply -> M (option A))
  : M (option A) :=
  fun w => poll_loop (S (poll_measure deadline w)) deadline on_reply w.
Arguments poll : simpl never.

(** ** Session *)

(** [SP1.__init__]; [now] is the clock reading in milliseconds. *)
Definition SP1_init (ip : string) (port timeout pinCode now : Z) : SP1 :=
  mkSP1 ip port 10 pinCode now None.

Definition default_ip : string := "192.168.0.251".
Definition default_port : Z := 8080.
Definition default_timeout : Z := 10.
Definition default_pinCode : Z := 1111.

Definition connect_on_reply (reply : ClientReply) : M (option unit) :=
  if is_SUCCESS reply then ret (Some tt)
  else raise_ (ConnectError (rdata reply)).

(** [SP1.connect] *)
Definition connect : M unit :=
  th <- SocketClientThread_new ;;
  set_comms (Some th) ;;
  comms_start ;;
  s <- get_self ;;
  cmd_q_put (CONNECT (ip s) (port s)) ;;
  start <- int_time ;;
  s <- get_self ;;
  r <- poll (start + timeout s) connect_on_reply ;;
  match r with
  | Some _ => ret tt
  | None => raise_ CommandTimedOutException
  end.

Definition send_and_recieve_on_reply (reply : ClientReply)
  : M (option ClientReply) :=
  match rdata reply with
  | Some _ =>
      if is_SUCCESS reply then ret (Some reply)
      else raise_ (ConnectError (rdata reply))
  | None => ret None
  end.

(** [SP1.send_and_recieve] *)
Definition send_and_recieve (cmdBytes : bytes) (timeout : Z)
  : M ClientReply :=
  cmd_q_put (SEND cmdBytes) ;;
  cmd_q_put RECEIVE ;;
  start <- int_time ;;
  r <- poll (start + timeout) send_and_recieve_on_reply ;;
  match r with
  | Some reply => ret reply
  | None => raise_ CommandTimedOutException
  end.

Definition close_on_reply (reply : ClientReply) : M (option unit) :=
  if is_SUCCESS reply then
    comms_join ;; set_comms None ;; ret (Some tt)
  else raise_ (ConnectError (rdata reply)).

(** [SP1.close] *)
Definition close (timeout : Z) : M unit :=
  cmd_q_put CLOSE ;;
  start <- int_time ;;
  r <- poll (start + timeout) close_on_reply ;;
  match r with
  | Some _ => ret tt
  | None =>
      comms_join ;;
      set_comms None ;;
      raise_ CommandTimedOutException
  end.

(** [d[k]] on a dict. *)
Definition dict_getitem (d : list (string * pyval)) (k : string) : M pyval :=
  match dict_get d k with
  | Some v => ret v
  | None => raise_ (KeyError k)
  end.

(** [v[k]] for a string key. *)
Definition getitem (v : pyval) (k : string) : M pyval :=
  match v with
  | PyDict d => dict_getitem d k
  | _ => raise_ TypeError
  end.

(** [a is b] when [b] is an int: object identity.  Return codes are small
    ints, which CPython shares, so identity is equality of the values. *)
Definition py_is_int (a : pyval) (b : Z) : bool :=
  match a with
  | PyInt z => z =? b
  | _ => false
  end.

(** [a / b] on ints: true division. *)
Definition py_truediv (a b : Z) : M Q :=
  if b =? 0 then raise_ ZeroDivisionError
  else ret (Qred (inject_Z a / inject_Z b)).

(** [l[a:b]] for [0 <= a]. *)
Definition py_slice {A} (l : list A) (a b : Z) : list A :=
  firstn (Z.to_nat (b - a)) (skipn (Z.to_nat a) l).

(** [bytearray(n)] *)
Definition bytearray (n : Z) : bytes := repeat Byte.x00 (Z.to_nat n).

(** [len(l)] *)
Definition len {A} (l : list A) : Z := Z.of_nat (List.length l).

(** [range(lo, hi)] *)
Definition range (lo hi : Z) : list Z :=
  map (fun i => lo + Z.of_nat i) (seq 0 (Z.to_nat (hi - lo))).

(** [for x in l: body(x)] *)
Fixpoint for_each {A} (l : list A) (body : A -> M unit) : M unit :=
  match l with
  | [] => ret tt
  | x :: l' => body x ;; for_each l' body
  end.

Section Session.

Context {PF : PacketFactory}.

(** [SP1.sendCommand].  The two [printDebug] calls are what the observer
    sees of the exchange: the command on entry, the decoded response on
    return. *)
Definition sendCommand (commandPacket : Command) : M Packet :=
  emit (EvCommand commandPacket) ;;
  s <- get_self ;;
  let encodedPacket :=
    encodeCommand commandPacket (currentTimeMillis s) (pinCode s) in
  match decode encodedPacket with
  | None => raise_ DecodeError
  | Some _ =>
      reply <- send_and_recieve encodedPacket 5 ;;
      match rdata reply with
      | None => raise_ TypeError
      | Some data =>
          match decode data with
          | None => raise_ DecodeError
          | Some decodedResponse =>
              emit (EvResponse commandPacket decodedResponse) ;;
              ret decodedResponse
          end
      end
  end.

Definition getPrinterVersion : M Packet := sendCommand VersionCommand.
Definition getPrinterModelName : M Packet := sendCommand ModelNameCommand.
Definition getPrintCount : M Packet := sendCommand PrintCountCommand.
Definition getPrinterSpecifications : M Packet :=
  sendCommand SpecificationsCommand.
Definition sendPrePrintCommand (cmdNumber : Z) : M Packet :=
  sendCommand (PrePrintCommand cmdNumber).
Definition sendLockCommand (lockState : Z) : M Packet :=
  sendCommand (PrinterLockCommand lockState).
Definition sendResetCommand : M Packet := sendCommand ResetCommand.
Definition sendPrepImageCommand (format options imgLength : Z) : M Packet :=
  sendCommand (PrepImageCommand format options imgLength).
Definition sendSendImageCommand (sequenceNumber : Z) (payloadBytes : bytes)
  : M Packet :=
  sendCommand (SendImageCommand sequenceNumber payloadBytes).
Definition sendT83Command : M Packet := sendCommand Type83Command.
Definition sendT195Command : M Packet := sendCommand Type195Command.
Definition sendLockStateCommand : M Packet := sendCommand LockStateCommand.

(** ** Orchestration *)

(** [SP1.getPrinterInformation] *)
Definition getPrinterInformation : M (list (string * pyval)) :=
  connect ;;
  printerVersion <- getPrinterVersion ;;
  printerModel <- getPrinterModelName ;;
  printCount <- getPrintCount ;;
  model <- getitem (payload printerModel) "modelName" ;;
  battery <- dict_getitem (header printerVersion) "battery" ;;
  count <- dict_getitem (header printerVersion) "printCount" ;;
  history <- getitem (payload printCount) "printHistory" ;;
  let printerInformation :=
    [ ("version", payload printerVersion);
      ("model", model);
      ("battery", battery);
      ("printCount", count);
      ("specs", PyStr "unknown");
      ("count", history) ] in
  close 10 ;;
  ret printerInformation.

(** The loop of [SP1.checkPrintStatus] over [range(timeout)]. *)
Fixpoint checkPrintStatus_loop (n : nat) : M bool :=
  match n with
  | O => ret false
  | S n' =>
      printStateCmd <- sendT195Command ;;
      rc <- dict_getitem (header printStateCmd) "returnCode" ;;
      if py_is_int rc RTN_E_RCV_FRAME then ret true
      else sleep 1000 ;; checkPrintStatus_loop n'
  end.

(** [SP1.checkPrintStatus] *)
Definition checkPrintStatus (timeout : Z) : M bool :=
  checkPrintStatus_loop (Z.to_nat timeout).

Definition progress_fn : Type := pyval -> Z -> string -> M unit.

(** The [while bytesToSend > 0] loop of [SP1.printPhoto]. *)
Fixpoint send_image_loop (fuel : nat) (progress : progress_fn)
    (imageBytes : bytes) (bytesToSend bytesSent segment : Z) : M unit :=
  match fuel with
  | O => out_of_fuel
  | S fuel' =>
      if 0 <? bytesToSend then
        let segmentBytes :=
          if 960 <=? bytesToSend
          then py_slice imageBytes bytesSent (bytesSent + 960)
          else py_slice imageBytes bytesSent (bytesSent + bytesToSend)
               ++ bytearray (960 - bytesToSend) in
        sendSendImageCommand segment segmentBytes ;;
        let segment := segment + 1 in
        let bytesSent := bytesSent + 960 in
        let bytesToSend := bytesToSend - 960 in
        q <- py_truediv (30 * bytesSent) (len imageBytes) ;;
        progress (PyFloat (Qred (40 + q))) 100
                 ("Sent image segment " ++ str_of_int segment
                    ++ ".         ")%string ;;
        send_image_loop fuel' progress imageBytes bytesToSend bytesSent segment
      else ret tt
  end.

(** [SP1.printPhoto] *)
Definition printPhoto (imageBytes : bytes) (progress : progress_fn) : M unit :=
  let progressTotal := 100 in
  progress (PyInt 0) progressTotal
           "Connecting to instax Printer.           " ;;
  connect ;;
  progress (PyInt 10) progressTotal
           "Connected! - Sending Pre Print Commands." ;;
  for_each (range 1 9) (fun x => sendPrePrintCommand x ;; ret tt) ;;
  close 10 ;;

  sleep 1000 ;;
  connect ;;
  progress (PyInt 20) progressTotal
           "Locking Printer for Print.               " ;;
  sendLockCommand 1 ;;
  close 10 ;;

  sleep 1000 ;;
  connect ;;
  progress (PyInt 30) progressTotal
           "Resetting Printer.                         " ;;
  sendResetCommand ;;
  close 10 ;;

  sleep 1000 ;;
  connect ;;
  progress (PyInt 40) progressTotal
           "About to send Image.                       " ;;
  sendPrepImageCommand 2 0 (len imageBytes) ;;
  send_image_loop (S (List.length imageBytes)) progress imageBytes
                  (len imageBytes) 0 0 ;;
  sendT83Command ;;
  close 10 ;;
  progress (PyInt 70) progressTotal
           "Image Print Started.                       " ;;

  sleep 1000 ;;
  connect ;;
  sendLockStateCommand ;;
  getPrinterVersion ;;
  getPrinterModelName ;;
  progress (PyInt 90) progressTotal
           "Checking status of print.                    " ;;
  printStatus <- checkPrintStatus 30 ;;
  (if printStatus
   then progress (PyInt 100) progressTotal
                 ("Print is complete!                       " ++ nl)%string
   else progress (PyInt 100) progressTotal
                 ("Timed out waiting for print..            " ++ nl)%string) ;;
  close 10.

End Session.

(** The callback used to observe [printPhoto]: it records its arguments. *)
Definition record_progress : progress_fn :=
  fun current total status => emit (EvProgress current total status).

(** * The vocabulary of the statements

    Worlds, clocks, what an observer reads off the events of a run, and the
    properties of runs that the lemmas and theorems below are about. *)

(** ** Worlds and clocks *)

Definition set_clock (w : World) (c : Z) : World :=
  mkWorld (self w) c (workers w).

Definition with_comms (w : World) (c : option SocketClientThread) : World :=
  let s := self w in
  mkWorld (mkSP1 (ip s) (port s) (timeout s) (pinCode s)
                 (currentTimeMillis s) c)
          (clock w) (workers w).

(** The reply queue of the live thread, if any. *)
Definition queue (w : World) : list Arrival :=
  match comms (self w) with
  | Some th => reply_q th
  | None => []
  end.

(** The world after the oldest reply has been taken off the queue. *)
Definition pop_reply (w : World) : World :=
  match comms (self w) with
  | Some th => with_comms w (Some (mkThread (tl (reply_q th)) (started th)))
  | None => w
  end.

Definition live (w : World) : Prop := comms (self w) <> None.

(** The clock reading at which a loop entered at [c] finds its deadline [d]
    (in whole seconds) reached: the first of [c], [c + 100], [c + 200], ...
    whose whole second is not below [d]. *)
Definition timeout_clock (d c : Z) : Z :=
  if c / 1000 <? d then c + 100 * ((d * 1000 - c + 99) / 100) else c.

(** The clock reading at which a loop entered at [c] finds a reply that
    arrives at [t]: the first of [c], [c + 100], ... that is not before
    [t]. *)
Definition wait_clock (t c : Z) : Z :=
  if t <=? c then c else c + 100 * ((t - c + 99) / 100).

(** No reply can be taken from the queue before the clock reads [T]. *)
Definition silent_until (T : Z) (q : list Arrival) : Prop :=
  match q with
  | [] => True
  | (t, _) :: _ => T <= t
  end.

Section PollTerms.

Variable A : Type.

Variable deadline : Z.

Variable on_reply : ClientReply -> M (option A).

(** What the loop does with the value of the [try] statement. *)
Definition poll_next (fuel : nat) (x : option A) : M (option A) :=
  match x with
  | Some a => ret (Some a)
  | None => poll_loop fuel deadline on_reply
  end.

End PollTerms.

(** The world in which [connect] starts to poll: the new thread is stored
    and started. *)
Definition connecting (w : World) : World :=
  mkWorld (mkSP1 (ip (self w)) (port (self w)) (timeout (self w))
                 (pinCode (self w)) (currentTimeMillis (self w))
                 (Some (mkThread (hd [] (workers w)) true)))
          (clock w) (tl (workers w)).

Definition connect_events (w : World) : list Event :=
  [EvStart; EvPut (CONNECT (ip (self w)) (port (self w)))].

(** What [connect] and [send_and_recieve] make of the result of their loop,
    after the events [pre]. *)
Definition after_poll {A B} (pre : list Event) (f : A -> B)
    (r : Run (option A)) : Run B :=
  match r with
  | mkRun (Returned (Some a)) w e => mkRun (Returned (f a)) w (pre ++ e)
  | mkRun (Returned None) w e =>
      mkRun (Raised CommandTimedOutException) w
            (pre ++ e ++ [EvRaise CommandTimedOutException])
  | mkRun (Raised x) w e => mkRun (Raised x) w (pre ++ e)
  | mkRun OutOfFuel w e => mkRun OutOfFuel w (pre ++ e)
  end.

Definition send_events (cmdBytes : bytes) : list Event :=
  [EvPut (SEND cmdBytes); EvPut RECEIVE].

(** What [close] makes of the result of its loop. *)
Definition close_after_poll (r : Run (option unit)) : Run unit :=
  match r with
  | mkRun (Returned (Some _)) w e => mkRun (Returned tt) w (EvPut CLOSE :: e)
  | mkRun (Returned None) w e =>
      match comms (self w) with
      | Some _ =>
          mkRun (Raised CommandTimedOutException) (with_comms w None)
                (EvPut CLOSE :: e ++ [EvJoin; EvRaise CommandTimedOutException])
      | None =>
          mkRun (Raised AttributeError) w
                (EvPut CLOSE :: e ++ [EvRaise AttributeError])
      end
  | mkRun (Raised x) w e => mkRun (Raised x) w (EvPut CLOSE :: e)
  | mkRun OutOfFuel w e => mkRun OutOfFuel w (EvPut CLOSE :: e)
  end.

(** The clock reading at which the loop, entered at [c], has taken every
    reply of [q] off the queue, one after the other. *)
Fixpoint drain_clock (q : list Arrival) (c : Z) : Z :=
  match q with
  | [] => c
  | (t, _) :: q' => drain_clock q' (wait_clock t c)
  end.

Definition set_queue (w : World) (q : list Arrival) : World :=
  match comms (self w) with
  | Some th => with_comms w (Some (mkThread q (started th)))
  | None => w
  end.

(** The result of [send_and_recieve]'s loop when reply [r] decides. *)
Definition decided (r : ClientReply) (w1 : World) : Run (option ClientReply) :=
  if is_SUCCESS r then mkRun (Returned (Some r)) w1 []
  else mkRun (Raised (ConnectError (rdata r))) w1
             [EvRaise (ConnectError (rdata r))].

Definition no_data (a : Arrival) : Prop := rdata (snd a) = None.

(** ** A scripted printer

    A test double for the parts that are not in [sp1.py]: a codec with
    two-byte headers and a worker that has every reply ready. *)

Module Fixture.

Import Byte.

Definition tag (c : Command) : byte :=
  match c with
  | SpecificationsCommand => x4f
  | VersionCommand => xc0
  | PrintCountCommand => xc1
  | ModelNameCommand => xc2
  | PrePrintCommand _ => xc4
  | PrinterLockCommand _ => xb3
  | ResetCommand => x50
  | PrepImageCommand _ _ _ => x51
  | SendImageCommand _ _ => x52
  | Type83Command => x53
  | Type195Command => xc3
  | LockStateCommand => xb0
  end.

(** A frame is the command tag, the return code and the payload bytes. *)
Definition encode (c : Command) (time pin : Z) : bytes :=
  tag c :: x00 ::
  match c with
  | SendImageCommand _ payloadBytes => payloadBytes
  | _ => []
  end.

Definition payload_of (t : byte) : pyval :=
  match t with
  | xc0 => PyStr "1.00"
  | xc2 => PyDict [("modelName", PyStr "SP-1")]
  | xc1 => PyDict [("printHistory", PyList [PyInt 7; PyInt 35])]
  | _ => PyDict []
  end.

Definition decode_frame (b : bytes) : option Packet :=
  match b with
  | t :: rc :: _ =>
      Some (mkPacket [("returnCode", PyInt (Z.of_N (to_N rc)));
                      ("battery", PyInt 80);
                      ("printCount", PyInt 42)]
                     (payload_of t))
  | _ => None
  end.

#[export] Instance codec : PacketFactory := {|
  encodeCommand := encode;
  decode := decode_frame;
  RTN_E_RCV_FRAME := 0
|}.

(** The worker's acknowledgement of CONNECT, SEND and CLOSE. *)
Definition ack : Arrival := (0, mkReply SUCCESS None).

(** The worker's answers to one command: SEND acknowledged, frame received. *)
Definition answer (frame : bytes) : list Arrival :=
  [ack; (0, mkReply SUCCESS (Some frame))].

(** Everything one worker enqueues between [connect] and [close]. *)
Definition session (frames : list bytes) : list Arrival :=
  ack :: flat_map answer frames ++ [ack].

Definition reply_to (c : Command) (rc : byte) : bytes := [tag c; rc].

(** The five workers of one [printPhoto] that sends [n] segments and polls
    the print status with return codes [rcs]. *)
Definition photo_workers (n : nat) (rcs : list byte) : list (list Arrival) :=
  [ session (repeat (reply_to (PrePrintCommand 0) x00) 8);
    session [reply_to (PrinterLockCommand 1) x00];
    session [reply_to ResetCommand x00];
    session (reply_to (PrepImageCommand 2 0 0) x00
             :: repeat (reply_to (SendImageCommand 0 []) x00) n
             ++ [reply_to Type83Command x00]);
    session (reply_to LockStateCommand x00
             :: reply_to VersionCommand x00
             :: reply_to ModelNameCommand x00
             :: map (reply_to Type195Command) rcs) ].

(** A fresh client, created and used 5.9 s after a whole second. *)
Definition world (workers : list (list Arrival)) : World :=
  mkWorld (SP1_init default_ip default_port default_timeout default_pinCode 5900)
          5900 workers.

(** The same client with a live worker that is going to enqueue [q]. *)
Definition connected (q : list Arrival) : World :=
  with_comms (world []) (Some (mkThread q true)).

Definition byte_of_nat (i : nat) : byte :=
  match of_nat (i mod 256) with
  | Some b => b
  | None => x00
  end.

(** An image of [n] bytes 0, 1, 2, ... (modulo 256). *)
Definition image (n : nat) : bytes := map byte_of_nat (seq 0 n).

End Fixture.

Section AnsweredTerms.

Context {PF : PacketFactory}.

(** The frame a command is sent as. *)
Definition encoded (w : World) (c : Command) : bytes :=
  encodeCommand c (currentTimeMillis (self w)) (pinCode (self w)).

(** What an observer sees of a command that is answered by packet [p]. *)
Definition exchange (w : World) (c : Command) (p : Packet) : list Event :=
  [EvCommand c; EvPut (SEND (encoded w c)); EvPut RECEIVE; EvResponse c p].

(** The worker's two replies to a command, both on the queue at [t]: the
    acknowledgement of SEND, without data, and the frame it received. *)
Definition answer_at (t : Z) (frame : bytes) : list Arrival :=
  [(t, mkReply SUCCESS None); (t, mkReply SUCCESS (Some frame))].

End AnsweredTerms.

(** ** What an observer reads off the events of a run *)

(** The calls of the progress callback: (current, total, status). *)
Definition progress_of (evs : list Event) : list (pyval * Z * string) :=
  flat_map (fun ev => match ev with
                      | EvProgress c t s => [(c, t, s)]
                      | _ => []
                      end) evs.

(** The commands handed to [sendCommand]. *)
Definition commands_of (evs : list Event) : list Command :=
  flat_map (fun ev => match ev with EvCommand c => [c] | _ => [] end) evs.

(** The decoded responses [sendCommand] returned, each with its command. *)
Definition responses_of (evs : list Event) : list (Command * Packet) :=
  flat_map (fun ev => match ev with EvResponse c p => [(c, p)] | _ => [] end) evs.

(** The exceptions raised. *)
Definition raises_of (evs : list Event) : list exn :=
  flat_map (fun ev => match ev with EvRaise e => [e] | _ => [] end) evs.

(** The arguments of the calls of [sendSendImageCommand]. *)
Definition segments_of (evs : list Event) : list (Z * bytes) :=
  flat_map (fun c => match c with
                     | SendImageCommand n b => [(n, b)]
                     | _ => []
                     end) (commands_of evs).

(** The [current] values passed to the progress callback. *)
Definition currents_of (evs : list Event) : list pyval :=
  map (fun p => fst (fst p)) (progress_of evs).

(** A list of numbers that never goes down. *)
Fixpoint nondecreasing (l : list pyval) : bool :=
  match l with
  | a :: ((b :: _) as l') =>
      (if Qle_bool (num_value a) (num_value b) then true else false)
      && nondecreasing l'
  | _ => true
  end.

Section StatusTerms.

Context {PF : PacketFactory}.

(** The return code of a reply is the sentinel. *)
Definition accepted (p : Packet) : Prop :=
  exists v, dict_get (header p) "returnCode" = Some v /\
            py_is_int v RTN_E_RCV_FRAME = true.

(** The reply has a return code and it is not the sentinel. *)
Definition pending (p : Packet) : Prop :=
  exists v, dict_get (header p) "returnCode" = Some v /\
            py_is_int v RTN_E_RCV_FRAME = false.

(** The frames decode to the packets, one by one. *)
Definition decode_to (frames : list bytes) (pkts : list Packet) : Prop :=
  Forall2 (fun f p => decode f = Some p) frames pkts.

(** What the worker enqueues, at [t], in answer to one command after the
    other. *)
Definition answers_at (t : Z) (frames : list bytes) : list Arrival :=
  flat_map (answer_at t) frames.

(** What an observer sees of Type195 commands answered by [pkts]. *)
Definition status_exchanges (w : World) (pkts : list Packet) : list Event :=
  flat_map (exchange w Type195Command) pkts.

End StatusTerms.

(** The events of the orchestration: commands, responses, progress reports
    and raised exceptions.  What goes on between the caller and the worker
    thread is left out. *)
Definition visible (ev : Event) : bool :=
  match ev with
  | EvCommand _ | EvResponse _ _ | EvProgress _ _ _ | EvRaise _ => true
  | EvStart | EvPut _ | EvJoin => false
  end.

Definition vis (evs : list Event) : list Event := filter visible evs.

Arguments vis : simpl never.

(** A run that shows nothing but the exception it raises, if any. *)
Definition quiet {A} (r : Run A) : Prop :=
  match outcome_of r with
  | Returned _ => vis (events_of r) = []
  | Raised e => vis (events_of r) = [EvRaise e]
  | OutOfFuel => False
  end.

Section AnyWorldTerms.

Context {PF : PacketFactory}.

(** What a call of [sendCommand] shows: the command and either the response
    it returns or the exception it raises. *)
Definition shows_command (c : Command) (r : Run Packet) : Prop :=
  match outcome_of r with
  | Returned p => vis (events_of r) = [EvCommand c; EvResponse c p]
  | Raised e => vis (events_of r) = [EvCommand c; EvRaise e]
  | OutOfFuel => False
  end.

End AnyWorldTerms.

(** A property of every run of a computation. *)
Definition always {A} (P : Run A -> Prop) (m : M A) : Prop := forall w, P (m w).

Definition segment_status (segment : Z) : string :=
  ("Sent image segment " ++ str_of_int segment ++ ".         ")%string.

(** The [current] of the report made after segment number [k - 1] of an
    image of [L] bytes: [40 + 30 * bytesSent / len(imageBytes)] with
    [bytesSent = 960 * k], a float. *)
Definition segment_current (L k : Z) : pyval :=
  PyFloat (Qred (40 + Qred (inject_Z (30 * (960 * k)) / inject_Z L))).

(** A run that catches nothing: it ends, and an exception was raised in it
    only if it ends the run. *)
Definition tidy {A} (r : Run A) : Prop :=
  match outcome_of r with
  | Returned _ => raises_of (events_of r) = []
  | Raised e => raises_of (events_of r) = [e]
  | OutOfFuel => False
  end.

(** The responses to the status polls. *)
Definition status_of (evs : list Event) : list Packet :=
  flat_map (fun cp => match fst cp with
                      | Type195Command => [snd cp]
                      | _ => []
                      end) (responses_of evs).

Definition complete_report : pyval * Z * string :=
  (PyInt 100, 100, ("Print is complete!                       " ++ nl)%string).

Definition timed_out_report : pyval * Z * string :=
  (PyInt 100, 100, ("Timed out waiting for print..            " ++ nl)%string).


(** A run with no status poll. *)
Definition no_status {A} (r : Run A) : Prop := status_of (events_of r) = [].

Section EndingTerms.

Context {PF : PacketFactory}.

(** The sentinel came, after replies that were pending. *)
Definition seen_sentinel (st : list Packet) : Prop :=
  exists st' p, st = st' ++ [p] /\ Forall pending st' /\ accepted p.

(** [n] replies, all pending. *)
Definition exhausted (n : nat) (st : list Packet) : Prop :=
  Forall pending st /\ List.length st = n.


(** What a status poll that returns has seen. *)
Definition polled (n : nat) (r : Run bool) : Prop :=
  match outcome_of r with
  | Returned b =>
      progress_of (events_of r) = [] /\
      (if b then seen_sentinel (status_of (events_of r))
       else exhausted n (status_of (events_of r)))
  | _ => True
  end.


End EndingTerms.

Definition command_segments (c : Command) : list (Z * bytes) :=
  match c with
  | SendImageCommand n b => [(n, b)]
  | _ => []
  end.

(** The segments a run was to send: all of them when it returns, the first
    of them when it is abandoned. *)
Definition sends {A} (segs : list (Z * bytes)) (r : Run A) : Prop :=
  match outcome_of r with
  | Returned _ => segments_of (events_of r) = segs
  | _ => exists rest, segs = segments_of (events_of r) ++ rest
  end.

(** The bytes of one segment, as the loop of [printPhoto] cuts them. *)
Definition segment_bytes (imageBytes : bytes) (bytesToSend bytesSent : Z)
  : bytes :=
  if 960 <=? bytesToSend
  then py_slice imageBytes bytesSent (bytesSent + 960)
  else py_slice imageBytes bytesSent (bytesSent + bytesToSend)
       ++ bytearray (960 - bytesToSend).

(** The arguments of the calls of [sendSendImageCommand] the loop makes. *)
Fixpoint loop_segments (fuel : nat) (imageBytes : bytes)
    (bytesToSend bytesSent segment : Z) : list (Z * bytes) :=
  match fuel with
  | O => []
  | S fuel' =>
      if 0 <? bytesToSend
      then (segment, segment_bytes imageBytes bytesToSend bytesSent)
           :: loop_segments fuel' imageBytes (bytesToSend - 960)
                            (bytesSent + 960) (segment + 1)
      else []
  end.

(** [b] followed by as many zero bytes as it lacks to 960. *)
Definition pad (b : bytes) : bytes :=
  b ++ repeat Byte.x00 (960 - List.length b).

(** Segment number [i] of an image: its 960 bytes from offset [960 * i],
    or what is left of it there, padded. *)
Definition nth_segment (img : bytes) (i : nat) : bytes :=
  pad (firstn 960 (skipn (960 * i) img)).

(** [ceil(L / 960)] *)
Definition segment_count (L : nat) : nat := (L + 959) / 960.

(** The segments of an image, each with its number. *)
Definition image_segments (img : bytes) : list (Z * bytes) :=
  map (fun i => (Z.of_nat i, nth_segment img i))
      (seq 0 (segment_count (List.length img))).

(** The claim as the specification words it: an operation that raises
    [CommandTimedOutException] has waited for its whole timeout. *)
Definition waits_whole_timeout {A} (op : M A) (tmo : Z) (w : World) : Prop :=
  outcome_of (op w) = Raised CommandTimedOutException ->
  clock w + 1000 * tmo <= clock (world_of (op w)).

(** What the loops do: entered at clock reading [c], they give up at the
    first of [c], [c + 100], [c + 200], ... whose whole second has reached
    the whole second of [c] plus the timeout. *)
Definition gave_up_at (tmo c c' : Z) : Prop :=
  c' = timeout_clock (c / 1000 + tmo) c /\
  c / 1000 + tmo <= c' / 1000 /\
  (tmo <= 0 -> c' = c) /\
  (0 < tmo -> 1000 * tmo - 1000 < c' - c < 1000 * tmo + 100).

(** The claim as the specification words it: the first reply delivered in
    time decides the outcome. *)
Definition first_reply_decides (cmdBytes : bytes) (tmo : Z) (w : World) : Prop :=
  forall t r q,
    queue w = (t, r) :: q ->
    wait_clock t (clock w) / 1000 < clock w / 1000 + tmo ->
    outcome_of (send_and_recieve cmdBytes tmo w)
    = if is_SUCCESS r then Returned r else Raised (ConnectError (rdata r)).


(** ** States before and after *)

(** From a world in [P] the computation ends, in a world in [Q] when it
    returns, and with an exception and in a world in [E] when it raises. *)
Definition hoare {A} (P : World -> Prop) (m : M A) (Q : A -> World -> Prop)
    (E : exn -> World -> Prop) : Prop :=
  forall w, P w ->
    match outcome_of (m w) with
    | Returned a => Q a (world_of (m w))
    | Raised e => E e (world_of (m w))
    | OutOfFuel => False
    end.

(** No thread in [self.comms]. *)
Definition closed (w : World) : Prop := comms (self w) = None.

(** The exceptions of the three transport operations. *)
Definition transport_exn (e : exn) : Prop :=
  e = CommandTimedOutException \/ exists d, e = ConnectError d.

(** The exceptions of a command. *)
Definition command_exn (e : exn) : Prop :=
  transport_exn e \/ e = DecodeError.

(** The exceptions of a print. *)
Definition photo_exn (e : exn) : Prop :=
  command_exn e \/ e = KeyError "returnCode".

(** The exceptions of [getPrinterInformation]. *)
Definition information_exn (e : exn) : Prop :=
  command_exn e \/ e = TypeError \/
  e = KeyError "modelName" \/ e = KeyError "battery" \/
  e = KeyError "printCount" \/ e = KeyError "printHistory".

(** The reply queue of [w] is what is left of the queue of [w0]. *)
Definition queue_left (w0 w : World) : Prop :=
  live w /\ exists taken, queue w0 = taken ++ queue w.

(** An exception of [allowed], raised with the thread still in
    [self.comms], or else the timeout of [close]. *)
Definition left_open (allowed : exn -> Prop) (e : exn) (w : World) : Prop :=
  allowed e /\ (live w \/ (e = CommandTimedOutException /\ closed w)).

(** ** What a run was to show *)

(** Under the projection [f] of its events, a run was to show the list [l]:
    it has shown all of [l] when it returns and the first of it when it is
    abandoned. *)
Definition emits {A B} (f : Event -> list B) (l : list B) (r : Run A) : Prop :=
  match outcome_of r with
  | Returned _ => flat_map f (events_of r) = l
  | _ => exists rest, l = flat_map f (events_of r) ++ rest
  end.

(** The same for a run that was to show [pre] and then one of the lists
    [P]. *)
Definition emits_then {A B} (f : Event -> list B) (pre : list B)
    (P : list B -> Prop) (r : Run A) : Prop :=
  match outcome_of r with
  | Returned _ => exists t, P t /\ flat_map f (events_of r) = pre ++ t
  | _ => exists t rest, P t /\ pre ++ t = flat_map f (events_of r) ++ rest
  end.

(** A projection that reads commands or progress reports only. *)
Definition blind {B} (f : Event -> list B) : Prop :=
  (forall ev, visible ev = false -> f ev = []) /\
  (forall e, f (EvRaise e) = []) /\
  (forall c p, f (EvResponse c p) = []).

Definition command_of (ev : Event) : list Command :=
  match ev with EvCommand c => [c] | _ => [] end.

Definition report_of (ev : Event) : list (pyval * Z * string) :=
  match ev with EvProgress c t s => [(c, t, s)] | _ => [] end.

(** ** The course of a print *)

(** The commands of a print up to the status polls. *)
Definition photo_commands (imageBytes : bytes) : list Command :=
  map PrePrintCommand [1; 2; 3; 4; 5; 6; 7; 8]
  ++ [PrinterLockCommand 1; ResetCommand;
      PrepImageCommand 2 0 (len imageBytes)]
  ++ map (fun s => SendImageCommand (fst s) (snd s))
         (image_segments imageBytes)
  ++ [Type83Command; LockStateCommand; VersionCommand; ModelNameCommand].

(** Between one and thirty status polls. *)
Definition status_polls (l : list Command) : Prop :=
  exists k, (1 <= k <= 30)%nat /\ l = repeat Type195Command k.

(** The report made after the [k]-th segment of an image of [L] bytes. *)
Definition segment_report (L : Z) (k : nat) : pyval * Z * string :=
  (segment_current L (Z.of_nat k), 100, segment_status (Z.of_nat k)).

(** The progress reports of a print up to the last one. *)
Definition photo_reports (imageBytes : bytes) : list (pyval * Z * string) :=
  [ (PyInt 0, 100, "Connecting to instax Printer.           ");
    (PyInt 10, 100, "Connected! - Sending Pre Print Commands.");
    (PyInt 20, 100, "Locking Printer for Print.               ");
    (PyInt 30, 100, "Resetting Printer.                         ");
    (PyInt 40, 100, "About to send Image.                       ") ]
  ++ map (segment_report (len imageBytes))
         (seq 1 (segment_count (List.length imageBytes)))
  ++ [ (PyInt 70, 100, "Image Print Started.                       ");
       (PyInt 90, 100, "Checking status of print.                    ") ].

(** The last report of a print, one of two. *)
Definition last_report (l : list (pyval * Z * string)) : Prop :=
  l = [complete_report] \/ l = [timed_out_report].

Section CourseTerms.

Context {PF : PacketFactory}.

(** The end of [printPhoto], from the status poll on. *)
Definition status_tail : M unit :=
  (printStatus <- checkPrintStatus_loop (Z.to_nat 30) ;;
   (if printStatus
    then record_progress (PyInt 100) 100
           ("Print is complete!                       " ++ nl)%string
    else record_progress (PyInt 100) 100
           ("Timed out waiting for print..            " ++ nl)%string) ;;
   close 10)%monad.

End CourseTerms.

(** ** The thread of a connection *)

(** In [w'] the thread in [self.comms] is the one [connect] created and
    started from [w]: of the replies its worker was going to enqueue,
    [taken] have been taken and the others are still to come.  No other
    thread has been created since. *)
Definition started_by (w w' : World) : Prop :=
  exists q taken,
    hd [] (workers w) = taken ++ q /\
    comms (self w') = Some (mkThread q true) /\
    workers w' = tl (workers w).
(** * Reasoning about runs *)

Lemma run_eta {A} (r : Run A) :
  mkRun (outcome_of r) (world_of r) (events_of r) = r.
Proof. destruct r; reflexivity. Qed.

(** ** Clocks *)

Ltac zdiv := Z.div_mod_to_equations; lia.

Lemma timeout_clock_expired d c : d <= c / 1000 -> timeout_clock d c = c.
Proof.
  unfold timeout_clock. intros H.
  destruct (Z.ltb_spec (c / 1000) d); [lia | reflexivity].
Qed.

Lemma timeout_clock_step d c :
  c / 1000 < d -> timeout_clock d (c + 100) = timeout_clock d c.
Proof.
  unfold timeout_clock. intros H.
  destruct (Z.ltb_spec (c / 1000) d); [| lia].
  destruct (Z.ltb_spec ((c + 100) / 1000) d); zdiv.
Qed.

Lemma timeout_clock_ge d c : c <= timeout_clock d c.
Proof.
  unfold timeout_clock. destruct (Z.ltb_spec (c / 1000) d); zdiv.
Qed.

Lemma wait_clock_ready t c : t <= c -> wait_clock t c = c.
Proof.
  unfold wait_clock. intros H.
  destruct (Z.leb_spec t c); [reflexivity | lia].
Qed.

Lemma wait_clock_step t c : c < t -> wait_clock t (c + 100) = wait_clock t c.
Proof.
  unfold wait_clock. intros H.
  destruct (Z.leb_spec t c); [lia |].
  destruct (Z.leb_spec t (c + 100)); zdiv.
Qed.

Lemma wait_clock_ge t c : c <= wait_clock t c.
Proof.
  unfold wait_clock. destruct (Z.leb_spec t c); zdiv.
Qed.

Lemma wait_clock_arrived t c : t <= wait_clock t c.
Proof.
  unfold wait_clock. destruct (Z.leb_spec t c); zdiv.
Qed.

(** ** One iteration of the polling loop *)

Ltac unfold_ops :=
  unfold SocketClientThread_new, comms_start, comms_join, cmd_q_put,
    reply_q_get, the_comms, set_comms, get_self, int_time, get_world,
    put_world, raise_, emit, throw, sleep, try_except_Empty, bind, ret.

Section Poll.

Variable A : Type.

Variable deadline : Z.

Variable on_reply : ClientReply -> M (option A).

Lemma poll_loop_expired fuel w :
  deadline <= clock w / 1000 ->
  poll_loop (S fuel) deadline on_reply w = mkRun (Returned None) w [].
Proof.
  intros H. cbn [poll_loop]. unfold int_time, get_world, bind, ret.
  destruct (Z.ltb_spec (clock w / 1000) deadline); [lia | reflexivity].
Qed.

Lemma poll_loop_dead fuel w :
  clock w / 1000 < deadline ->
  comms (self w) = None ->
  poll_loop (S fuel) deadline on_reply w
  = mkRun (Raised AttributeError) w [EvRaise AttributeError].
Proof.
  intros H Hc. cbn [poll_loop]. unfold_ops.
  destruct (Z.ltb_spec (clock w / 1000) deadline); [| lia].
  rewrite Hc. reflexivity.
Qed.

Lemma poll_loop_sleep fuel w :
  clock w / 1000 < deadline ->
  live w ->
  silent_until (clock w + 1) (queue w) ->
  poll_loop (S fuel) deadline on_reply w
  = poll_loop fuel deadline on_reply (set_clock w (clock w + 100)).
Proof.
  intros H Hl Hs. cbn [poll_loop]. unfold_ops.
  destruct (Z.ltb_spec (clock w / 1000) deadline); [| lia].
  unfold live, queue, silent_until, set_clock in *.
  destruct (comms (self w)) as [th |]; [| congruence].
  destruct (reply_q th) as [| [t r] q]; cbn.
  - destruct (poll_loop fuel deadline on_reply _) as [o w2 e2].
    destruct o; reflexivity.
  - destruct (Z.leb_spec t (clock w)); [lia |]. cbn.
    destruct (poll_loop fuel deadline on_reply _) as [o w2 e2].
    destruct o; reflexivity.
Qed.

Lemma poll_loop_ready fuel w t r q :
  clock w / 1000 < deadline ->
  queue w = (t, r) :: q ->
  t <= clock w ->
  outcome_of (on_reply r (pop_reply w)) <> Raised QueueEmpty ->
  poll_loop (S fuel) deadline on_reply w
  = bind (on_reply r) (poll_next deadline on_reply fuel) (pop_reply w).
Proof.
  intros H Hq Ht Hne. cbn [poll_loop]. unfold_ops.
  destruct (Z.ltb_spec (clock w / 1000) deadline); [| lia].
  unfold queue, pop_reply, with_comms in *.
  destruct (comms (self w)) as [th |]; [| discriminate].
  rewrite Hq in *. cbn in *.
  destruct (Z.leb_spec t (clock w)); [| lia]. cbn.
  match goal with |- context [on_reply r ?w1] =>
    destruct (on_reply r w1) as [o w2 e2] end.
  cbn in *.
  destruct o as [[a |] | e |]; cbn; try reflexivity.
  - destruct (poll_loop fuel deadline on_reply w2) as [o w3 e3].
    destruct o; reflexivity.
  - destruct e; cbn; try reflexivity. congruence.
Qed.

Lemma poll_measure_sleep w :
  clock w / 1000 < deadline ->
  (poll_measure deadline (set_clock w (clock w + 100))
   < poll_measure deadline w)%nat.
Proof.
  intros H. unfold poll_measure, set_clock. cbn.
  destruct (comms (self w)); zdiv.
Qed.

Lemma poll_measure_pop w t r q :
  queue w = (t, r) :: q ->
  poll_measure deadline w = S (poll_measure deadline (pop_reply w)).
Proof.
  unfold queue, poll_measure, pop_reply, with_comms.
  destruct (comms (self w)) as [th |]; [| discriminate].
  intros ->. cbn. lia.
Qed.

(** The loop gives up when nothing can be taken from the queue before the
    deadline is found reached. *)
Lemma poll_loop_timeout fuel : forall w,
  (poll_measure deadline w < fuel)%nat ->
  live w ->
  silent_until (timeout_clock deadline (clock w)) (queue w) ->
  poll_loop fuel deadline on_reply w
  = mkRun (Returned None)
          (set_clock w (timeout_clock deadline (clock w))) [].
Proof.
  induction fuel as [| fuel IH]; intros w Hm Hl Hs; [lia |].
  destruct (Z.lt_ge_cases (clock w / 1000) deadline) as [Hlt | Hge].
  - assert (Hstep : timeout_clock deadline (clock w) >= clock w + 100).
    { unfold timeout_clock.
      destruct (Z.ltb_spec (clock w / 1000) deadline); zdiv. }
    rewrite poll_loop_sleep; auto.
    + rewrite IH.
      * cbn. rewrite timeout_clock_step by assumption. reflexivity.
      * pose proof (poll_measure_sleep w Hlt). lia.
      * exact Hl.
      * cbn. rewrite timeout_clock_step by assumption. exact Hs.
    + unfold silent_until in *.
      destruct (queue w) as [| [t r] q]; [exact I | lia].
  - rewrite poll_loop_expired by lia.
    rewrite timeout_clock_expired by lia.
    unfold set_clock. destruct w; reflexivity.
Qed.

(** The loop reaches a reply that arrives before the deadline and hands it
    to [on_reply]; the fuel left still covers the rest of the loop. *)
Lemma poll_loop_arrive fuel : forall w t r q,
  (poll_measure deadline w < fuel)%nat ->
  queue w = (t, r) :: q ->
  wait_clock t (clock w) / 1000 < deadline ->
  (forall w', outcome_of (on_reply r w') <> Raised QueueEmpty) ->
  exists fuel',
    let w1 := pop_reply (set_clock w (wait_clock t (clock w))) in
    (poll_measure deadline w1 < fuel')%nat /\
    poll_loop fuel deadline on_reply w
    = bind (on_reply r) (poll_next deadline on_reply fuel') w1.
Proof.
  induction fuel as [| fuel IH]; intros w t r q Hm Hq Hw Hne; [lia |].
  assert (Hc : clock w / 1000 < deadline).
  { pose proof (wait_clock_ge t (clock w)). zdiv. }
  destruct (Z.le_gt_cases t (clock w)) as [Hle | Hgt].
  - exists fuel. rewrite wait_clock_ready by assumption.
    assert (Hw0 : set_clock w (clock w) = w) by (destruct w; reflexivity).
    rewrite Hw0. split.
    + rewrite (poll_measure_pop w Hq) in Hm. lia.
    + eapply poll_loop_ready; eauto.
  - assert (Hl : live w).
    { unfold live, queue in *. destruct (comms (self w)); congruence. }
    rewrite poll_loop_sleep; auto.
    + destruct (IH (set_clock w (clock w + 100)) t r q) as [fuel' [H1 H2]].
      * pose proof (poll_measure_sleep w Hc). lia.
      * exact Hq.
      * cbn. rewrite wait_clock_step by lia. exact Hw.
      * exact Hne.
      * exists fuel'. cbn in *.
        rewrite wait_clock_step in * by lia.
        split; [exact H1 | exact H2].
    + rewrite Hq. cbn. lia.
Qed.

End Poll.

(** ** The three transport operations, unfolded up to their polling loop *)

Ltac concrete_world w :=
  let s := fresh "s" in
  destruct w as [s ? ?]; destruct s as [? ? ? ? ? [? |]];
  cbn in *; try congruence.

Lemma connect_unfold w :
  connect w =
  after_poll (connect_events w) (fun _ => tt)
    (poll (clock w / 1000 + timeout (self w)) connect_on_reply (connecting w)).
Proof.
  unfold connect, connecting, connect_events, after_poll. unfold_ops. cbn.
  match goal with |- context [poll ?d ?h ?w1] =>
    destruct (poll d h w1) as [o w2 e2] end.
  destruct o as [[a |] | e |]; cbn; try reflexivity.
  rewrite app_nil_r. reflexivity.
Qed.

Lemma send_and_recieve_unfold cmdBytes tmo w :
  live w ->
  send_and_recieve cmdBytes tmo w =
  after_poll (send_events cmdBytes) (fun reply => reply)
    (poll (clock w / 1000 + tmo) send_and_recieve_on_reply w).
Proof.
  unfold live. intros Hl.
  unfold send_and_recieve, send_events, after_poll. unfold_ops.
  concrete_world w.
  match goal with |- context [poll ?d ?h ?w1] =>
    destruct (poll d h w1) as [o w2 e2] end.
  destruct o as [[a |] | e |]; cbn; rewrite ?app_nil_r; reflexivity.
Qed.

Lemma send_and_recieve_dead cmdBytes tmo w :
  comms (self w) = None ->
  send_and_recieve cmdBytes tmo w
  = mkRun (Raised AttributeError) w [EvRaise AttributeError].
Proof.
  intros Hc. unfold send_and_recieve. unfold_ops.
  rewrite Hc. reflexivity.
Qed.

Lemma close_unfold tmo w :
  live w ->
  close tmo w =
  close_after_poll (poll (clock w / 1000 + tmo) close_on_reply w).
Proof.
  unfold live. intros Hl.
  unfold close, close_after_poll. unfold_ops.
  concrete_world w.
  match goal with |- context [poll ?d ?h ?w1] =>
    destruct (poll d h w1) as [o w2 e2] end.
  destruct o as [[a |] | e |]; cbn; rewrite ?app_nil_r; try reflexivity.
  unfold with_comms. destruct (comms (self w2)); cbn; reflexivity.
Qed.

Lemma close_dead tmo w :
  comms (self w) = None ->
  close tmo w = mkRun (Raised AttributeError) w [EvRaise AttributeError].
Proof.
  intros Hc. unfold close. unfold_ops. rewrite Hc. reflexivity.
Qed.

(** ** The handlers of the three loops *)

Lemma connect_on_reply_not_Empty r w :
  outcome_of (connect_on_reply r w) <> Raised QueueEmpty.
Proof.
  unfold connect_on_reply. destruct (is_SUCCESS r); cbn; discriminate.
Qed.

Lemma send_and_recieve_on_reply_not_Empty r w :
  outcome_of (send_and_recieve_on_reply r w) <> Raised QueueEmpty.
Proof.
  unfold send_and_recieve_on_reply.
  destruct (rdata r); [destruct (is_SUCCESS r) |]; cbn; discriminate.
Qed.

Lemma close_on_reply_not_Empty r w :
  outcome_of (close_on_reply r w) <> Raised QueueEmpty.
Proof.
  unfold close_on_reply. destruct (is_SUCCESS r); [| cbn; discriminate].
  unfold_ops. concrete_world w; discriminate.
Qed.

(** ** Polling a worker that stays silent *)

Lemma poll_silent {A} d (h : ClientReply -> M (option A)) w :
  live w ->
  silent_until (timeout_clock d (clock w)) (queue w) ->
  poll d h w = mkRun (Returned None) (set_clock w (timeout_clock d (clock w))) [].
Proof.
  intros Hl Hs. unfold poll. apply poll_loop_timeout; auto.
Qed.

Lemma connect_silent w :
  let d := clock w / 1000 + timeout (self w) in
  silent_until (timeout_clock d (clock w)) (hd [] (workers w)) ->
  connect w
  = mkRun (Raised CommandTimedOutException)
          (set_clock (connecting w) (timeout_clock d (clock w)))
          (connect_events w ++ [EvRaise CommandTimedOutException]).
Proof.
  intros d Hs. rewrite connect_unfold. fold d.
  rewrite poll_silent.
  - reflexivity.
  - unfold live, connecting. cbn. discriminate.
  - exact Hs.
Qed.

Lemma send_and_recieve_silent cmdBytes tmo w :
  let d := clock w / 1000 + tmo in
  live w ->
  silent_until (timeout_clock d (clock w)) (queue w) ->
  send_and_recieve cmdBytes tmo w
  = mkRun (Raised CommandTimedOutException)
          (set_clock w (timeout_clock d (clock w)))
          (send_events cmdBytes ++ [EvRaise CommandTimedOutException]).
Proof.
  intros d Hl Hs. rewrite send_and_recieve_unfold by assumption. fold d.
  rewrite poll_silent by assumption. reflexivity.
Qed.

Lemma close_silent tmo w :
  let d := clock w / 1000 + tmo in
  live w ->
  silent_until (timeout_clock d (clock w)) (queue w) ->
  close tmo w
  = mkRun (Raised CommandTimedOutException)
          (with_comms (set_clock w (timeout_clock d (clock w))) None)
          [EvPut CLOSE; EvJoin; EvRaise CommandTimedOutException].
Proof.
  intros d Hl Hs. rewrite close_unfold by assumption. fold d.
  rewrite poll_silent by assumption.
  unfold close_after_poll, live in *. cbn.
  destruct (comms (self w)); [reflexivity | congruence].
Qed.

(** ** Polling a worker that replies in time *)

Lemma poll_arrive {A} d (h : ClientReply -> M (option A)) w t r q :
  queue w = (t, r) :: q ->
  wait_clock t (clock w) / 1000 < d ->
  (forall w', outcome_of (h r w') <> Raised QueueEmpty) ->
  exists fuel',
    let w1 := pop_reply (set_clock w (wait_clock t (clock w))) in
    (poll_measure d w1 < fuel')%nat /\
    poll d h w = bind (h r) (poll_next d h fuel') w1.
Proof.
  intros Hq Hw Hne. unfold poll.
  eapply poll_loop_arrive; eauto.
Qed.

(** [connect] when the new worker's first reply arrives in time. *)
Lemma connect_reply w t r q :
  hd [] (workers w) = (t, r) :: q ->
  wait_clock t (clock w) / 1000 < clock w / 1000 + timeout (self w) ->
  connect w
  = let w1 := pop_reply (set_clock (connecting w) (wait_clock t (clock w))) in
    if is_SUCCESS r
    then mkRun (Returned tt) w1 (connect_events w)
    else mkRun (Raised (ConnectError (rdata r))) w1
               (connect_events w ++ [EvRaise (ConnectError (rdata r))]).
Proof.
  intros Hq Hw. rewrite connect_unfold.
  destruct (@poll_arrive unit (clock w / 1000 + timeout (self w))
              connect_on_reply (connecting w) t r q) as [fuel' [_ H]].
  - unfold queue, connecting. cbn. exact Hq.
  - exact Hw.
  - intros. apply connect_on_reply_not_Empty.
  - cbn in H. rewrite H. clear H.
    unfold connect_on_reply, poll_next. unfold_ops.
    destruct (is_SUCCESS r); cbn; reflexivity.
Qed.

(** [close] when the worker's next reply arrives in time. *)
Lemma close_reply tmo w t r q :
  queue w = (t, r) :: q ->
  wait_clock t (clock w) / 1000 < clock w / 1000 + tmo ->
  close tmo w
  = let w1 := pop_reply (set_clock w (wait_clock t (clock w))) in
    if is_SUCCESS r
    then mkRun (Returned tt) (with_comms w1 None) [EvPut CLOSE; EvJoin]
    else mkRun (Raised (ConnectError (rdata r))) w1
               [EvPut CLOSE; EvRaise (ConnectError (rdata r))].
Proof.
  intros Hq Hw.
  assert (Hl : live w).
  { unfold live, queue in *. destruct (comms (self w)); congruence. }
  rewrite close_unfold by assumption.
  destruct (@poll_arrive unit (clock w / 1000 + tmo)
              close_on_reply w t r q) as [fuel' [_ H]]; auto.
  - intros. apply close_on_reply_not_Empty.
  - cbn in H. rewrite H. clear H.
    unfold close_on_reply, poll_next, close_after_poll, queue in *.
    unfold_ops.
    destruct (is_SUCCESS r); concrete_world w; reflexivity.
Qed.

(** ** [send_and_recieve] and the replies it takes off the queue *)

Lemma drain_clock_ge q : forall c, c <= drain_clock q c.
Proof.
  induction q as [| [t r] q IH]; intros c; cbn; [lia |].
  pose proof (wait_clock_ge t c). specialize (IH (wait_clock t c)). lia.
Qed.

Lemma set_queue_pop w c t r q rest :
  queue w = (t, r) :: q ->
  forall c', set_clock (set_queue (pop_reply (set_clock w c)) rest) c'
             = set_clock (set_queue w rest) c'.
Proof.
  unfold queue, set_queue, pop_reply, set_clock, with_comms.
  concrete_world w; reflexivity.
Qed.

Lemma queue_pop w c t r q :
  queue w = (t, r) :: q -> queue (pop_reply (set_clock w c)) = q.
Proof.
  unfold queue, pop_reply, set_clock, with_comms.
  concrete_world w; intros ->; reflexivity.
Qed.

Lemma clock_pop w c : clock (pop_reply (set_clock w c)) = c.
Proof.
  unfold pop_reply, set_clock, with_comms. concrete_world w; reflexivity.
Qed.

Lemma pop_is_set_queue w c t r q :
  queue w = (t, r) :: q ->
  pop_reply (set_clock w c) = set_clock (set_queue w q) c.
Proof.
  unfold queue, set_queue, pop_reply, set_clock, with_comms.
  concrete_world w; intros ->; reflexivity.
Qed.

Lemma send_and_recieve_loop_decides d t r rest data :
  rdata r = Some data ->
  forall skipped fuel w,
  (poll_measure d w < fuel)%nat ->
  queue w = skipped ++ (t, r) :: rest ->
  Forall no_data skipped ->
  drain_clock (skipped ++ [(t, r)]) (clock w) / 1000 < d ->
  poll_loop fuel d send_and_recieve_on_reply w
  = decided r (set_clock (set_queue w rest)
                         (drain_clock (skipped ++ [(t, r)]) (clock w))).
Proof.
  intros Hd. induction skipped as [| [t0 r0] skipped IH];
    intros fuel w Hm Hq Hs Hw; cbn in *.
  - destruct (@poll_loop_arrive _ d send_and_recieve_on_reply fuel w t r rest)
      as [fuel' [_ H]]; auto.
    { intros. apply send_and_recieve_on_reply_not_Empty. }
    cbn in H. rewrite H. clear H.
    erewrite pop_is_set_queue by exact Hq.
    unfold send_and_recieve_on_reply, decided, poll_next. rewrite Hd.
    unfold_ops. destruct (is_SUCCESS r); reflexivity.
  - inversion Hs as [| ? ? Hr0 Hs']; subst. unfold no_data in Hr0. cbn in Hr0.
    assert (Hw0 : wait_clock t0 (clock w) / 1000 < d).
    { pose proof (drain_clock_ge (skipped ++ [(t, r)]) (wait_clock t0 (clock w))).
      zdiv. }
    destruct (@poll_loop_arrive _ d send_and_recieve_on_reply fuel w t0 r0
                (skipped ++ (t, r) :: rest))
      as [fuel' [Hm' H]]; auto.
    { intros. apply send_and_recieve_on_reply_not_Empty. }
    cbn in H, Hm'. rewrite H. clear H.
    unfold send_and_recieve_on_reply at 1. rewrite Hr0.
    unfold bind, ret, poll_next.
    rewrite IH; auto.
    + erewrite set_queue_pop by exact Hq. rewrite clock_pop.
      unfold decided. destruct (is_SUCCESS r); reflexivity.
    + eapply queue_pop; exact Hq.
    + rewrite clock_pop. exact Hw.
Qed.

(** [send_and_recieve] when the first reply that carries data arrives in
    time: that reply decides, the replies without data before it are
    dropped. *)
Lemma send_and_recieve_decides cmdBytes tmo w skipped t r rest data :
  queue w = skipped ++ (t, r) :: rest ->
  Forall no_data skipped ->
  rdata r = Some data ->
  drain_clock (skipped ++ [(t, r)]) (clock w) / 1000 < clock w / 1000 + tmo ->
  send_and_recieve cmdBytes tmo w
  = let w1 := set_clock (set_queue w rest)
                        (drain_clock (skipped ++ [(t, r)]) (clock w)) in
    if is_SUCCESS r
    then mkRun (Returned r) w1 (send_events cmdBytes)
    else mkRun (Raised (ConnectError (Some data))) w1
               (send_events cmdBytes ++ [EvRaise (ConnectError (Some data))]).
Proof.
  intros Hq Hs Hd Hw.
  assert (Hl : live w).
  { unfold live, queue in *. destruct (comms (self w)); [discriminate |].
    destruct skipped; discriminate. }
  rewrite send_and_recieve_unfold by assumption.
  unfold poll.
  rewrite (@send_and_recieve_loop_decides _ t r rest data Hd skipped); auto.
  unfold decided, after_poll. rewrite Hd.
  destruct (is_SUCCESS r); cbn; reflexivity.
Qed.

(** * Commands against a worker whose replies are ready *)

Lemma set_clock_same w : set_clock w (clock w) = w.
Proof. destruct w; reflexivity. Qed.

Lemma set_clock_set_clock w c c' : set_clock (set_clock w c) c' = set_clock w c'.
Proof. reflexivity. Qed.

Lemma set_queue_set_clock w c q :
  set_queue (set_clock w c) q = set_clock (set_queue w q) c.
Proof.
  unfold set_queue, set_clock, with_comms. concrete_world w; reflexivity.
Qed.

Lemma set_queue_set_queue w q q' :
  set_queue (set_queue w q) q' = set_queue w q'.
Proof.
  unfold set_queue, with_comms. concrete_world w; reflexivity.
Qed.

Lemma queue_set_queue w q : live w -> queue (set_queue w q) = q.
Proof.
  unfold live, queue, set_queue, with_comms. concrete_world w; reflexivity.
Qed.

Lemma set_clock_set_queue_same w q :
  set_clock (set_queue w q) (clock w) = set_queue w q.
Proof.
  unfold set_queue, set_clock, with_comms. concrete_world w; reflexivity.
Qed.

Lemma queue_set_clock w c : queue (set_clock w c) = queue w.
Proof. reflexivity. Qed.

Lemma live_set_queue w q : live w -> live (set_queue w q).
Proof.
  unfold live, set_queue, with_comms. concrete_world w; congruence.
Qed.

Lemma queue_live w a q : queue w = a :: q -> live w.
Proof.
  unfold live, queue. destruct (comms (self w)); congruence.
Qed.

Section Answered.

Context {PF : PacketFactory}.

Lemma sendCommand_answered c w t frame rest pc p :
  queue w = answer_at t frame ++ rest ->
  t <= clock w ->
  decode (encoded w c) = Some pc ->
  decode frame = Some p ->
  sendCommand c w = mkRun (Returned p) (set_queue w rest) (exchange w c p).
Proof.
  intros Hq Ht Hc Hp.
  unfold sendCommand, encoded, exchange in *. unfold emit, get_self, get_world, bind, ret.
  cbn. rewrite Hc.
  rewrite (@send_and_recieve_decides _ 5 w [(t, mkReply SUCCESS None)] t
             (mkReply SUCCESS (Some frame)) rest frame); auto.
  - cbn. rewrite !wait_clock_ready by (rewrite ?wait_clock_ready; lia).
    rewrite Hp. cbn. rewrite set_clock_set_queue_same. reflexivity.
  - constructor; [reflexivity | constructor].
  - cbn. rewrite !wait_clock_ready by (rewrite ?wait_clock_ready; lia). lia.
Qed.

End Answered.

(** * Polling the print status against replies that are ready *)

Lemma set_queue_queue w : set_queue w (queue w) = w.
Proof.
  unfold set_queue, queue, with_comms.
  destruct w as [[? ? ? ? ? [[? ?] |]] ? ?]; reflexivity.
Qed.

Section Status.

Context {PF : PacketFactory}.

Lemma encoded_set_clock w c cmd :
  encoded (set_clock w c) cmd = encoded w cmd.
Proof. reflexivity. Qed.

Lemma encoded_set_queue w q cmd :
  encoded (set_queue w q) cmd = encoded w cmd.
Proof.
  unfold encoded, set_queue, with_comms. concrete_world w; reflexivity.
Qed.

Lemma exchange_moved w c q cmd p :
  exchange (set_clock (set_queue w q) c) cmd p = exchange w cmd p.
Proof.
  unfold exchange. rewrite encoded_set_clock, encoded_set_queue. reflexivity.
Qed.

(** As long as the replies are pending the loop sends a command, sleeps a
    second and goes on. *)
Lemma checkPrintStatus_loop_pending t pc rest :
  forall pkts frames n w,
  decode_to frames pkts ->
  Forall pending pkts ->
  queue w = answers_at t frames ++ rest ->
  t <= clock w ->
  decode (encoded w Type195Command) = Some pc ->
  checkPrintStatus_loop (List.length pkts + n) w
  = match checkPrintStatus_loop n
            (set_clock (set_queue w rest) (clock w + 1000 * len pkts)) with
    | mkRun o w2 e2 => mkRun o w2 (status_exchanges w pkts ++ e2)
    end.
Proof.
  induction pkts as [| p pkts IH]; intros frames n w Hd Hp Hq Ht Hc.
  - inversion Hd; subst. cbn in Hq. rewrite <- Hq, set_queue_queue.
    replace (clock w + 1000 * len (@nil Packet)) with (clock w)
      by (unfold len; cbn; lia).
    rewrite set_clock_same. cbn.
    destruct (checkPrintStatus_loop n w) as [o w2 e2]. reflexivity.
  - inversion Hd as [| f p' frames' pkts' Hf Hd']; subst.
    inversion Hp as [| ? ? [v [Hv Hi]] Hp']; subst.
    cbn [List.length Nat.add checkPrintStatus_loop].
    unfold answers_at in Hq. cbn [flat_map] in Hq. rewrite <- app_assoc in Hq.
    unfold sendT195Command, bind.
    rewrite (sendCommand_answered Type195Command w Hq Ht Hc Hf).
    unfold dict_getitem. rewrite Hv. cbn [ret]. rewrite Hi.
    unfold sleep, get_world, put_world, bind, ret.
    assert (Hl : live w) by (eapply queue_live; exact Hq).
    match goal with
    | |- context [checkPrintStatus_loop _ ?w1] =>
        assert (Hw1 : w1 = set_clock (set_queue w (answers_at t frames' ++ rest))
                                     (clock w + 1000))
    end.
    { unfold set_clock, set_queue, with_comms. unfold live in Hl.
      concrete_world w; reflexivity. }
    rewrite Hw1. clear Hw1.
    rewrite (IH frames' n); auto.
    + rewrite set_queue_set_clock, set_queue_set_queue, set_clock_set_clock.
      replace (clock (set_clock (set_queue w (answers_at t frames' ++ rest))
                                (clock w + 1000)) + 1000 * len pkts)
        with (clock w + 1000 * len (p :: pkts))
        by (unfold len; cbn [clock set_clock List.length]; lia).
      destruct (checkPrintStatus_loop n _) as [o w2 e2].
      unfold status_exchanges. cbn [flat_map].
      rewrite (flat_map_ext _ (exchange w Type195Command)
                 (fun p0 => exchange_moved w _ _ Type195Command p0)).
      cbn. reflexivity.
    + cbn. apply queue_set_queue. exact Hl.
    + cbn. lia.
    + rewrite encoded_set_clock, encoded_set_queue. exact Hc.
Qed.

Lemma checkPrintStatus_loop_accepted t pc rest frame p n w :
  queue w = answer_at t frame ++ rest ->
  t <= clock w ->
  decode (encoded w Type195Command) = Some pc ->
  decode frame = Some p ->
  accepted p ->
  checkPrintStatus_loop (S n) w
  = mkRun (Returned true) (set_queue w rest) (exchange w Type195Command p).
Proof.
  intros Hq Ht Hc Hf [v [Hv Hi]].
  cbn [checkPrintStatus_loop]. unfold sendT195Command, bind.
  rewrite (sendCommand_answered Type195Command w Hq Ht Hc Hf).
  unfold dict_getitem. rewrite Hv. cbn [ret]. rewrite Hi.
  unfold ret. rewrite app_nil_r. reflexivity.
Qed.

Lemma commands_of_app a b : commands_of (a ++ b) = commands_of a ++ commands_of b.
Proof. apply flat_map_app. Qed.

Lemma responses_of_app a b :
  responses_of (a ++ b) = responses_of a ++ responses_of b.
Proof. apply flat_map_app. Qed.

Lemma commands_of_status_exchanges w pkts :
  commands_of (status_exchanges w pkts)
  = repeat Type195Command (List.length pkts).
Proof.
  induction pkts as [| p pkts IH]; [reflexivity |].
  unfold status_exchanges in *. cbn [flat_map].
  rewrite commands_of_app, IH. reflexivity.
Qed.

Lemma responses_of_status_exchanges w pkts :
  responses_of (status_exchanges w pkts) = map (pair Type195Command) pkts.
Proof.
  induction pkts as [| p pkts IH]; [reflexivity |].
  unfold status_exchanges in *. cbn [flat_map].
  rewrite responses_of_app, IH. reflexivity.
Qed.

End Status.

(** * Runs in any world *)

Lemma vis_app a b : vis (a ++ b) = vis a ++ vis b.
Proof. apply filter_app. Qed.

Lemma vis_cons ev l :
  vis (ev :: l) = (if visible ev then [ev] else []) ++ vis l.
Proof. unfold vis. cbn. destruct (visible ev); reflexivity. Qed.

Lemma vis_nil : vis [] = [].
Proof. reflexivity. Qed.

(** The polling loop is quiet when its handler is, and it never runs out of
    fuel. *)
Lemma poll_loop_quiet {A} d (h : ClientReply -> M (option A)) :
  (forall r w, quiet (h r w)) ->
  (forall r w, outcome_of (h r w) <> Raised QueueEmpty) ->
  (forall r w, outcome_of (h r w) = Returned None -> world_of (h r w) = w) ->
  forall fuel w, (poll_measure d w < fuel)%nat -> quiet (poll_loop fuel d h w).
Proof.
  intros Hq Hne Hw. induction fuel as [| fuel IH]; intros w Hm; [lia |].
  destruct (Z.lt_ge_cases (clock w / 1000) d) as [Hlt | Hge].
  2: { rewrite poll_loop_expired by lia. reflexivity. }
  destruct (comms (self w)) as [th |] eqn:Hc.
  2: { rewrite poll_loop_dead by assumption. reflexivity. }
  assert (Hl : live w) by (unfold live; congruence).
  destruct (queue w) as [| [t r] q] eqn:Hqu.
  { rewrite poll_loop_sleep; auto.
    - apply IH. pose proof (@poll_measure_sleep d w Hlt). lia.
    - rewrite Hqu. exact I. }
  destruct (Z.le_gt_cases t (clock w)) as [Hle | Hgt].
  2: { rewrite poll_loop_sleep; auto.
       - apply IH. pose proof (@poll_measure_sleep d w Hlt). lia.
       - rewrite Hqu. cbn. lia. }
  rewrite (@poll_loop_ready _ d h fuel w t r q Hlt Hqu Hle (Hne r (pop_reply w))).
  pose proof (Hq r (pop_reply w)) as Hq1.
  pose proof (Hw r (pop_reply w)) as Hw1.
  unfold bind, quiet in *.
  destruct (h r (pop_reply w)) as [o w2 e2]. cbn in *.
  destruct o as [[a |] | e |]; cbn.
  - rewrite app_nil_r. exact Hq1.
  - specialize (Hw1 eq_refl). subst w2.
    assert (Hm' : (poll_measure d (pop_reply w) < fuel)%nat).
    { rewrite (@poll_measure_pop d w t r q Hqu) in Hm. lia. }
    specialize (IH _ Hm').
    destruct (poll_loop fuel d h (pop_reply w)) as [o3 w3 e3]. cbn in *.
    rewrite vis_app, Hq1. exact IH.
  - exact Hq1.
  - exact Hq1.
Qed.

Lemma poll_quiet {A} d (h : ClientReply -> M (option A)) w :
  (forall r w, quiet (h r w)) ->
  (forall r w, outcome_of (h r w) <> Raised QueueEmpty) ->
  (forall r w, outcome_of (h r w) = Returned None -> world_of (h r w) = w) ->
  quiet (poll d h w).
Proof.
  intros. unfold poll. apply poll_loop_quiet; auto.
Qed.

Lemma connect_quiet w : quiet (connect w).
Proof.
  rewrite connect_unfold.
  assert (H : quiet (poll (clock w / 1000 + timeout (self w))
                          connect_on_reply (connecting w))).
  { apply poll_quiet.
    - intros r w'. unfold connect_on_reply, quiet.
      destruct (is_SUCCESS r); reflexivity.
    - apply connect_on_reply_not_Empty.
    - intros r w'. unfold connect_on_reply.
      destruct (is_SUCCESS r); cbn; discriminate. }
  unfold quiet in *.
  destruct (poll _ _ _) as [o w2 e2]. cbn [outcome_of events_of] in H.
  destruct o as [[a |] | e |]; unfold after_poll;
    cbn [outcome_of events_of]; rewrite ?vis_app, ?H;
    first [reflexivity | exact H].
Qed.

Lemma send_and_recieve_quiet cmdBytes tmo w :
  quiet (send_and_recieve cmdBytes tmo w).
Proof.
  destruct (comms (self w)) as [th |] eqn:Hc.
  2: { rewrite send_and_recieve_dead by assumption. reflexivity. }
  rewrite send_and_recieve_unfold by (unfold live; congruence).
  assert (H : quiet (poll (clock w / 1000 + tmo) send_and_recieve_on_reply w)).
  { apply poll_quiet.
    - intros r w'. unfold send_and_recieve_on_reply, quiet.
      destruct (rdata r); [destruct (is_SUCCESS r) |]; reflexivity.
    - apply send_and_recieve_on_reply_not_Empty.
    - intros r w'. unfold send_and_recieve_on_reply.
      destruct (rdata r); [destruct (is_SUCCESS r) |]; cbn;
        first [discriminate | reflexivity]. }
  unfold quiet in *.
  destruct (poll _ _ _) as [o w2 e2]. cbn [outcome_of events_of] in H.
  destruct o as [[a |] | e |]; unfold after_poll;
    cbn [outcome_of events_of]; rewrite ?vis_app, ?H;
    first [reflexivity | exact H].
Qed.

Lemma close_quiet tmo w : quiet (close tmo w).
Proof.
  destruct (comms (self w)) as [th |] eqn:Hc.
  2: { rewrite close_dead by assumption. reflexivity. }
  rewrite close_unfold by (unfold live; congruence).
  assert (H : quiet (poll (clock w / 1000 + tmo) close_on_reply w)).
  { apply poll_quiet.
    - intros r w'. unfold close_on_reply, quiet.
      destruct (is_SUCCESS r); [| reflexivity].
      unfold_ops. concrete_world w'; reflexivity.
    - apply close_on_reply_not_Empty.
    - intros r w'. unfold close_on_reply.
      destruct (is_SUCCESS r); [| cbn; discriminate].
      unfold_ops. concrete_world w'; discriminate. }
  unfold quiet in *.
  destruct (poll _ _ _) as [o w2 e2]. cbn [outcome_of events_of] in H.
  destruct o as [[a |] | e |]; unfold close_after_poll;
    try destruct (comms (self w2));
    cbn [outcome_of events_of];
    change (EvPut CLOSE :: ?l) with ([EvPut CLOSE] ++ l);
    rewrite ?vis_app, ?H; first [reflexivity | exact H].
Qed.

Section AnyWorld.

Context {PF : PacketFactory}.

Lemma sendCommand_shows c w : shows_command c (sendCommand c w).
Proof.
  unfold sendCommand, shows_command.
  unfold raise_. unfold emit, get_self, get_world, throw, bind, ret.
  cbn.
  destruct (decode (encodeCommand c _ _)); [| reflexivity].
  pose proof (send_and_recieve_quiet
                (encodeCommand c (currentTimeMillis (self w)) (pinCode (self w)))
                5 w) as H.
  unfold quiet in H.
  destruct (send_and_recieve _ _ _) as [o w2 e2].
  cbn in H.
  destruct o as [reply | e |]; cbn;
    [| rewrite vis_cons, H; reflexivity | exact H].
  destruct (rdata reply) as [data |]; [destruct (decode data) |]; cbn;
    rewrite vis_cons, ?vis_app, H; reflexivity.
Qed.

End AnyWorld.

(** ** Projections of the events of a sequence of steps *)

Lemma progress_of_app a b : progress_of (a ++ b) = progress_of a ++ progress_of b.
Proof. apply flat_map_app. Qed.

Lemma raises_of_app a b : raises_of (a ++ b) = raises_of a ++ raises_of b.
Proof. apply flat_map_app. Qed.

Lemma segments_of_app a b : segments_of (a ++ b) = segments_of a ++ segments_of b.
Proof.
  unfold segments_of. rewrite commands_of_app. apply flat_map_app.
Qed.

(** A projection that ignores the hidden events reads the same off the
    visible ones. *)
Lemma flat_map_vis {B} (f : Event -> list B) :
  (forall ev, visible ev = false -> f ev = []) ->
  forall evs, flat_map f (vis evs) = flat_map f evs.
Proof.
  intros Hf. induction evs as [| ev evs IH]; [reflexivity |].
  rewrite vis_cons, flat_map_app, IH. cbn [flat_map].
  destruct (visible ev) eqn:Hv; cbn [flat_map app].
  - rewrite app_nil_r. reflexivity.
  - rewrite (Hf ev Hv). reflexivity.
Qed.

Lemma progress_of_vis evs : progress_of (vis evs) = progress_of evs.
Proof. apply flat_map_vis. intros [] H; try reflexivity; discriminate H. Qed.

Lemma raises_of_vis evs : raises_of (vis evs) = raises_of evs.
Proof. apply flat_map_vis. intros [] H; try reflexivity; discriminate H. Qed.

Lemma commands_of_vis evs : commands_of (vis evs) = commands_of evs.
Proof. apply flat_map_vis. intros [] H; try reflexivity; discriminate H. Qed.

Lemma responses_of_vis evs : responses_of (vis evs) = responses_of evs.
Proof. apply flat_map_vis. intros [] H; try reflexivity; discriminate H. Qed.

Lemma segments_of_vis evs : segments_of (vis evs) = segments_of evs.
Proof. unfold segments_of. rewrite commands_of_vis. reflexivity. Qed.

(** ** Binding a value *)

Lemma bind_ret_run {A B} (a : A) (f : A -> M B) w : bind (ret a) f w = f a w.
Proof. unfold bind, ret. destruct (f a w); reflexivity. Qed.

(** ** Exceptions *)

Lemma tidy_bind {A B} (m : M A) (f : A -> M B) :
  always tidy m -> (forall a, always tidy (f a)) -> always tidy (bind m f).
Proof.
  intros Hm Hf w. specialize (Hm w). unfold tidy, bind in *.
  destruct (m w) as [o w1 e1]. cbn [outcome_of events_of] in Hm.
  destruct o as [a | e |]; cbn [outcome_of events_of]; try exact Hm.
  specialize (Hf a w1). destruct (f a w1) as [o2 w2 e2].
  cbn [outcome_of events_of] in *.
  rewrite raises_of_app, Hm. exact Hf.
Qed.

Lemma quiet_tidy {A} (r : Run A) : quiet r -> tidy r.
Proof.
  unfold quiet, tidy. rewrite <- raises_of_vis.
  destruct (outcome_of r); intros H; [| | contradiction]; rewrite H;
    reflexivity.
Qed.

Lemma raise_tidy {A} e : always tidy (@raise_ A e).
Proof. intros w. reflexivity. Qed.

Lemma ret_tidy {A} (a : A) : always tidy (ret a).
Proof. intros w. reflexivity. Qed.

Lemma sleep_tidy ms : always tidy (sleep ms).
Proof. intros w. reflexivity. Qed.

Lemma record_progress_tidy c t s : always tidy (record_progress c t s).
Proof. intros w. reflexivity. Qed.

Lemma dict_getitem_tidy d k : always tidy (dict_getitem d k).
Proof.
  unfold dict_getitem. destruct (dict_get d k); [apply ret_tidy | apply raise_tidy].
Qed.

Lemma py_truediv_tidy a b : always tidy (py_truediv a b).
Proof.
  unfold py_truediv. destruct (b =? 0); [apply raise_tidy | apply ret_tidy].
Qed.

Lemma for_each_tidy {X} (l : list X) body :
  (forall x, always tidy (body x)) -> always tidy (for_each l body).
Proof.
  intros H. induction l as [| x l IH]; cbn [for_each].
  - apply ret_tidy.
  - apply tidy_bind; [apply H | intros _; exact IH].
Qed.

Section Tidy.

Context {PF : PacketFactory}.

Lemma sendCommand_tidy c : always tidy (sendCommand c).
Proof.
  intros w. pose proof (sendCommand_shows c w) as H.
  unfold shows_command, tidy in *. rewrite <- raises_of_vis.
  destruct (outcome_of (sendCommand c w)); [| | contradiction]; rewrite H;
    reflexivity.
Qed.

(** The fuel of the segment loop is enough when every round takes 960 off
    what an image no longer than the fuel has left. *)
Lemma send_image_loop_tidy fuel : forall img toSend sent seg,
  (0 < fuel)%nat -> toSend <= 960 * (Z.of_nat fuel - 1) ->
  always tidy (send_image_loop fuel record_progress img toSend sent seg).
Proof.
  induction fuel as [| fuel IH]; intros img toSend sent seg Hpos Hle;
    [lia |].
  cbn [send_image_loop]. destruct (0 <? toSend) eqn:Hgo.
  - apply Z.ltb_lt in Hgo.
    apply tidy_bind; [apply sendCommand_tidy | intros _].
    apply tidy_bind; [apply py_truediv_tidy | intros q].
    apply tidy_bind; [apply record_progress_tidy | intros _].
    apply IH; lia.
  - apply ret_tidy.
Qed.

Lemma checkPrintStatus_loop_tidy n : always tidy (checkPrintStatus_loop n).
Proof.
  induction n as [| n IH]; cbn [checkPrintStatus_loop].
  - apply ret_tidy.
  - apply tidy_bind; [apply sendCommand_tidy | intros p].
    apply tidy_bind; [apply dict_getitem_tidy | intros rc].
    destruct (py_is_int rc RTN_E_RCV_FRAME); [apply ret_tidy |].
    apply tidy_bind; [apply sleep_tidy | intros _; apply IH].
Qed.

Lemma printPhoto_tidy img : always tidy (printPhoto img record_progress).
Proof.
  unfold printPhoto, checkPrintStatus.
  unfold sendPrePrintCommand, sendLockCommand, sendResetCommand,
    sendPrepImageCommand, sendT83Command, sendLockStateCommand,
    getPrinterVersion, getPrinterModelName.
  repeat
    match goal with
    | |- always _ (sendCommand _) => apply sendCommand_tidy
    | |- always _ (record_progress _ _ _) => apply record_progress_tidy
    | |- always _ (for_each _ _) => apply for_each_tidy; intros ?
    | |- always _ (send_image_loop _ _ _ _ _ _) =>
        apply send_image_loop_tidy; unfold len; lia
    | |- always _ (checkPrintStatus_loop _) =>
        apply checkPrintStatus_loop_tidy
    | |- always _ (if ?b then _ else _) => destruct b
    | |- always _ connect => intros ?w; apply quiet_tidy; apply connect_quiet
    | |- always _ (close _) => intros ?w; apply quiet_tidy; apply close_quiet
    | |- always _ (sleep _) => apply sleep_tidy
    | |- always _ (ret _) => apply ret_tidy
    | |- always _ (bind _ _) => apply tidy_bind; [| intros ? ]
    end.
Qed.

End Tidy.

(** ** What one step of a sequence leaves to the next *)

Lemma bind_Returned {A B} (m : M A) (f : A -> M B) w b :
  outcome_of (bind m f w) = Returned b ->
  exists a,
    outcome_of (m w) = Returned a /\
    outcome_of (f a (world_of (m w))) = Returned b /\
    events_of (bind m f w)
    = events_of (m w) ++ events_of (f a (world_of (m w))).
Proof.
  unfold bind. destruct (m w) as [o w1 e1].
  destruct o as [a | e |]; cbn [outcome_of]; try discriminate.
  destruct (f a w1) as [o2 w2 e2] eqn:Hf. cbn [outcome_of events_of world_of].
  intros ->. exists a. rewrite Hf. repeat split.
Qed.

(** ** The end of a print *)

Lemma status_of_app a b : status_of (a ++ b) = status_of a ++ status_of b.
Proof. unfold status_of. rewrite responses_of_app. apply flat_map_app. Qed.

Lemma status_of_vis evs : status_of (vis evs) = status_of evs.
Proof. unfold status_of. rewrite responses_of_vis. reflexivity. Qed.




Lemma silent_no_status {A} (m : M A) :
  (forall w, events_of (m w) = []) -> always no_status m.
Proof. intros H w. unfold no_status. rewrite H. reflexivity. Qed.


Section Ending.

Context {PF : PacketFactory}.





Lemma checkPrintStatus_loop_polled n :
  always (polled n) (checkPrintStatus_loop n).
Proof.
  induction n as [| n IH]; intros w; cbn [checkPrintStatus_loop].
  - cbn. split; [reflexivity |]. split; [constructor | reflexivity].
  - unfold polled.
    destruct (outcome_of (bind _ _ w)) as [b | e |] eqn:Hout; [| exact I..].
    apply bind_Returned in Hout. destruct Hout as [p [Hp [Hout Hev]]].
    rewrite Hev. clear Hev.
    pose proof (sendCommand_shows Type195Command w) as Hs.
    unfold shows_command, sendT195Command in *. rewrite Hp in Hs.
    set (w1 := world_of (sendCommand Type195Command w)) in *.
    assert (Hst : status_of (events_of (sendCommand Type195Command w)) = [p])
      by (rewrite <- status_of_vis, Hs; reflexivity).
    assert (Hpr : progress_of (events_of (sendCommand Type195Command w)) = [])
      by (rewrite <- progress_of_vis, Hs; reflexivity).
    rewrite progress_of_app, status_of_app, Hst, Hpr. cbn [app].
    unfold dict_getitem in *.
    destruct (dict_get (header p) "returnCode") as [rc |] eqn:Hrc;
      [| discriminate Hout].
    rewrite bind_ret_run in *.
    destruct (py_is_int rc RTN_E_RCV_FRAME) eqn:His.
    + cbn in Hout. injection Hout as <-. cbn [ret events_of].
      split; [reflexivity |]. exists [], p.
      split; [reflexivity | split; [constructor |]].
      exists rc. split; assumption.
    + assert (Hp' : pending p) by (exists rc; split; assumption).
      apply bind_Returned in Hout. destruct Hout as [u [_ [Hout Hev]]].
      rewrite Hev. change (events_of (sleep 1000 w1)) with (@nil Event).
      cbn [app].
      specialize (IH (world_of (sleep 1000 w1))). unfold polled in IH.
      rewrite Hout in IH. destruct IH as [IHp IHs].
      split; [exact IHp |].
      destruct b.
      * destruct IHs as [st' [p' [-> [Hall Hacc]]]].
        exists (p :: st'), p'. split; [reflexivity |].
        split; [constructor; assumption | exact Hacc].
      * destruct IHs as [Hall Hlen]. split; [constructor; assumption |].
        cbn [List.length]. rewrite Hlen. reflexivity.
Qed.







End Ending.

(** ** The segments of an image *)

(** Division on [nat] for [lia]. *)
From Stdlib Require Import ZifyNat.

Lemma sends_bind {A B} (m : M A) (f : A -> M B) s1 s2 :
  always (sends s1) m -> (forall a, always (sends s2) (f a)) ->
  always (sends (s1 ++ s2)) (bind m f).
Proof.
  intros Hm Hf w. specialize (Hm w). unfold sends, bind in *.
  destruct (m w) as [o w1 e1]. cbn [outcome_of events_of] in Hm.
  destruct o as [a | e |]; cbn [outcome_of events_of].
  - specialize (Hf a w1). destruct (f a w1) as [o2 w2 e2].
    cbn [outcome_of events_of] in *. rewrite segments_of_app, Hm.
    destruct o2 as [b | e |].
    + rewrite Hf. reflexivity.
    + destruct Hf as [rest ->]. exists rest. rewrite app_assoc. reflexivity.
    + destruct Hf as [rest ->]. exists rest. rewrite app_assoc. reflexivity.
  - destruct Hm as [rest ->]. exists (rest ++ s2).
    rewrite app_assoc. reflexivity.
  - destruct Hm as [rest ->]. exists (rest ++ s2).
    rewrite app_assoc. reflexivity.
Qed.

Lemma quiet_sends {A} (r : Run A) : quiet r -> sends [] r.
Proof.
  unfold quiet, sends. rewrite <- segments_of_vis.
  destruct (outcome_of r); intros H; [| | contradiction]; rewrite H;
    [reflexivity | exists []; reflexivity].
Qed.

Lemma silent_sends {A} (m : M A) :
  (forall w, segments_of (events_of (m w)) = []) -> always (sends []) m.
Proof.
  intros H w. unfold sends. rewrite H.
  destruct (outcome_of (m w)); [reflexivity | exists []; reflexivity..].
Qed.

Lemma for_each_sends {X} (l : list X) body :
  (forall x, always (sends []) (body x)) -> always (sends []) (for_each l body).
Proof.
  intros H. induction l as [| x l IH]; cbn [for_each].
  - apply silent_sends. reflexivity.
  - apply (@sends_bind _ _ (body x) (fun _ => for_each l body) [] []);
      [apply H | intros _; exact IH].
Qed.

Section Sends.

Context {PF : PacketFactory}.

Lemma sendCommand_sends c : always (sends (command_segments c)) (sendCommand c).
Proof.
  intros w. pose proof (sendCommand_shows c w) as H.
  unfold shows_command, sends in *. rewrite <- segments_of_vis.
  destruct (outcome_of (sendCommand c w)); [| | contradiction]; rewrite H.
  - destruct c; reflexivity.
  - exists []. destruct c; reflexivity.
Qed.

Lemma send_image_loop_sends fuel : forall img toSend sent seg,
  always (sends (loop_segments fuel img toSend sent seg))
         (send_image_loop fuel record_progress img toSend sent seg).
Proof.
  induction fuel as [| fuel IH]; intros img toSend sent seg;
    cbn [send_image_loop loop_segments].
  - intros w. exists []. reflexivity.
  - destruct (0 <? toSend); [| apply silent_sends; reflexivity].
    apply (@sends_bind _ _ _ _ [(seg, segment_bytes img toSend sent)]);
      [apply (sendCommand_sends (SendImageCommand seg _)) | intros _].
    apply (@sends_bind _ _ _ _ []).
    + unfold py_truediv. destruct (_ =? 0); apply silent_sends; reflexivity.
    + intros q. apply (@sends_bind _ _ _ _ []);
        [apply silent_sends; reflexivity | intros _; apply IH].
Qed.

Lemma checkPrintStatus_loop_sends n :
  always (sends []) (checkPrintStatus_loop n).
Proof.
  induction n as [| n IH]; cbn [checkPrintStatus_loop].
  - apply silent_sends. reflexivity.
  - apply (@sends_bind _ _ _ _ [] []);
      [apply (sendCommand_sends Type195Command) | intros p].
    apply (@sends_bind _ _ _ _ [] []).
    + unfold dict_getitem. destruct (dict_get _ _); apply silent_sends;
        reflexivity.
    + intros rc. destruct (py_is_int rc RTN_E_RCV_FRAME);
        [apply silent_sends; reflexivity |].
      apply (@sends_bind _ _ _ _ [] []);
        [apply silent_sends; reflexivity | intros _; apply IH].
Qed.

Lemma printPhoto_sends_loop img :
  always (sends (loop_segments (S (List.length img)) img (len img) 0 0))
         (printPhoto img record_progress).
Proof.
  eassert (H : always (sends _) (printPhoto img record_progress)).
  { unfold printPhoto, checkPrintStatus.
    unfold sendPrePrintCommand, sendLockCommand, sendResetCommand,
      sendPrepImageCommand, sendT83Command, sendLockStateCommand,
      getPrinterVersion, getPrinterModelName.
    repeat
      match goal with
      | |- always _ (sendCommand ?c) => apply (sendCommand_sends c)
      | |- always _ (record_progress _ _ _) => apply silent_sends; reflexivity
      | |- always _ (for_each _ _) => apply for_each_sends; intros ?
      | |- always _ (send_image_loop _ _ _ _ _ _) =>
          apply send_image_loop_sends
      | |- always _ (checkPrintStatus_loop _) =>
          apply checkPrintStatus_loop_sends
      | |- always _ (if ?b then _ else _) => destruct b
      | |- always _ connect =>
          intros ?w; apply quiet_sends; apply connect_quiet
      | |- always _ (close _) =>
          intros ?w; apply quiet_sends; apply close_quiet
      | |- always _ (sleep _) => apply silent_sends; reflexivity
      | |- always _ (ret _) => apply silent_sends; reflexivity
      | |- always (sends []) (bind _ _) =>
          apply (@sends_bind _ _ _ _ [] []); [| intros ? ]
      | |- always _ (bind _ _) => eapply sends_bind; [| intros ? ]
      end. }
  cbn [app command_segments] in H. rewrite app_nil_r in H. exact H.
Qed.

End Sends.

(** ** The segments against the image *)

Ltac ndiv := zify; Z.div_mod_to_equations; lia.

Lemma segment_bytes_nth img k :
  (960 * k < List.length img)%nat ->
  segment_bytes img (len img - 960 * Z.of_nat k) (960 * Z.of_nat k)
  = nth_segment img k.
Proof.
  intros Hk. unfold segment_bytes, nth_segment, pad, py_slice, bytearray, len.
  replace (Z.to_nat (960 * Z.of_nat k)) with (960 * k)%nat by lia.
  set (rest := skipn (960 * k) img).
  assert (Hrest : List.length rest = (List.length img - 960 * k)%nat)
    by (unfold rest; apply length_skipn).
  destruct (960 <=? Z.of_nat (List.length img) - 960 * Z.of_nat k) eqn:Hfull.
  - apply Z.leb_le in Hfull.
    replace (Z.to_nat (960 * Z.of_nat k + 960 - 960 * Z.of_nat k))
      with 960%nat by lia.
    rewrite length_firstn.
    replace (960 - Nat.min 960 (List.length rest))%nat with 0%nat by lia.
    cbn [repeat]. rewrite app_nil_r. reflexivity.
  - apply Z.leb_gt in Hfull.
    replace (Z.to_nat (960 * Z.of_nat k
                       + (Z.of_nat (List.length img) - 960 * Z.of_nat k)
                       - 960 * Z.of_nat k))
      with (List.length rest) by lia.
    rewrite firstn_all.
    rewrite (firstn_all2 (n := 960) rest) by lia.
    replace (Z.to_nat (960 - (Z.of_nat (List.length img) - 960 * Z.of_nat k)))
      with (960 - List.length rest)%nat by lia.
    reflexivity.
Qed.

Lemma loop_segments_from fuel : forall img k,
  (segment_count (List.length img) - k < fuel)%nat ->
  loop_segments fuel img (len img - 960 * Z.of_nat k) (960 * Z.of_nat k)
                (Z.of_nat k)
  = map (fun i => (Z.of_nat i, nth_segment img i))
        (seq k (segment_count (List.length img) - k)).
Proof.
  induction fuel as [| fuel IH]; intros img k Hfuel; [lia |].
  cbn [loop_segments]. unfold len.
  destruct (0 <? Z.of_nat (List.length img) - 960 * Z.of_nat k) eqn:Hgo.
  - apply Z.ltb_lt in Hgo.
    assert (Hk : (960 * k < List.length img)%nat) by lia.
    assert (Hn : (segment_count (List.length img) - k
                  = S (segment_count (List.length img) - S k))%nat)
      by (unfold segment_count; ndiv).
    rewrite Hn. cbn [seq map]. f_equal.
    + f_equal. apply (@segment_bytes_nth img k Hk).
    + replace (Z.of_nat (List.length img) - 960 * Z.of_nat k - 960)
        with (len img - 960 * Z.of_nat (S k)) by (unfold len; lia).
      replace (960 * Z.of_nat k + 960) with (960 * Z.of_nat (S k)) by lia.
      replace (Z.of_nat k + 1) with (Z.of_nat (S k)) by lia.
      apply IH. lia.
  - apply Z.ltb_ge in Hgo.
    replace (segment_count (List.length img) - k)%nat with 0%nat
      by (unfold segment_count; ndiv).
    reflexivity.
Qed.

(** The loop of [printPhoto] sends the segments of the image. *)
Lemma loop_segments_image img :
  loop_segments (S (List.length img)) img (len img) 0 0 = image_segments img.
Proof.
  pose proof (@loop_segments_from (S (List.length img)) img 0) as H.
  replace (len img - 960 * Z.of_nat 0) with (len img) in H by lia.
  change (960 * Z.of_nat 0) with 0 in H. change (Z.of_nat 0) with 0 in H.
  rewrite H; [| unfold segment_count; ndiv].
  unfold image_segments. rewrite Nat.sub_0_r. reflexivity.
Qed.

Lemma nth_error_map_seq {B} (f : nat -> B) n : forall a i,
  nth_error (map f (seq a n)) i
  = if (i <? n)%nat then Some (f (a + i)%nat) else None.
Proof.
  induction n as [| n IH]; intros a i.
  - destruct i; reflexivity.
  - destruct i as [| i]; cbn [seq map nth_error].
    + rewrite Nat.add_0_r. reflexivity.
    + rewrite IH. change (S i <? S n)%nat with (i <? n)%nat.
      replace (S a + i)%nat with (a + S i)%nat by lia. reflexivity.
Qed.

Lemma image_segments_length img :
  List.length (image_segments img) = segment_count (List.length img).
Proof. unfold image_segments. rewrite length_map, length_seq. reflexivity. Qed.

Lemma image_segments_nth img i s :
  nth_error (image_segments img) i = Some s ->
  s = (Z.of_nat i, nth_segment img i).
Proof.
  unfold image_segments. rewrite nth_error_map_seq.
  destruct (i <? _)%nat; [| discriminate]. intros H. injection H as <-.
  reflexivity.
Qed.

Lemma nth_segment_length img i : List.length (nth_segment img i) = 960%nat.
Proof.
  unfold nth_segment, pad. rewrite length_app, repeat_length, length_firstn.
  lia.
Qed.

Lemma nth_segment_full img i :
  (960 * S i <= List.length img)%nat ->
  nth_segment img i = firstn 960 (skipn (960 * i) img).
Proof.
  intros H. unfold nth_segment, pad. rewrite length_firstn, length_skipn.
  replace (960 - Nat.min 960 (List.length img - 960 * i))%nat with 0%nat
    by lia.
  cbn [repeat]. apply app_nil_r.
Qed.

Lemma segments_concat img : forall n k,
  n = segment_count (List.length img - 960 * k) ->
  firstn (List.length img - 960 * k)
         (List.concat (map (nth_segment img) (seq k n)))
  = skipn (960 * k) img.
Proof.
  induction n as [| n IH]; intros k Hn.
  - assert (Hk : (List.length img - 960 * k = 0)%nat)
      by (unfold segment_count in Hn; ndiv).
    rewrite Hk. rewrite skipn_all2 by lia. reflexivity.
  - cbn [seq map List.concat].
    set (rest := skipn (960 * k) img).
    assert (Hrest : List.length rest = (List.length img - 960 * k)%nat)
      by (unfold rest; apply length_skipn).
    destruct (Nat.le_gt_cases (List.length rest) 960) as [Hshort | Hlong].
    + unfold nth_segment, pad. fold rest.
      rewrite (firstn_all2 (n := 960) rest) by lia.
      rewrite <- Hrest, <- app_assoc.
      rewrite firstn_app, Nat.sub_diag, firstn_all. cbn [firstn].
      apply app_nil_r.
    + rewrite nth_segment_full by lia. fold rest.
      rewrite firstn_app.
      rewrite (firstn_all2 (n := (List.length img - 960 * k)%nat)
                 (firstn 960 rest))
        by (rewrite length_firstn; lia).
      rewrite length_firstn.
      replace (List.length img - 960 * k - Nat.min 960 (List.length rest))%nat
        with (List.length img - 960 * S k)%nat by lia.
      rewrite IH by (unfold segment_count in *; ndiv).
      replace (960 * S k)%nat with (960 + 960 * k)%nat by lia.
      rewrite <- skipn_skipn. fold rest. apply firstn_skipn.
Qed.

(** The segments of an image, one after the other and cut at its length,
    are the image. *)
Lemma image_segments_concat img :
  firstn (List.length img) (List.concat (map snd (image_segments img))) = img.
Proof.
  unfold image_segments. rewrite map_map. cbn [snd].
  pose proof (@segments_concat img (segment_count (List.length img)) 0) as H.
  rewrite Nat.mul_0_r, Nat.sub_0_r in H. apply H. reflexivity.
Qed.

(** * Replies that come late, and commands in any state *)

Lemma wait_clock_lt t c : wait_clock t c < Z.max t c + 100.
Proof.
  unfold wait_clock. destruct (Z.leb_spec t c); [lia | zdiv].
Qed.

Section Decides.

Context {PF : PacketFactory}.

(** [sendCommand] returns the decoded data of the first reply that has
    any. *)
Lemma sendCommand_decides c w skipped t frame rest pc p :
  queue w = skipped ++ (t, mkReply SUCCESS (Some frame)) :: rest ->
  Forall no_data skipped ->
  drain_clock (skipped ++ [(t, mkReply SUCCESS (Some frame))]) (clock w) / 1000
  < clock w / 1000 + 5 ->
  decode (encoded w c) = Some pc ->
  decode frame = Some p ->
  sendCommand c w
  = mkRun (Returned p)
          (set_clock (set_queue w rest)
             (drain_clock (skipped ++ [(t, mkReply SUCCESS (Some frame))])
                          (clock w)))
          (exchange w c p).
Proof.
  intros Hq Hs Ht Hc Hp.
  unfold sendCommand, encoded, exchange in *.
  unfold emit, get_self, get_world, bind, ret.
  cbn. rewrite Hc.
  rewrite (@send_and_recieve_decides _ 5 w skipped t
             (mkReply SUCCESS (Some frame)) rest frame Hq Hs eq_refl Ht).
  cbn. rewrite Hp. reflexivity.
Qed.

(** Without a reply in five seconds [sendCommand] gives up. *)
Lemma sendCommand_silent c w pc :
  let d := clock w / 1000 + 5 in
  live w ->
  decode (encoded w c) = Some pc ->
  silent_until (timeout_clock d (clock w)) (queue w) ->
  sendCommand c w
  = mkRun (Raised CommandTimedOutException)
          (set_clock w (timeout_clock d (clock w)))
          (EvCommand c :: send_events (encoded w c)
             ++ [EvRaise CommandTimedOutException]).
Proof.
  intros d Hl Hc Hs.
  unfold sendCommand, encoded in *.
  unfold emit, get_self, get_world, bind, ret.
  cbn. rewrite Hc.
  rewrite (@send_and_recieve_silent _ 5 w Hl Hs). reflexivity.
Qed.

(** With no thread in [self.comms] a command fails on the first use of the
    attribute, before anything is queued. *)
Lemma sendCommand_dead c w pc :
  comms (self w) = None ->
  decode (encoded w c) = Some pc ->
  sendCommand c w
  = mkRun (Raised AttributeError) w [EvCommand c; EvRaise AttributeError].
Proof.
  intros Hd Hc.
  unfold sendCommand, encoded in *.
  unfold emit, get_self, get_world, bind, ret.
  cbn. rewrite Hc. rewrite send_and_recieve_dead by exact Hd. reflexivity.
Qed.

End Decides.

(** A loop whose deadline has passed when it is entered does not look at
    the queue. *)
Lemma poll_expired {A} d (h : ClientReply -> M (option A)) w :
  d <= clock w / 1000 -> poll d h w = mkRun (Returned None) w [].
Proof. intros H. unfold poll. apply poll_loop_expired. exact H. Qed.

Lemma send_and_recieve_expired cmdBytes tmo w :
  live w -> tmo <= 0 ->
  send_and_recieve cmdBytes tmo w
  = mkRun (Raised CommandTimedOutException) w
          (send_events cmdBytes ++ [EvRaise CommandTimedOutException]).
Proof.
  intros Hl Ht. rewrite send_and_recieve_unfold by exact Hl.
  rewrite poll_expired by lia. reflexivity.
Qed.

Lemma close_expired tmo w :
  live w -> tmo <= 0 ->
  close tmo w
  = mkRun (Raised CommandTimedOutException) (with_comms w None)
          [EvPut CLOSE; EvJoin; EvRaise CommandTimedOutException].
Proof.
  intros Hl Ht. rewrite close_unfold by exact Hl.
  rewrite poll_expired by lia. unfold close_after_poll.
  unfold live in Hl. destruct (comms (self w)); [reflexivity | congruence].
Qed.

(** * What a run was to show *)

(** The run of a sequence, by the outcome of its first step. *)
Lemma bind_run {A B} (m : M A) (k : A -> M B) w :
  match outcome_of (m w) with
  | Returned a =>
      outcome_of (bind m k w) = outcome_of (k a (world_of (m w))) /\
      events_of (bind m k w)
      = events_of (m w) ++ events_of (k a (world_of (m w))) /\
      world_of (bind m k w) = world_of (k a (world_of (m w)))
  | Raised e =>
      outcome_of (bind m k w) = Raised e /\
      events_of (bind m k w) = events_of (m w) /\
      world_of (bind m k w) = world_of (m w)
  | OutOfFuel =>
      outcome_of (bind m k w) = OutOfFuel /\
      events_of (bind m k w) = events_of (m w) /\
      world_of (bind m k w) = world_of (m w)
  end.
Proof.
  unfold bind. destruct (m w) as [o w1 e1].
  destruct o as [a | e |]; cbn [outcome_of events_of world_of];
    [destruct (k a w1) as [o2 w2 e2] |..]; repeat split.
Qed.

Lemma emits_bind {A B C} (f : Event -> list C) (m : M A) (k : A -> M B)
    l1 l2 :
  always (emits f l1) m -> (forall a, always (emits f l2) (k a)) ->
  always (emits f (l1 ++ l2)) (bind m k).
Proof.
  intros Hm Hk w. specialize (Hm w). unfold emits, bind in *.
  destruct (m w) as [o w1 e1]. cbn [outcome_of events_of] in Hm.
  destruct o as [a | e |]; cbn [outcome_of events_of].
  - specialize (Hk a w1). destruct (k a w1) as [o2 w2 e2].
    cbn [outcome_of events_of] in *. rewrite flat_map_app, Hm.
    destruct o2 as [b | e |].
    + rewrite Hk. reflexivity.
    + destruct Hk as [rest ->]. exists rest. rewrite app_assoc. reflexivity.
    + destruct Hk as [rest ->]. exists rest. rewrite app_assoc. reflexivity.
  - destruct Hm as [rest ->]. exists (rest ++ l2).
    rewrite app_assoc. reflexivity.
  - destruct Hm as [rest ->]. exists (rest ++ l2).
    rewrite app_assoc. reflexivity.
Qed.

Lemma emits_then_bind {A B C} (f : Event -> list C) (m : M A) (k : A -> M B)
    l1 pre (P : list C -> Prop) :
  (exists t, P t) ->
  always (emits f l1) m -> (forall a, always (emits_then f pre P) (k a)) ->
  always (emits_then f (l1 ++ pre) P) (bind m k).
Proof.
  intros [t0 Ht0] Hm Hk w. specialize (Hm w).
  unfold emits, emits_then, bind in *.
  destruct (m w) as [o w1 e1]. cbn [outcome_of events_of] in Hm.
  destruct o as [a | e |]; cbn [outcome_of events_of].
  - specialize (Hk a w1). destruct (k a w1) as [o2 w2 e2].
    cbn [outcome_of events_of] in *. rewrite flat_map_app, Hm.
    destruct o2 as [b | e |].
    + destruct Hk as [t [Ht ->]]. exists t.
      split; [exact Ht | rewrite app_assoc; reflexivity].
    + destruct Hk as [t [rest [Ht Heq]]]. exists t, rest.
      split; [exact Ht | rewrite <- !app_assoc, Heq; reflexivity].
    + destruct Hk as [t [rest [Ht Heq]]]. exists t, rest.
      split; [exact Ht | rewrite <- !app_assoc, Heq; reflexivity].
  - destruct Hm as [rest ->]. exists t0, (rest ++ pre ++ t0).
    split; [exact Ht0 | rewrite <- !app_assoc; reflexivity].
  - destruct Hm as [rest ->]. exists t0, (rest ++ pre ++ t0).
    split; [exact Ht0 | rewrite <- !app_assoc; reflexivity].
Qed.

(** A step that shows [l1], then one that shows one of [P]. *)
Lemma emits_then_last {A B C} (f : Event -> list C) (m : M A) (k : A -> M B)
    l1 (P : list C -> Prop) :
  (exists t, P t) ->
  always (emits f l1) m ->
  (forall a, exists t, P t /\ always (emits f t) (k a)) ->
  always (emits_then f l1 P) (bind m k).
Proof.
  intros [t0 Ht0] Hm Hk w. specialize (Hm w).
  unfold emits, emits_then, bind in *.
  destruct (m w) as [o w1 e1]. cbn [outcome_of events_of] in Hm.
  destruct o as [a | e |]; cbn [outcome_of events_of].
  - destruct (Hk a) as [t [Ht Hka]]. specialize (Hka w1). unfold emits in Hka.
    destruct (k a w1) as [o2 w2 e2].
    cbn [outcome_of events_of] in *. rewrite flat_map_app, Hm.
    destruct o2 as [b | e |].
    + exists t. split; [exact Ht | rewrite Hka; reflexivity].
    + destruct Hka as [rest Heq]. exists t, rest.
      split; [exact Ht | rewrite Heq, app_assoc; reflexivity].
    + destruct Hka as [rest Heq]. exists t, rest.
      split; [exact Ht | rewrite Heq, app_assoc; reflexivity].
  - destruct Hm as [rest ->]. exists t0, (rest ++ t0).
    split; [exact Ht0 | rewrite <- !app_assoc; reflexivity].
  - destruct Hm as [rest ->]. exists t0, (rest ++ t0).
    split; [exact Ht0 | rewrite <- !app_assoc; reflexivity].
Qed.

Lemma quiet_emits {A B} (f : Event -> list B) (r : Run A) :
  blind f -> quiet r -> emits f [] r.
Proof.
  intros [Hh [Hr _]]. unfold quiet, emits.
  rewrite <- (flat_map_vis f Hh).
  destruct (outcome_of r); intros H; [| | contradiction]; rewrite H.
  - reflexivity.
  - exists []. cbn [flat_map]. rewrite Hr. reflexivity.
Qed.

Lemma silent_emits {A B} (f : Event -> list B) (m : M A) :
  (forall w, events_of (m w) = []) -> always (emits f []) m.
Proof.
  intros H w. unfold emits. rewrite H.
  destruct (outcome_of (m w)); [reflexivity | exists []; reflexivity..].
Qed.

Lemma raise_emits {A B} (f : Event -> list B) e :
  blind f -> always (emits f []) (@raise_ A e).
Proof.
  intros [_ [Hr _]] w. unfold emits. cbn. rewrite Hr. exists []. reflexivity.
Qed.

Lemma emit_emits {B} (f : Event -> list B) ev : always (emits f (f ev)) (emit ev).
Proof. intros w. unfold emits. cbn. apply app_nil_r. Qed.

Lemma dict_getitem_emits {B} (f : Event -> list B) d key :
  blind f -> always (emits f []) (dict_getitem d key).
Proof.
  intros Hf. unfold dict_getitem. destruct (dict_get d key).
  - apply silent_emits. reflexivity.
  - apply raise_emits. exact Hf.
Qed.

Lemma getitem_emits {B} (f : Event -> list B) v key :
  blind f -> always (emits f []) (getitem v key).
Proof.
  intros Hf. unfold getitem.
  destruct v; try (apply raise_emits; exact Hf).
  apply dict_getitem_emits. exact Hf.
Qed.

Lemma for_each_emits {X B} (f : Event -> list B) (g : X -> list B)
    (l : list X) body :
  (forall x, always (emits f (g x)) (body x)) ->
  always (emits f (flat_map g l)) (for_each l body).
Proof.
  intros H. induction l as [| x l IH]; cbn [for_each flat_map].
  - apply silent_emits. reflexivity.
  - apply emits_bind; [apply H | intros _; exact IH].
Qed.

Lemma command_blind : blind command_of.
Proof.
  split; [| split]; [intros [] H; try reflexivity; discriminate H | ..];
    reflexivity.
Qed.

Lemma report_blind : blind report_of.
Proof.
  split; [| split]; [intros [] H; try reflexivity; discriminate H | ..];
    reflexivity.
Qed.

Section Course.

Context {PF : PacketFactory}.

Lemma sendCommand_emits {B} (f : Event -> list B) c :
  blind f -> always (emits f (f (EvCommand c))) (sendCommand c).
Proof.
  intros [Hh [Hr Hp]] w. pose proof (sendCommand_shows c w) as H.
  unfold shows_command, emits in *. rewrite <- (flat_map_vis f Hh).
  destruct (outcome_of (sendCommand c w)); [| | contradiction]; rewrite H;
    cbn [flat_map].
  - rewrite Hp. apply app_nil_r.
  - exists []. rewrite Hr. cbn [app]. rewrite !app_nil_r. reflexivity.
Qed.

(** The commands of the segment loop. *)
Lemma send_image_loop_commands fuel : forall img toSend sent seg,
  always (emits command_of
            (map (fun s => SendImageCommand (fst s) (snd s))
                 (loop_segments fuel img toSend sent seg)))
         (send_image_loop fuel record_progress img toSend sent seg).
Proof.
  induction fuel as [| fuel IH]; intros img toSend sent seg;
    cbn [send_image_loop loop_segments].
  - intros w. exists []. reflexivity.
  - destruct (0 <? toSend); [| apply silent_emits; reflexivity].
    cbn [map fst snd].
    apply (@emits_bind _ _ _ command_of _ _
             [SendImageCommand seg (segment_bytes img toSend sent)]);
      [apply (sendCommand_emits (SendImageCommand seg _) command_blind)
      | intros _].
    apply (@emits_bind _ _ _ command_of _ _ []).
    + unfold py_truediv. destruct (_ =? 0);
        [apply raise_emits; exact command_blind
        | apply silent_emits; reflexivity].
    + intros q. apply (@emits_bind _ _ _ command_of _ _ []);
        [apply (emit_emits command_of (EvProgress _ _ _)) | intros _].
      apply IH.
Qed.

(** The reports of the segment loop, from segment [k] on. *)
Lemma send_image_loop_reports fuel : forall img k,
  (segment_count (List.length img) - k < fuel)%nat ->
  always (emits report_of
            (map (segment_report (len img))
                 (seq (S k) (segment_count (List.length img) - k))))
         (send_image_loop fuel record_progress img
            (len img - 960 * Z.of_nat k) (960 * Z.of_nat k) (Z.of_nat k)).
Proof.
  induction fuel as [| fuel IH]; intros img k Hfuel; [lia |].
  cbn [send_image_loop]. unfold len.
  destruct (0 <? Z.of_nat (List.length img) - 960 * Z.of_nat k) eqn:Hgo.
  - apply Z.ltb_lt in Hgo.
    assert (Hn : (segment_count (List.length img) - k
                  = S (segment_count (List.length img) - S k))%nat)
      by (unfold segment_count; ndiv).
    rewrite Hn. cbn [seq map].
    apply (@emits_bind _ _ _ report_of _ _ []);
      [apply (sendCommand_emits (SendImageCommand _ _) report_blind)
      | intros _].
    unfold py_truediv.
    destruct (Z.of_nat (List.length img) =? 0) eqn:Hz;
      [apply Z.eqb_eq in Hz; lia |].
    intros w. rewrite bind_ret_run. revert w.
    replace (960 * Z.of_nat k + 960) with (960 * Z.of_nat (S k)) by lia.
    replace (Z.of_nat k + 1) with (Z.of_nat (S k)) by lia.
    replace (Z.of_nat (List.length img) - 960 * Z.of_nat k - 960)
      with (len img - 960 * Z.of_nat (S k)) by (unfold len; lia).
    apply (@emits_bind _ _ _ report_of _ _
             [segment_report (len img) (S k)]).
    + apply (emit_emits report_of (EvProgress _ _ _)).
    + intros _. apply IH. lia.
  - apply Z.ltb_ge in Hgo.
    replace (segment_count (List.length img) - k)%nat with 0%nat
      by (unfold segment_count; ndiv).
    apply silent_emits. reflexivity.
Qed.

Lemma checkPrintStatus_loop_no_reports n :
  always (emits report_of []) (checkPrintStatus_loop n).
Proof.
  induction n as [| n IH]; cbn [checkPrintStatus_loop].
  - apply silent_emits. reflexivity.
  - apply (@emits_bind _ _ _ report_of _ _ [] []);
      [apply (sendCommand_emits Type195Command report_blind) | intros p].
    apply (@emits_bind _ _ _ report_of _ _ [] []);
      [apply dict_getitem_emits; exact report_blind | intros rc].
    destruct (py_is_int rc RTN_E_RCV_FRAME);
      [apply silent_emits; reflexivity |].
    apply (@emits_bind _ _ _ report_of _ _ [] []);
      [apply silent_emits; reflexivity | intros _; apply IH].
Qed.

(** The commands of the status poll: as many Type 195 commands as it made
    attempts. *)
Lemma checkPrintStatus_loop_commands n : forall w,
  exists k,
    (k <= n)%nat /\
    commands_of (events_of (checkPrintStatus_loop n w))
    = repeat Type195Command k /\
    ((1 <= n)%nat -> (1 <= k)%nat).
Proof.
  induction n as [| n IH]; intros w; cbn [checkPrintStatus_loop].
  - exists 0%nat. split; [lia |]. split; [reflexivity | lia].
  - match goal with |- context [bind ?m ?k w] =>
      pose proof (bind_run m k w) as Hb end.
    pose proof (sendCommand_shows Type195Command w) as Hs.
    unfold shows_command, sendT195Command in *.
    destruct (outcome_of (sendCommand Type195Command w)) as [p | e |] eqn:Ho;
      [| | contradiction].
    + destruct Hb as [_ [Hev _]]. rewrite Hev. clear Hev.
      rewrite commands_of_app, <- (commands_of_vis (events_of (sendCommand _ _))), Hs.
      change (commands_of [EvCommand Type195Command; EvResponse Type195Command p])
        with [Type195Command].
      set (w1 := world_of (sendCommand Type195Command w)).
      unfold dict_getitem.
      destruct (dict_get (header p) "returnCode") as [rc |].
      * rewrite bind_ret_run.
        destruct (py_is_int rc RTN_E_RCV_FRAME).
        -- exists 1%nat. split; [lia |]. split; [reflexivity | lia].
        -- match goal with |- context [bind ?m ?k w1] =>
             pose proof (bind_run m k w1) as Hb end.
           cbn [sleep outcome_of] in Hb.
           change (outcome_of (sleep 1000 w1)) with (Returned tt) in Hb.
           destruct Hb as [_ [Hev _]]. rewrite Hev.
           change (events_of (sleep 1000 w1)) with (@nil Event).
           cbn [app].
           destruct (IH (world_of (sleep 1000 w1))) as [k [Hk [Hc _]]].
           exists (S k). split; [lia |]. rewrite Hc.
           split; [reflexivity | lia].
      * exists 1%nat. split; [lia |]. split; [reflexivity | lia].
    + destruct Hb as [_ [Hev _]]. rewrite Hev.
      rewrite <- commands_of_vis, Hs.
      exists 1%nat. split; [lia |]. split; [reflexivity | lia].
Qed.

Lemma status_tail_commands :
  always (emits_then command_of [] status_polls) status_tail.
Proof.
  intros w. unfold status_tail.
  match goal with |- context [bind ?m ?k w] =>
    pose proof (bind_run m k w) as Hb end.
  destruct (checkPrintStatus_loop_commands (Z.to_nat 30) w)
    as [k [Hk [Hc Hpos]]].
  specialize (Hpos ltac:(vm_compute; lia)).
  change (Z.to_nat 30) with 30%nat in Hk.
  assert (Hrest : forall b w1,
            commands_of
              (events_of
                 (((if b : bool
                    then record_progress (PyInt 100) 100
                           ("Print is complete!                       " ++ nl)%string
                    else record_progress (PyInt 100) 100
                           ("Timed out waiting for print..            " ++ nl)%string) ;;
                   close 10)%monad w1)) = []).
  { intros b w1.
    match goal with |- context [bind ?m ?k w1] =>
      pose proof (bind_run m k w1) as Hb' end.
    assert (Ho : exists e, events_of ((if b
                    then record_progress (PyInt 100) 100
                           ("Print is complete!                       " ++ nl)%string
                    else record_progress (PyInt 100) 100
                           ("Timed out waiting for print..            " ++ nl)%string) w1) = [e]
               /\ commands_of [e] = []
               /\ outcome_of ((if b
                    then record_progress (PyInt 100) 100
                           ("Print is complete!                       " ++ nl)%string
                    else record_progress (PyInt 100) 100
                           ("Timed out waiting for print..            " ++ nl)%string) w1) = Returned tt)
      by (destruct b; eexists; repeat split).
    destruct Ho as [e [He [Hce Hout]]]. rewrite Hout in Hb'.
    destruct Hb' as [_ [Hev _]]. rewrite Hev, He, commands_of_app, Hce.
    cbn [app]. rewrite <- commands_of_vis.
    match goal with |- context [close 10 ?w2] =>
      pose proof (close_quiet 10 w2) as Hq; unfold quiet in Hq;
      destruct (outcome_of (close 10 w2)); [| | contradiction];
      rewrite Hq; reflexivity
    end. }
  unfold emits_then. change (flat_map command_of) with commands_of.
  destruct (outcome_of (checkPrintStatus_loop (Z.to_nat 30) w)) as [b | e |].
  - destruct Hb as [Hout [Hev _]]. rewrite Hout, Hev, commands_of_app, Hc, Hrest.
    rewrite app_nil_r.
    assert (Hp : status_polls (repeat Type195Command k))
      by (exists k; split; [lia | reflexivity]).
    match goal with |- match ?o with _ => _ end => destruct o end;
      [exists (repeat Type195Command k); split; [exact Hp | reflexivity]
      | exists (repeat Type195Command k), []; split;
        [exact Hp | rewrite app_nil_r; reflexivity]..].
  - destruct Hb as [Hout [Hev _]]. rewrite Hout, Hev, Hc.
    exists (repeat Type195Command k), [].
    split; [exists k; split; [lia | reflexivity] | rewrite app_nil_r; reflexivity].
  - destruct Hb as [Hout [Hev _]]. rewrite Hout, Hev, Hc.
    exists (repeat Type195Command k), [].
    split; [exists k; split; [lia | reflexivity] | rewrite app_nil_r; reflexivity].
Qed.

Lemma status_tail_reports :
  always (emits_then report_of [] last_report) status_tail.
Proof.
  unfold status_tail.
  apply emits_then_last.
  - exists [complete_report]. left. reflexivity.
  - apply checkPrintStatus_loop_no_reports.
  - intros b. destruct b.
    + exists [complete_report]. split; [left; reflexivity |].
      apply (@emits_bind _ _ _ report_of _ _ [complete_report] []);
        [apply (emit_emits report_of (EvProgress _ _ _)) | intros _].
      intros w. apply quiet_emits; [exact report_blind | apply close_quiet].
    + exists [timed_out_report]. split; [right; reflexivity |].
      apply (@emits_bind _ _ _ report_of _ _ [timed_out_report] []);
        [apply (emit_emits report_of (EvProgress _ _ _)) | intros _].
      intros w. apply quiet_emits; [exact report_blind | apply close_quiet].
Qed.

End Course.

(** * The course of a print *)

Section CourseOfPrint.

Context {PF : PacketFactory}.

Lemma preprint_emits {B} (f : Event -> list B) (l : list Z) :
  blind f ->
  always (emits f (flat_map (fun x => f (EvCommand (PrePrintCommand x))) l))
         (for_each l (fun x => sendPrePrintCommand x ;; ret tt)%monad).
Proof.
  intros Hf. apply for_each_emits. intros x.
  rewrite <- (app_nil_r (f (EvCommand (PrePrintCommand x)))).
  apply emits_bind; [apply (sendCommand_emits _ Hf) | intros _].
  apply silent_emits. reflexivity.
Qed.

Lemma send_image_loop_reports_all img :
  always (emits report_of
            (map (segment_report (len img))
                 (seq 1 (segment_count (List.length img)))))
         (send_image_loop (S (List.length img)) record_progress img
            (len img) 0 0).
Proof.
  pose proof (@send_image_loop_reports PF (S (List.length img)) img 0) as H.
  rewrite Nat.sub_0_r in H.
  replace (len img - 960 * Z.of_nat 0) with (len img) in H by lia.
  apply H. unfold segment_count. ndiv.
Qed.

Lemma send_image_loop_commands_all img :
  always (emits command_of
            (map (fun s => SendImageCommand (fst s) (snd s))
                 (image_segments img)))
         (send_image_loop (S (List.length img)) record_progress img
            (len img) 0 0).
Proof.
  rewrite <- loop_segments_image. apply send_image_loop_commands.
Qed.

Ltac course_leaf Hf :=
  match goal with
  | |- always _ (sendCommand ?c) => apply (sendCommand_emits c Hf)
  | |- always _ (record_progress ?c ?t ?s) =>
      apply (emit_emits _ (EvProgress c t s))
  | |- always _ (for_each _ _) => apply (preprint_emits _ Hf)
  | |- always (emits command_of _) (send_image_loop _ _ _ _ _ _) =>
      apply send_image_loop_commands_all
  | |- always (emits report_of _) (send_image_loop _ _ _ _ _ _) =>
      apply send_image_loop_reports_all
  | |- always _ connect =>
      intros ?w; apply quiet_emits; [exact Hf | apply connect_quiet]
  | |- always _ (close _) =>
      intros ?w; apply quiet_emits; [exact Hf | apply close_quiet]
  | |- always _ (sleep _) => apply silent_emits; reflexivity
  end.

Lemma printPhoto_commands img :
  always (emits_then command_of (photo_commands img) status_polls)
         (printPhoto img record_progress).
Proof.
  assert (Hin : exists t, status_polls t)
    by (exists (repeat Type195Command 1), 1%nat; split; [lia | reflexivity]).
  eassert (H : always (emits_then command_of _ status_polls)
                 (printPhoto img record_progress)).
  { unfold printPhoto, checkPrintStatus.
    unfold sendLockCommand, sendResetCommand,
      sendPrepImageCommand, sendT83Command, sendLockStateCommand,
      getPrinterVersion, getPrinterModelName.
    change (range 1 9) with [1; 2; 3; 4; 5; 6; 7; 8].
    repeat
      match goal with
      | |- always _ (bind (checkPrintStatus_loop _) _) =>
          apply status_tail_commands
      | |- always (emits_then _ _ _) (bind _ _) =>
          eapply emits_then_bind;
          [exact Hin | course_leaf command_blind | intros ? ]
      end. }
  cbn [app command_of flat_map] in H. unfold photo_commands. cbn [app map].
  exact H.
Qed.

Lemma printPhoto_reports img :
  always (emits_then report_of (photo_reports img) last_report)
         (printPhoto img record_progress).
Proof.
  assert (Hin : exists t, last_report t)
    by (exists [complete_report]; left; reflexivity).
  eassert (H : always (emits_then report_of _ last_report)
                 (printPhoto img record_progress)).
  { unfold printPhoto, checkPrintStatus.
    unfold sendLockCommand, sendResetCommand,
      sendPrepImageCommand, sendT83Command, sendLockStateCommand,
      getPrinterVersion, getPrinterModelName.
    change (range 1 9) with [1; 2; 3; 4; 5; 6; 7; 8].
    repeat
      match goal with
      | |- always _ (bind (checkPrintStatus_loop _) _) =>
          apply status_tail_reports
      | |- always (emits_then _ _ _) (bind _ _) =>
          eapply emits_then_bind;
          [exact Hin | course_leaf report_blind | intros ? ]
      end. }
  cbn [app report_of flat_map] in H. unfold photo_reports. cbn [app].
  exact H.
Qed.

End CourseOfPrint.

(** * States before and after *)

(** ** The polling loop *)

(** What holds of the loop when [Inv] holds of the worlds it goes through
    and the handler, called on a reply that was due at the head of the
    queue, keeps to [Q] and [E]. *)
Lemma poll_loop_inv {A} d (h : ClientReply -> M (option A))
    (Inv : World -> Prop) (Q : A -> World -> Prop)
    (E : exn -> World -> Prop) :
  (forall w, Inv w -> live w) ->
  (forall w c, Inv w -> Inv (set_clock w c)) ->
  (forall w t rep q, Inv w -> queue w = (t, rep) :: q -> t <= clock w ->
     Inv (pop_reply w) /\
     match outcome_of (h rep (pop_reply w)) with
     | Returned (Some a) => Q a (world_of (h rep (pop_reply w)))
     | Returned None => world_of (h rep (pop_reply w)) = pop_reply w
     | Raised e => E e (world_of (h rep (pop_reply w))) /\ e <> QueueEmpty
     | OutOfFuel => False
     end) ->
  forall fuel w, (poll_measure d w < fuel)%nat -> Inv w ->
    match outcome_of (poll_loop fuel d h w) with
    | Returned (Some a) => Q a (world_of (poll_loop fuel d h w))
    | Returned None => Inv (world_of (poll_loop fuel d h w))
    | Raised e => E e (world_of (poll_loop fuel d h w))
    | OutOfFuel => False
    end.
Proof.
  intros Hlive Hclock Hh.
  induction fuel as [| fuel IH]; intros w Hm HI; [lia |].
  destruct (Z.lt_ge_cases (clock w / 1000) d) as [Hlt | Hge].
  2: { rewrite poll_loop_expired by lia. exact HI. }
  pose proof (Hlive w HI) as Hl.
  destruct (queue w) as [| [t r] q] eqn:Hqu.
  { rewrite poll_loop_sleep; auto.
    - apply IH; [| apply Hclock; exact HI].
      pose proof (@poll_measure_sleep d w Hlt). lia.
    - rewrite Hqu. exact Logic.I. }
  destruct (Z.le_gt_cases t (clock w)) as [Hle | Hgt].
  2: { rewrite poll_loop_sleep; auto.
       - apply IH; [| apply Hclock; exact HI].
         pose proof (@poll_measure_sleep d w Hlt). lia.
       - rewrite Hqu. cbn. lia. }
  destruct (Hh w t r q HI Hqu Hle) as [HI' Hspec].
  assert (Hne : outcome_of (h r (pop_reply w)) <> Raised QueueEmpty).
  { destruct (outcome_of (h r (pop_reply w))) as [[a |] | e |];
      try discriminate.
    destruct Hspec as [_ Hn]. congruence. }
  rewrite (@poll_loop_ready _ d h fuel w t r q Hlt Hqu Hle Hne).
  assert (Hm' : (poll_measure d (pop_reply w) < fuel)%nat).
  { rewrite (@poll_measure_pop d w t r q Hqu) in Hm. lia. }
  specialize (IH _ Hm' HI').
  unfold bind.
  destruct (h r (pop_reply w)) as [o w2 e2].
  cbn [outcome_of world_of] in Hspec.
  destruct o as [[a |] | e |]; cbn [poll_next ret outcome_of world_of].
  - exact Hspec.
  - subst w2.
    destruct (poll_loop fuel d h (pop_reply w)) as [o3 w3 e3].
    cbn [outcome_of world_of] in *. exact IH.
  - exact (proj1 Hspec).
  - exact Hspec.
Qed.

Lemma poll_inv {A} d (h : ClientReply -> M (option A))
    (Inv : World -> Prop) (Q : A -> World -> Prop)
    (E : exn -> World -> Prop) w :
  (forall w, Inv w -> live w) ->
  (forall w c, Inv w -> Inv (set_clock w c)) ->
  (forall w t rep q, Inv w -> queue w = (t, rep) :: q -> t <= clock w ->
     Inv (pop_reply w) /\
     match outcome_of (h rep (pop_reply w)) with
     | Returned (Some a) => Q a (world_of (h rep (pop_reply w)))
     | Returned None => world_of (h rep (pop_reply w)) = pop_reply w
     | Raised e => E e (world_of (h rep (pop_reply w))) /\ e <> QueueEmpty
     | OutOfFuel => False
     end) ->
  Inv w ->
  match outcome_of (poll d h w) with
  | Returned (Some a) => Q a (world_of (poll d h w))
  | Returned None => Inv (world_of (poll d h w))
  | Raised e => E e (world_of (poll d h w))
  | OutOfFuel => False
  end.
Proof.
  intros H1 H2 H3 HI. unfold poll.
  apply (poll_loop_inv d h Inv Q E H1 H2 H3); [lia | exact HI].
Qed.

Lemma live_pop w : live w -> live (pop_reply w).
Proof. unfold live, pop_reply, with_comms. concrete_world w. Qed.

(** ** The transport operations in any state *)

Lemma workers_pop w : workers (pop_reply w) = workers w.
Proof. unfold pop_reply, with_comms. destruct (comms (self w)); reflexivity. Qed.

(** Whatever its outcome, [connect] leaves a thread in [self.comms], and
    it has created one thread. *)
Lemma connect_any w :
  let run := connect w in
  (live (world_of run) /\ workers (world_of run) = tl (workers w)) /\
  match outcome_of run with
  | Returned _ => True
  | Raised e => transport_exn e
  | OutOfFuel => False
  end.
Proof.
  intros run. unfold run. rewrite connect_unfold.
  pose proof (@poll_inv unit (clock w / 1000 + timeout (self w))
                connect_on_reply
                (fun w' => live w' /\ workers w' = tl (workers w))
                (fun _ w' => live w' /\ workers w' = tl (workers w))
                (fun e w' => (exists d, e = ConnectError d) /\
                             live w' /\ workers w' = tl (workers w))
                (connecting w)) as H.
  cbv beta in H.
  match type of H with _ -> _ -> _ -> _ -> ?G => assert (Hp : G) end.
  { apply H.
    - intros w' [Hl _]. exact Hl.
    - intros w' c Hw. exact Hw.
    - intros w' t rep q [Hl Hw] Hq Ht.
      assert (Hi : live (pop_reply w') /\
                   workers (pop_reply w') = tl (workers w))
        by (split; [apply live_pop; exact Hl | rewrite workers_pop; exact Hw]).
      split; [exact Hi |].
      unfold connect_on_reply. destruct (is_SUCCESS rep); cbn.
      + exact Hi.
      + split; [| discriminate]. split; [eexists; reflexivity | exact Hi].
    - split; [discriminate | reflexivity]. }
  destruct (poll _ _ _) as [o w2 e2]. cbn [outcome_of world_of] in Hp.
  destruct o as [[a |] | e |]; unfold after_poll;
    cbn [outcome_of world_of].
  - split; [exact Hp | exact Logic.I].
  - split; [exact Hp | left; reflexivity].
  - destruct Hp as [Hd Hi]. split; [exact Hi | right; exact Hd].
  - contradiction.
Qed.

(** [close] clears [self.comms] unless it raises [ConnectError]. *)
Lemma close_any tmo w :
  live w ->
  let run := close tmo w in
  match outcome_of run with
  | Returned _ => closed (world_of run)
  | Raised e =>
      (e = CommandTimedOutException /\ closed (world_of run)) \/
      ((exists d, e = ConnectError d) /\ live (world_of run))
  | OutOfFuel => False
  end.
Proof.
  intros Hl run. unfold run. rewrite close_unfold by exact Hl.
  pose proof (@poll_inv unit (clock w / 1000 + tmo) close_on_reply live
                (fun _ w' => closed w')
                (fun e w' => (exists d, e = ConnectError d) /\ live w')
                w) as H.
  cbv beta in H.
  match type of H with _ -> _ -> _ -> _ -> ?G => assert (Hp : G) end.
  { apply H.
    - auto.
    - intros w' c Hl'. exact Hl'.
    - intros w' t rep q Hl' Hq Ht.
      pose proof (live_pop Hl') as Hlp. split; [exact Hlp |].
      unfold close_on_reply. destruct (is_SUCCESS rep).
      + revert Hlp. generalize (pop_reply w'). intros w1 Hl1.
        unfold_ops. unfold live, closed in *. concrete_world w1.
      + cbn. split; [| discriminate].
        split; [eexists; reflexivity | exact Hlp].
    - exact Hl. }
  destruct (poll _ _ _) as [o w2 e2]. cbn [outcome_of world_of] in Hp.
  destruct o as [[a |] | e |]; unfold close_after_poll;
    cbn [outcome_of world_of].
  - exact Hp.
  - unfold live in Hp. destruct (comms (self w2)); [| congruence].
    cbn [outcome_of world_of]. left. split; reflexivity.
  - right. exact Hp.
  - exact Hp.
Qed.

Lemma queue_left_pop w0 w t rep q :
  queue_left w0 w -> queue w = (t, rep) :: q -> queue_left w0 (pop_reply w).
Proof.
  intros [Hl [taken Ht]] Hq. split; [apply live_pop; exact Hl |].
  exists (taken ++ [(t, rep)]).
  rewrite <- (set_clock_same w), (@queue_pop w (clock w) t rep q Hq).
  rewrite Ht, Hq, <- app_assoc. reflexivity.
Qed.

Lemma queue_left_In w0 w t rep q :
  queue_left w0 w -> queue w = (t, rep) :: q -> In (t, rep) (queue w0).
Proof.
  intros [_ [taken Ht]] Hq. rewrite Ht, Hq. apply in_or_app. right. left.
  reflexivity.
Qed.

(** What [send_and_recieve] returns is a reply of the worker, with type
    SUCCESS and with data; what it raises besides the timeout is the data
    of a reply of the worker with type ERROR.  The thread stays in
    [self.comms]. *)
Lemma send_and_recieve_sound cmdBytes tmo w :
  live w ->
  let run := send_and_recieve cmdBytes tmo w in
  match outcome_of run with
  | Returned r =>
      live (world_of run) /\
      is_SUCCESS r = true /\
      (exists data, rdata r = Some data) /\
      (exists t, In (t, r) (queue w))
  | Raised e =>
      (e = CommandTimedOutException \/
       (exists data t,
          e = ConnectError (Some data) /\
          In (t, mkReply ERROR (Some data)) (queue w))) /\
      live (world_of run)
  | OutOfFuel => False
  end.
Proof.
  intros Hl run. unfold run. rewrite send_and_recieve_unfold by exact Hl.
  pose proof (@poll_inv ClientReply (clock w / 1000 + tmo)
                send_and_recieve_on_reply (queue_left w)
                (fun r w' => live w' /\ is_SUCCESS r = true /\
                             (exists data, rdata r = Some data) /\
                             (exists t, In (t, r) (queue w)))
                (fun e w' =>
                   (exists data t,
                      e = ConnectError (Some data) /\
                      In (t, mkReply ERROR (Some data)) (queue w)) /\
                   live w')
                w) as H.
  cbv beta in H.
  match type of H with _ -> _ -> _ -> _ -> ?G => assert (Hp : G) end.
  { apply H.
    - intros w' [Hl' _]. exact Hl'.
    - intros w' c Hq. exact Hq.
    - intros w' t rep q Hq Hqu Ht.
      pose proof (queue_left_pop Hq Hqu) as Hq'. split; [exact Hq' |].
      pose proof (queue_left_In Hq Hqu) as Hin.
      unfold send_and_recieve_on_reply.
      destruct rep as [ty [data |]]; cbn [rdata]; [| reflexivity].
      destruct ty; cbn.
      + split; [exact (proj1 Hq') |]. split; [reflexivity |].
        split; [exists data; reflexivity | exists t; exact Hin].
      + split; [| discriminate].
        split; [| exact (proj1 Hq')].
        exists data, t. split; [reflexivity | exact Hin].
    - split; [exact Hl | exists []; reflexivity]. }
  destruct (poll _ _ _) as [o w2 e2]. cbn [outcome_of world_of] in Hp.
  destruct o as [[a |] | e |]; unfold after_poll;
    cbn [outcome_of world_of].
  - exact Hp.
  - split; [left; reflexivity | exact (proj1 Hp)].
  - split; [right; exact (proj1 Hp) | exact (proj2 Hp)].
  - exact Hp.
Qed.

Section CommandSound.

Context {PF : PacketFactory}.

(** What [sendCommand] returns is the decoding of the data of a SUCCESS
    reply of the worker.  The thread stays in [self.comms]. *)
Lemma sendCommand_sound c w :
  live w ->
  let run := sendCommand c w in
  match outcome_of run with
  | Returned p =>
      live (world_of run) /\
      exists t data,
        In (t, mkReply SUCCESS (Some data)) (queue w) /\
        decode data = Some p
  | Raised e => command_exn e /\ live (world_of run)
  | OutOfFuel => False
  end.
Proof.
  intros Hl run. unfold run.
  unfold sendCommand. unfold raise_.
  unfold emit, get_self, get_world, throw, bind, ret.
  cbn.
  destruct (decode (encodeCommand c _ _));
    [| cbn; split; [right; reflexivity | exact Hl]].
  pose proof (@send_and_recieve_sound
                (encodeCommand c (currentTimeMillis (self w)) (pinCode (self w)))
                5 w Hl) as H.
  cbv zeta in H.
  destruct (send_and_recieve _ _ _) as [o w2 e2].
  cbn [outcome_of world_of] in H.
  destruct o as [reply | e |]; cbn [outcome_of world_of].
  - destruct H as [Hl2 [Hs [[data Hd] [t Hin]]]]. rewrite Hd.
    destruct (decode data) as [p' |] eqn:Hp; cbn [outcome_of world_of];
      [| split; [right; reflexivity | exact Hl2]].
    split; [exact Hl2 |]. exists t, data. split; [| exact Hp].
    destruct reply as [ty rd]. cbn in Hd, Hs. subst rd.
    destruct ty; [exact Hin | discriminate Hs].
  - destruct H as [H Hl2]. split; [| exact Hl2].
    left. destruct H as [-> | [data [t [-> _]]]];
      [left; reflexivity | right; eexists; reflexivity].
  - exact H.
Qed.

End CommandSound.

(** ** Triples *)

Lemma connect_hoare (P : World -> Prop) (E : exn -> World -> Prop) :
  (forall e w, transport_exn e -> live w -> E e w) ->
  hoare P connect (fun _ w => live w) E.
Proof.
  intros HE w _. destruct (connect_any w) as [[Hl _] Ho].
  destruct (outcome_of (connect w)) as [a | e |];
    [exact Hl | apply HE; assumption | exact Ho].
Qed.

Lemma close_hoare (tmo : Z) (E : exn -> World -> Prop) :
  (forall w, closed w -> E CommandTimedOutException w) ->
  (forall d w, live w -> E (ConnectError d) w) ->
  hoare live (close tmo) (fun _ w => closed w) E.
Proof.
  intros HT HC w Hl. pose proof (@close_any tmo w Hl) as H. cbv zeta in H.
  destruct (outcome_of (close tmo w)) as [a | e |]; [exact H | | exact H].
  destruct H as [[-> Hc] | [[d ->] Hl']]; [apply HT | apply HC]; assumption.
Qed.

Lemma emit_hoare (P : World -> Prop) ev E : hoare P (emit ev) (fun _ w => P w) E.
Proof. intros w HP. exact HP. Qed.

Lemma ret_hoare {A} (P : World -> Prop) (a : A) E :
  hoare P (ret a) (fun _ w => P w) E.
Proof. intros w HP. exact HP. Qed.

Lemma sleep_live ms E : hoare live (sleep ms) (fun _ w => live w) E.
Proof. intros w HP. exact HP. Qed.

Lemma sleep_closed ms E : hoare closed (sleep ms) (fun _ w => closed w) E.
Proof. intros w HP. exact HP. Qed.

Lemma hoare_bind {A B} (P : World -> Prop) (m : M A) (k : A -> M B)
    (Q : A -> World -> Prop) (R : B -> World -> Prop)
    (E : exn -> World -> Prop) :
  hoare P m Q E -> (forall a, hoare (Q a) (k a) R E) ->
  hoare P (bind m k) R E.
Proof.
  intros Hm Hk w HP. specialize (Hm w HP).
  pose proof (bind_run m k w) as Hb.
  destruct (outcome_of (m w)) as [a | e |].
  - destruct Hb as [Ho [_ Hw]]. rewrite Ho, Hw. apply Hk. exact Hm.
  - destruct Hb as [Ho [_ Hw]]. rewrite Ho, Hw. exact Hm.
  - destruct Hb as [Ho _]. rewrite Ho. exact Hm.
Qed.

Lemma dict_getitem_hoare (P : World -> Prop) d key
    (E : exn -> World -> Prop) :
  (forall w, P w -> E (KeyError key) w) ->
  hoare P (dict_getitem d key) (fun _ w => P w) E.
Proof.
  intros HE w HP. unfold dict_getitem.
  destruct (dict_get d key); cbn; [exact HP | apply HE; exact HP].
Qed.

Lemma getitem_hoare (P : World -> Prop) v key (E : exn -> World -> Prop) :
  (forall w, P w -> E (KeyError key) w) ->
  (forall w, P w -> E TypeError w) ->
  hoare P (getitem v key) (fun _ w => P w) E.
Proof.
  intros HK HT. unfold getitem.
  destruct v; try (intros w HP; apply HT; exact HP).
  apply dict_getitem_hoare. exact HK.
Qed.

Lemma for_each_hoare {X} (P : World -> Prop) (l : list X) body E :
  (forall x, hoare P (body x) (fun _ w => P w) E) ->
  hoare P (for_each l body) (fun _ w => P w) E.
Proof.
  intros H. induction l as [| x l IH]; cbn [for_each].
  - apply ret_hoare.
  - eapply hoare_bind; [apply H | intros ?; exact IH].
Qed.

Section CommandsInAnyState.

Context {PF : PacketFactory}.

Lemma sendCommand_hoare c (E : exn -> World -> Prop) :
  (forall e w, command_exn e -> live w -> E e w) ->
  hoare live (sendCommand c) (fun _ w => live w) E.
Proof.
  intros HE w Hl. pose proof (@sendCommand_sound PF c w Hl) as H.
  cbv zeta in H.
  destruct (outcome_of (sendCommand c w)) as [p | e |].
  - exact (proj1 H).
  - apply HE; [exact (proj1 H) | exact (proj2 H)].
  - exact H.
Qed.

Lemma send_image_loop_hoare fuel (E : exn -> World -> Prop) : forall img k,
  (forall e w, command_exn e -> live w -> E e w) ->
  (segment_count (List.length img) - k < fuel)%nat ->
  hoare live
    (send_image_loop fuel record_progress img
       (len img - 960 * Z.of_nat k) (960 * Z.of_nat k) (Z.of_nat k))
    (fun _ w => live w) E.
Proof.
  induction fuel as [| fuel IH]; intros img k HE Hfuel; [lia |].
  cbn [send_image_loop]. unfold len.
  destruct (0 <? Z.of_nat (List.length img) - 960 * Z.of_nat k) eqn:Hgo.
  - apply Z.ltb_lt in Hgo.
    eapply hoare_bind; [apply sendCommand_hoare; exact HE | intros ?].
    unfold py_truediv.
    destruct (Z.of_nat (List.length img) =? 0) eqn:Hz;
      [apply Z.eqb_eq in Hz; lia |].
    intros w. rewrite bind_ret_run. revert w.
    eapply hoare_bind; [apply emit_hoare | intros ?].
    replace (960 * Z.of_nat k + 960) with (960 * Z.of_nat (S k)) by lia.
    replace (Z.of_nat k + 1) with (Z.of_nat (S k)) by lia.
    replace (Z.of_nat (List.length img) - 960 * Z.of_nat k - 960)
      with (len img - 960 * Z.of_nat (S k)) by (unfold len; lia).
    apply IH; [exact HE |].
    assert (Hn : (segment_count (List.length img) - k
                  = S (segment_count (List.length img) - S k))%nat)
      by (unfold segment_count; ndiv).
    lia.
  - apply ret_hoare.
Qed.

Lemma send_image_loop_hoare_all img (E : exn -> World -> Prop) :
  (forall e w, command_exn e -> live w -> E e w) ->
  hoare live
    (send_image_loop (S (List.length img)) record_progress img (len img) 0 0)
    (fun _ w => live w) E.
Proof.
  intros HE.
  pose proof (@send_image_loop_hoare (S (List.length img)) E img 0 HE) as H.
  replace (len img - 960 * Z.of_nat 0) with (len img) in H by lia.
  apply H. unfold segment_count. ndiv.
Qed.

Lemma checkPrintStatus_loop_hoare n (E : exn -> World -> Prop) :
  (forall e w, photo_exn e -> live w -> E e w) ->
  hoare live (checkPrintStatus_loop n) (fun _ w => live w) E.
Proof.
  intros HE. induction n as [| n IH]; cbn [checkPrintStatus_loop].
  - apply ret_hoare.
  - eapply hoare_bind;
      [apply sendCommand_hoare; intros e w He Hl; apply HE;
       [left; exact He | exact Hl]
      | intros p].
    eapply hoare_bind;
      [apply (dict_getitem_hoare live); intros w Hl; apply HE;
       [right; reflexivity | exact Hl]
      | intros rc].
    destruct (py_is_int rc RTN_E_RCV_FRAME); [apply ret_hoare |].
    eapply hoare_bind; [apply sleep_live | intros ?; exact IH].
Qed.

End CommandsInAnyState.

(** ** The two procedures *)

Section Procedures.

Context {PF : PacketFactory}.

Ltac allowed :=
  unfold information_exn, photo_exn, command_exn, transport_exn in *;
  intuition eauto 10.

(** The exception is one of the procedure, and the thread is there. *)
Ltac open_exn :=
  intros; unfold left_open; split; [allowed | left; assumption].

Ltac hoare_leaf :=
  match goal with
  | |- hoare _ (sendCommand _) _ _ => apply sendCommand_hoare; open_exn
  | |- hoare _ (record_progress ?c ?t ?s) _ _ =>
      apply (emit_hoare _ (EvProgress c t s))
  | |- hoare _ (for_each _ _) _ _ =>
      apply for_each_hoare; intros ?;
      eapply hoare_bind;
      [apply sendCommand_hoare; open_exn | intros ?; apply ret_hoare]
  | |- hoare _ (send_image_loop _ _ _ _ _ _) _ _ =>
      apply send_image_loop_hoare_all; open_exn
  | |- hoare _ (checkPrintStatus_loop _) _ _ =>
      apply checkPrintStatus_loop_hoare; open_exn
  | |- hoare _ (if ?b then _ else _) _ _ =>
      destruct b; apply (emit_hoare _ (EvProgress _ _ _))
  | |- hoare _ connect _ _ => apply connect_hoare; open_exn
  | |- hoare _ (close _) _ _ =>
      apply close_hoare;
      [intros; unfold left_open; split; [allowed | right; split; auto]
      | open_exn]
  | |- hoare _ (sleep _) _ _ => apply sleep_closed
  | |- hoare _ (ret _) _ _ => apply ret_hoare
  | |- hoare _ (getitem _ _) _ _ => apply getitem_hoare; open_exn
  | |- hoare _ (dict_getitem _ _) _ _ => apply dict_getitem_hoare; open_exn
  end.

(** [printPhoto] from any state: it ends with the connection closed, or
    with one of the exceptions of a print and the connection as it was when
    the exception was raised. *)
Lemma printPhoto_hoare img (P : World -> Prop) :
  hoare P (printPhoto img record_progress) (fun _ w => closed w)
        (left_open photo_exn).
Proof.
  unfold printPhoto, checkPrintStatus.
  unfold sendPrePrintCommand, sendLockCommand, sendResetCommand,
    sendPrepImageCommand, sendT83Command, sendLockStateCommand,
    getPrinterVersion, getPrinterModelName.
  repeat
    match goal with
    | |- hoare _ (bind _ _) _ _ =>
        eapply hoare_bind; [hoare_leaf | intros ? ]
    | |- hoare _ (close _) _ _ => hoare_leaf
    end.
Qed.

(** [getPrinterInformation] from any state. *)
Lemma getPrinterInformation_hoare (P : World -> Prop) :
  hoare P getPrinterInformation (fun _ w => closed w)
        (left_open information_exn).
Proof.
  unfold getPrinterInformation.
  unfold getPrinterVersion, getPrinterModelName, getPrintCount.
  repeat
    match goal with
    | |- hoare _ (bind _ _) _ _ =>
        eapply hoare_bind; [hoare_leaf | intros ? ]
    | |- hoare _ (ret _) _ _ => hoare_leaf
    end.
Qed.

End Procedures.

(** ** Look-ups that return *)

Lemma dict_getitem_Returned d key w x :
  outcome_of (dict_getitem d key w) = Returned x ->
  dict_get d key = Some x /\ dict_getitem d key w = mkRun (Returned x) w [].
Proof.
  unfold dict_getitem. destruct (dict_get d key) as [v |]; cbn.
  - intros H. injection H as ->. split; reflexivity.
  - discriminate.
Qed.

Lemma getitem_Returned v key w x :
  outcome_of (getitem v key w) = Returned x ->
  (exists d, v = PyDict d /\ dict_get d key = Some x) /\
  getitem v key w = mkRun (Returned x) w [].
Proof.
  unfold getitem. destruct v; try (cbn; discriminate).
  intros H. apply dict_getitem_Returned in H. destruct H as [H1 H2].
  split; [eexists; split; [reflexivity | exact H1] | exact H2].
Qed.

Lemma quiet_Returned_no_responses {A} (r : Run A) a :
  quiet r -> outcome_of r = Returned a -> responses_of (events_of r) = [].
Proof.
  unfold quiet. intros H Ho. rewrite Ho in H.
  rewrite <- responses_of_vis, H. reflexivity.
Qed.

Section Responses.

Context {PF : PacketFactory}.

Lemma sendCommand_Returned_response c w p :
  outcome_of (sendCommand c w) = Returned p ->
  responses_of (events_of (sendCommand c w)) = [(c, p)].
Proof.
  intros Ho. pose proof (sendCommand_shows c w) as H.
  unfold shows_command in H. rewrite Ho in H.
  rewrite <- responses_of_vis, H. reflexivity.
Qed.

End Responses.

(** ** What [connect] leaves behind *)

(** The events of the polling loop, when its handler shows nothing but the
    exception it raises. *)
Lemma poll_loop_events {A} d (h : ClientReply -> M (option A)) :
  (forall r w,
     match outcome_of (h r w) with
     | Returned _ => events_of (h r w) = []
     | Raised e => events_of (h r w) = [EvRaise e] /\ e <> QueueEmpty
     | OutOfFuel => True
     end) ->
  (forall r w, outcome_of (h r w) = Returned None -> world_of (h r w) = w) ->
  forall fuel w, (poll_measure d w < fuel)%nat ->
    match outcome_of (poll_loop fuel d h w) with
    | Returned _ => events_of (poll_loop fuel d h w) = []
    | Raised e => events_of (poll_loop fuel d h w) = [EvRaise e]
    | OutOfFuel => True
    end.
Proof.
  intros Hev Hw. induction fuel as [| fuel IH]; intros w Hm; [lia |].
  destruct (Z.lt_ge_cases (clock w / 1000) d) as [Hlt | Hge].
  2: { rewrite poll_loop_expired by lia. reflexivity. }
  destruct (comms (self w)) as [th |] eqn:Hc.
  2: { rewrite poll_loop_dead by assumption. reflexivity. }
  assert (Hl : live w) by (unfold live; congruence).
  destruct (queue w) as [| [t r] q] eqn:Hqu.
  { rewrite poll_loop_sleep; auto.
    - apply IH. pose proof (@poll_measure_sleep d w Hlt). lia.
    - rewrite Hqu. exact Logic.I. }
  destruct (Z.le_gt_cases t (clock w)) as [Hle | Hgt].
  2: { rewrite poll_loop_sleep; auto.
       - apply IH. pose proof (@poll_measure_sleep d w Hlt). lia.
       - rewrite Hqu. cbn. lia. }
  pose proof (Hev r (pop_reply w)) as He1.
  pose proof (Hw r (pop_reply w)) as Hw1.
  assert (Hne : outcome_of (h r (pop_reply w)) <> Raised QueueEmpty).
  { destruct (outcome_of (h r (pop_reply w))) as [[a |] | e |];
      try discriminate.
    destruct He1 as [_ Hn]. congruence. }
  rewrite (@poll_loop_ready _ d h fuel w t r q Hlt Hqu Hle Hne).
  unfold bind.
  destruct (h r (pop_reply w)) as [o w2 e2].
  cbn [outcome_of world_of events_of] in *.
  destruct o as [[a |] | e |]; cbn [poll_next ret outcome_of events_of].
  - rewrite app_nil_r. exact He1.
  - specialize (Hw1 eq_refl). subst w2 e2.
    assert (Hm' : (poll_measure d (pop_reply w) < fuel)%nat).
    { rewrite (@poll_measure_pop d w t r q Hqu) in Hm. lia. }
    specialize (IH _ Hm').
    destruct (poll_loop fuel d h (pop_reply w)) as [o3 w3 e3].
    cbn [outcome_of events_of] in *. exact IH.
  - exact (proj1 He1).
  - exact Logic.I.
Qed.

(** The thread that [connect] started from [w], with what is left of the
    replies of its worker. *)
Lemma started_by_pop w w' t rep q :
  started_by w w' ->
  queue w' = (t, rep) :: q ->
  started_by w (pop_reply w').
Proof.
  intros [q0 [taken [Hs [Hc Hw]]]] Hq.
  unfold queue in Hq. rewrite Hc in Hq. cbn in Hq. subst q0.
  exists q, (taken ++ [(t, rep)]).
  split; [rewrite <- app_assoc; exact Hs |].
  unfold pop_reply, with_comms. rewrite Hc. cbn.
  split; [reflexivity | exact Hw].
Qed.

(** Whatever its outcome, [connect] has started one thread and put one
    command on its queue, and that thread is the one in [self.comms]. *)
Lemma connect_trace w :
  let run := connect w in
  started_by w (world_of run) /\
  match outcome_of run with
  | Returned _ => events_of run = connect_events w
  | Raised e =>
      transport_exn e /\ events_of run = connect_events w ++ [EvRaise e]
  | OutOfFuel => False
  end.
Proof.
  intros run. unfold run. rewrite connect_unfold.
  set (d := clock w / 1000 + timeout (self w)).
  pose proof (@poll_inv unit d connect_on_reply
                (started_by w)
                (fun _ w' => started_by w w')
                (fun e w' => (exists x, e = ConnectError x) /\ started_by w w')
                (connecting w)) as H.
  cbv beta in H.
  match type of H with _ -> _ -> _ -> _ -> ?G => assert (Hp : G) end.
  { apply H.
    - intros w' [q [taken [_ [Hc _]]]]. unfold live. rewrite Hc. discriminate.
    - intros w' c Hw. exact Hw.
    - intros w' t rep q Hs Hq Ht.
      pose proof (started_by_pop Hs Hq) as Hi.
      split; [exact Hi |].
      unfold connect_on_reply. destruct (is_SUCCESS rep); cbn.
      + exact Hi.
      + split; [| discriminate]. split; [eexists; reflexivity | exact Hi].
    - exists (hd [] (workers w)), []. repeat split. }
  assert (Hev :
    match outcome_of (poll d connect_on_reply (connecting w)) with
    | Returned _ => events_of (poll d connect_on_reply (connecting w)) = []
    | Raised e =>
        events_of (poll d connect_on_reply (connecting w)) = [EvRaise e]
    | OutOfFuel => True
    end).
  { unfold poll. apply poll_loop_events; [| | lia].
    - intros r w'. unfold connect_on_reply.
      destruct (is_SUCCESS r); cbn; [reflexivity |].
      split; [reflexivity | discriminate].
    - intros r w'. unfold connect_on_reply.
      destruct (is_SUCCESS r); cbn; discriminate. }
  destruct (poll _ _ _) as [o w2 e2].
  cbn [outcome_of world_of events_of] in Hp, Hev.
  destruct o as [[a |] | e |]; unfold after_poll;
    cbn [outcome_of world_of events_of].
  - subst e2. split; [exact Hp | apply app_nil_r].
  - subst e2. split; [exact Hp |].
    split; [left; reflexivity | reflexivity].
  - subst e2. destruct Hp as [Hd Hi]. split; [exact Hi |].
    split; [right; exact Hd | reflexivity].
  - contradiction.
Qed.

(** ** The reports of a print, one by one *)

(** The report at place [i] in the course of a print. *)
Lemma photo_reports_nth img final i current total status :
  last_report final ->
  nth_error (photo_reports img ++ final) i = Some (current, total, status) ->
  let n := segment_count (List.length img) in
  total = 100 /\
  (((i < 5)%nat /\ current = PyInt (10 * Z.of_nat i)) \/
   ((5 <= i < 5 + n)%nat /\
    current = segment_current (len img) (Z.of_nat (i - 4)) /\
    status = segment_status (Z.of_nat (i - 4))) \/
   (i = (5 + n)%nat /\ current = PyInt 70) \/
   (i = (6 + n)%nat /\ current = PyInt 90) \/
   (i = (7 + n)%nat /\ current = PyInt 100)).
Proof.
  intros Hf H n. unfold photo_reports in H. fold n in H.
  destruct i as [| [| [| [| [| j]]]]];
    cbn [app nth_error] in H;
    try (injection H as <- <- <-; split; [reflexivity |];
         left; split; [lia | reflexivity]).
  rewrite <- app_assoc in H.
  destruct (Nat.ltb_spec j n) as [Hlt | Hge].
  - rewrite nth_error_app1 in H by (rewrite length_map, length_seq; exact Hlt).
    rewrite nth_error_map_seq in H.
    destruct (Nat.ltb_spec j n); [| lia].
    unfold segment_report in H. injection H as <- <- <-.
    split; [reflexivity |]. right; left.
    replace (S (S (S (S (S j)))) - 4)%nat with (1 + j)%nat by lia.
    split; [lia | split; reflexivity].
  - rewrite nth_error_app2 in H by (rewrite length_map, length_seq; exact Hge).
    rewrite length_map, length_seq in H.
    remember (j - n)%nat as m eqn:Hm.
    destruct m as [| [| m]]; cbn [app nth_error] in H.
    + injection H as <- <- <-. split; [reflexivity |].
      right; right; left. split; [lia | reflexivity].
    + injection H as <- <- <-. split; [reflexivity |].
      right; right; right; left. split; [lia | reflexivity].
    + destruct Hf as [-> | ->]; destruct m as [| m]; cbn [nth_error] in H;
        try (destruct m; discriminate).
      * unfold complete_report in H. injection H as <- <- <-.
        split; [reflexivity |].
        right; right; right; right. split; [lia | reflexivity].
      * unfold timed_out_report in H. injection H as <- <- <-.
        split; [reflexivity |].
        right; right; right; right. split; [lia | reflexivity].
Qed.

Lemma photo_reports_length img final :
  last_report final ->
  List.length (photo_reports img ++ final)
  = (segment_count (List.length img) + 8)%nat.
Proof.
  intros Hf. unfold photo_reports.
  rewrite !length_app, length_map, length_seq.
  destruct Hf as [-> | ->]; cbn [List.length]; lia.
Qed.

Section ReportsOfPrint.

Context {PF : PacketFactory}.

(** The reports of a run are the first of the reports of a print, and all
    of them when the run returns. *)
Lemma printPhoto_reports_prefix img w :
  let run := printPhoto img record_progress w in
  exists final rest,
    last_report final /\
    photo_reports img ++ final = progress_of (events_of run) ++ rest /\
    (outcome_of run = Returned tt -> rest = []).
Proof.
  intros run.
  pose proof (printPhoto_reports img w) as H.
  fold run in H. unfold emits_then in H.
  change (flat_map report_of (events_of run))
    with (progress_of (events_of run)) in H.
  destruct (outcome_of run) as [[] | e |].
  - destruct H as [t [Ht Hc]]. exists t, [].
    split; [exact Ht |].
    split; [rewrite app_nil_r; symmetry; exact Hc | reflexivity].
  - destruct H as [t [rest [Ht Hc]]]. exists t, rest.
    split; [exact Ht | split; [exact Hc | discriminate]].
  - destruct H as [t [rest [Ht Hc]]]. exists t, rest.
    split; [exact Ht | split; [exact Hc | discriminate]].
Qed.

End ReportsOfPrint.

(** * The claims *)

(** ** C9: the constructor's timeout *)

(** C9.  Whatever timeout is passed to the constructor, the object stores
    10: [__init__] assigns the literal, not its parameter.  A client built
    with [timeout=3] whose worker stays silent therefore polls until the
    clock's whole second has advanced by ten, not by three, before [connect]
    raises [CommandTimedOutException]. *)
Theorem constructor_timeout_ignored :
  (forall ip port t pin now, timeout (SP1_init ip port t pin now) = 10) /\
  let w := mkWorld (SP1_init default_ip default_port 3 default_pinCode 0) 0 [] in
  connect w
  = mkRun (Raised CommandTimedOutException)
          (set_clock (connecting w) 10000)
          (connect_events w ++ [EvRaise CommandTimedOutException]).
Proof.
  split; [reflexivity |].
  intros w. rewrite connect_silent; [reflexivity | exact I].
Qed.

(** ** C4: timeouts *)

Lemma timeout_clock_gave_up tmo c :
  gave_up_at tmo c (timeout_clock (c / 1000 + tmo) c).
Proof.
  unfold gave_up_at, timeout_clock.
  destruct (Z.ltb_spec (c / 1000) (c / 1000 + tmo)); repeat split; intros;
    try zdiv.
Qed.

(** C4, counterexample.  A client created 0.9 s into a second with the
    default timeout of 10 s and a silent worker: [connect] raises
    [CommandTimedOutException] when the clock reads 15.0 s, 9.1 s after
    the call, not 10 s after it. *)
Lemma timeout_raised_before_bound :
  let w := Fixture.world [] in
  outcome_of (connect w) = Raised CommandTimedOutException /\
  clock (world_of (connect w)) - clock w = 9100 /\
  ~ waits_whole_timeout connect (timeout (self w)) w.
Proof.
  intros w. rewrite connect_silent by exact I.
  unfold waits_whole_timeout. rewrite connect_silent by exact I.
  cbn. repeat split; try reflexivity.
  intros H. specialize (H eq_refl). vm_compute in H. apply H. reflexivity.
Qed.

(** C4, as amended.  With a worker that never enqueues a reply, [connect],
    [send_and_recieve] and [close] each raise [CommandTimedOutException] at
    the first poll, 0.1 s apart, at which the clock's whole second has
    reached the whole second of the call plus the timeout: later than
    timeout - 1 s and sooner than timeout + 0.1 s after the call.
    [connect] is taken in any state of the client, fresh, closed or
    connected: the worker that stays silent is the one it starts, and that
    thread is left in [self.comms], not joined.  [send_and_recieve] and
    [close] are taken with a thread in [self.comms] whose queue stays
    empty; [send_and_recieve] leaves the client as it was, and [close] has
    joined the worker and cleared [self.comms] by the time it raises. *)
Theorem timeout_when_worker_silent (w : World) (cmdBytes : bytes) (tmo : Z) :
  (hd [] (workers w) = [] ->
   let r := connect w in
   outcome_of r = Raised CommandTimedOutException /\
   gave_up_at (timeout (self w)) (clock w) (clock (world_of r)) /\
   events_of r = connect_events w ++ [EvRaise CommandTimedOutException] /\
   comms (self (world_of r)) = Some (mkThread [] true)) /\
  (live w -> queue w = [] ->
   (let r := send_and_recieve cmdBytes tmo w in
    outcome_of r = Raised CommandTimedOutException /\
    gave_up_at tmo (clock w) (clock (world_of r)) /\
    events_of r = send_events cmdBytes ++ [EvRaise CommandTimedOutException] /\
    self (world_of r) = self w) /\
   (let r := close tmo w in
    outcome_of r = Raised CommandTimedOutException /\
    gave_up_at tmo (clock w) (clock (world_of r)) /\
    events_of r = [EvPut CLOSE; EvJoin; EvRaise CommandTimedOutException] /\
    comms (self (world_of r)) = None)).
Proof.
  split.
  - intros Hw. cbv zeta.
    rewrite connect_silent by (rewrite Hw; exact I).
    split; [reflexivity |].
    split; [apply timeout_clock_gave_up |].
    split; [reflexivity |].
    cbn. rewrite Hw. reflexivity.
  - intros Hl Hq.
    assert (Hs : forall T, silent_until T (queue w))
      by (intros; rewrite Hq; exact I).
    split; cbv zeta.
    + rewrite send_and_recieve_silent by auto.
      split; [reflexivity |].
      split; [apply timeout_clock_gave_up |].
      split; reflexivity.
    + rewrite close_silent by auto.
      split; [reflexivity |].
      split; [apply timeout_clock_gave_up |].
      split; reflexivity.
Qed.

(** A client 0.9 s into a second whose worker stays silent.  Fresh, with
    nothing in [self.comms], its [connect] gives up after 9.1 s and keeps
    the thread.  Connected, its [send_and_recieve] with a timeout of 5 s
    gives up after 4.1 s, and its [close] with a timeout of 10 s after
    9.1 s, with the worker joined. *)
Lemma timeout_when_worker_silent_witness :
  let w0 := Fixture.world [] in
  let w := Fixture.connected [] in
  (comms (self w0) = None /\
   outcome_of (connect w0) = Raised CommandTimedOutException /\
   clock (world_of (connect w0)) = 15000 /\
   comms (self (world_of (connect w0))) = Some (mkThread [] true)) /\
  (outcome_of (send_and_recieve [] 5 w) = Raised CommandTimedOutException /\
   clock (world_of (send_and_recieve [] 5 w)) = 10000) /\
  (outcome_of (close 10 w) = Raised CommandTimedOutException /\
   clock (world_of (close 10 w)) = 15000 /\
   In EvJoin (events_of (close 10 w)) /\
   comms (self (world_of (close 10 w))) = None).
Proof.
  intros w0 w.
  assert (Hl : live w) by (unfold live; cbn; discriminate).
  destruct (@timeout_when_worker_silent w0 [] 10) as [Hc _].
  destruct (Hc eq_refl) as [C1 [[C2 _] [_ C4]]].
  destruct (@timeout_when_worker_silent w [] 5) as [_ Hs].
  destruct (Hs Hl eq_refl) as [[S1 [[S2 _] _]] _].
  destruct (@timeout_when_worker_silent w [] 10) as [_ Hk].
  destruct (Hk Hl eq_refl) as [_ [K1 [[K2 _] [K3 K4]]]].
  split; [| split].
  - split; [reflexivity |].
    split; [exact C1 |].
    split; [rewrite C2; reflexivity | exact C4].
  - split; [exact S1 | rewrite S2; reflexivity].
  - split; [exact K1 |].
    split; [rewrite K2; reflexivity |].
    split; [rewrite K3; cbn; tauto | exact K4].
Defined.

(** ** C5: which reply decides [send_and_recieve] *)

(** C5, counterexample.  The worker has enqueued a SUCCESS reply without
    data (its acknowledgement of SEND) and then an ERROR reply: the first
    delivered reply is a SUCCESS, and the call raises [ConnectError]. *)
Lemma first_reply_ignored :
  let w := Fixture.connected
             [(0, mkReply SUCCESS None); (0, mkReply ERROR (Some [Byte.x45]))] in
  outcome_of (send_and_recieve [] 5 w) = Raised (ConnectError (Some [Byte.x45])) /\
  ~ first_reply_decides [] 5 w.
Proof.
  intros w.
  assert (H : outcome_of (send_and_recieve [] 5 w)
              = Raised (ConnectError (Some [Byte.x45]))).
  { rewrite (@send_and_recieve_decides [] 5 w [(0, mkReply SUCCESS None)] 0
               (mkReply ERROR (Some [Byte.x45])) [] [Byte.x45]).
    - reflexivity.
    - reflexivity.
    - constructor; [reflexivity | constructor].
    - reflexivity.
    - vm_compute. reflexivity. }
  split; [exact H |].
  intros Hc.
  specialize (Hc 0 (mkReply SUCCESS None) [(0, mkReply ERROR (Some [Byte.x45]))]
                 eq_refl).
  rewrite H in Hc. cbn in Hc.
  assert (Hlt : wait_clock 0 5900 / 1000 < 5900 / 1000 + 5)
    by (vm_compute; reflexivity).
  specialize (Hc Hlt). discriminate Hc.
Qed.

(** C5, as amended.  Replies without data are taken off the queue and
    dropped; the first reply that carries data and is delivered before the
    deadline decides: a SUCCESS is returned as it is, anything else raises
    [ConnectError] with the reply's data. *)
Theorem first_reply_with_data_decides
    (cmdBytes : bytes) (tmo : Z) (w : World)
    (skipped : list Arrival) (t : Z) (r : ClientReply) (rest : list Arrival)
    (data : bytes) :
  queue w = skipped ++ (t, r) :: rest ->
  Forall no_data skipped ->
  rdata r = Some data ->
  drain_clock (skipped ++ [(t, r)]) (clock w) / 1000 < clock w / 1000 + tmo ->
  let run := send_and_recieve cmdBytes tmo w in
  outcome_of run
  = (if is_SUCCESS r then Returned r else Raised (ConnectError (Some data))) /\
  queue (world_of run) = rest /\
  clock (world_of run) = drain_clock (skipped ++ [(t, r)]) (clock w).
Proof.
  intros Hq Hs Hd Hw run. subst run.
  rewrite (@send_and_recieve_decides cmdBytes tmo w skipped t r rest data
             Hq Hs Hd Hw).
  assert (Hl : live w).
  { unfold live, queue in *. destruct (comms (self w)); [discriminate |].
    destruct skipped; discriminate. }
  cbv zeta. destruct (is_SUCCESS r); cbn [outcome_of world_of];
    rewrite queue_set_clock, queue_set_queue by assumption; auto.
Qed.

(** The worker acknowledges SEND at 6.0 s and delivers a frame at 6.2 s to
    a caller that started to poll at 5.9 s: the frame is returned at the
    poll of 6.2 s. *)
Lemma first_reply_with_data_decides_witness :
  let r := mkReply SUCCESS (Some [Byte.xc0; Byte.x00]) in
  let w := Fixture.connected [(6000, mkReply SUCCESS None); (6200, r)] in
  outcome_of (send_and_recieve [] 5 w) = Returned r /\
  queue (world_of (send_and_recieve [] 5 w)) = [] /\
  clock (world_of (send_and_recieve [] 5 w)) = 6200.
Proof.
  intros r w.
  apply (@first_reply_with_data_decides [] 5 w [(6000, mkReply SUCCESS None)]
           6200 r [] [Byte.xc0; Byte.x00]).
  - reflexivity.
  - constructor; [reflexivity | constructor].
  - reflexivity.
  - vm_compute. reflexivity.
Defined.

(** ** C10: the three ways out of [close] *)

(** C10.  When the reply [close] takes off the queue is not a SUCCESS, it
    raises [ConnectError] at once: the worker is not joined and
    [self.comms] still holds the thread.  On a SUCCESS reply and on a
    timeout the worker is joined and [self.comms] is [None]. *)
Theorem close_error_leaves_worker (tmo : Z) (w : World) :
  live w ->
  (forall t r q,
     queue w = (t, r) :: q ->
     wait_clock t (clock w) / 1000 < clock w / 1000 + tmo ->
     let run := close tmo w in
     if is_SUCCESS r
     then outcome_of run = Returned tt /\
          events_of run = [EvPut CLOSE; EvJoin] /\
          comms (self (world_of run)) = None
     else outcome_of run = Raised (ConnectError (rdata r)) /\
          events_of run = [EvPut CLOSE; EvRaise (ConnectError (rdata r))] /\
          ~ In EvJoin (events_of run) /\
          comms (self (world_of run)) <> None /\
          queue (world_of run) = q) /\
  (silent_until (timeout_clock (clock w / 1000 + tmo) (clock w)) (queue w) ->
   let run := close tmo w in
   outcome_of run = Raised CommandTimedOutException /\
   events_of run = [EvPut CLOSE; EvJoin; EvRaise CommandTimedOutException] /\
   comms (self (world_of run)) = None).
Proof.
  intros Hl. split.
  - intros t r q Hq Hw run. subst run.
    rewrite (close_reply tmo w Hq Hw). cbv zeta.
    destruct (is_SUCCESS r); cbn [outcome_of world_of events_of].
    + repeat split.
    + split; [reflexivity |]. split; [reflexivity |].
      split; [| split].
      * cbn. intros [H | [H | []]]; discriminate H.
      * unfold pop_reply, set_clock, with_comms, queue in *.
        concrete_world w; discriminate.
      * eapply queue_pop; exact Hq.
  - intros Hs run. subst run.
    rewrite close_silent by assumption. repeat split.
Qed.

(** The worker answers CLOSE with an ERROR reply: [close] raises, the
    thread stays in [self.comms] and is not joined. *)
Lemma close_error_leaves_worker_witness :
  let r := mkReply ERROR (Some [Byte.x45]) in
  let run := close 10 (Fixture.connected [(0, r)]) in
  outcome_of run = Raised (ConnectError (Some [Byte.x45])) /\
  events_of run = [EvPut CLOSE; EvRaise (ConnectError (Some [Byte.x45]))] /\
  ~ In EvJoin (events_of run) /\
  comms (self (world_of run)) <> None /\
  queue (world_of run) = [].
Proof.
  intros r run.
  assert (Hl : live (Fixture.connected [(0, r)]))
    by (unfold live; cbn; discriminate).
  assert (Hlt : wait_clock 0 (clock (Fixture.connected [(0, r)])) / 1000
                < clock (Fixture.connected [(0, r)]) / 1000 + 10)
    by (vm_compute; reflexivity).
  exact (proj1 (@close_error_leaves_worker 10 (Fixture.connected [(0, r)]) Hl)
               0 r [] eq_refl Hlt).
Defined.

(** ** C2: progress values *)

(** C2.  An image of 2400 bytes goes out in three segments.  The loop adds
    960 to [bytesSent] for the last one too, although only 480 bytes of the
    image were left, so the last per-segment report is
    40 + 30 * 2880 / 2400 = 76; the report that follows is 70.  The
    sequence of [current] values goes down and the per-segment reports leave
    the range from 40 to 70. *)
Theorem progress_overshoots_last_segment :
  let run := printPhoto (PF := Fixture.codec) (Fixture.image 2400)
               record_progress
               (Fixture.world (Fixture.photo_workers 3 [Byte.x00])) in
  outcome_of run = Returned tt /\
  currents_of (events_of run)
  = [PyInt 0; PyInt 10; PyInt 20; PyInt 30; PyInt 40;
     PyFloat 52; PyFloat 64; PyFloat 76;
     PyInt 70; PyInt 90; PyInt 100] /\
  nondecreasing (currents_of (events_of run)) = false.
Proof.
  vm_compute. repeat split.
Qed.

(** ** C3: polling the print status *)

Section StatusPoll.

Context {PF : PacketFactory}.

(** C3.  The worker has the replies to the Type195 commands ready, each
    frame after the acknowledgement of its SEND.  If the N-th reply is the
    first whose return code is [RTN_E_RCV_FRAME] and N is within the
    timeout, [checkPrintStatus] returns [True] after exactly N commands,
    having slept one second after each of the N - 1 replies before it, and
    leaves everything else on the queue.  If the replies are as many as the
    timeout and none carries the sentinel, it sends exactly that many
    commands, sleeps one second after each reply and returns [False]. *)
Theorem checkPrintStatus_polls (tmo : Z) (w : World) (t : Z)
    (frames : list bytes) (pkts : list Packet) (rest : list Arrival)
    (pc : Packet) :
  queue w = answers_at t frames ++ rest ->
  t <= clock w ->
  decode (encoded w Type195Command) = Some pc ->
  decode_to frames pkts ->
  let run := checkPrintStatus tmo w in
  let polled :=
    commands_of (events_of run) = repeat Type195Command (List.length pkts) /\
    responses_of (events_of run) = map (pair Type195Command) pkts /\
    queue (world_of run) = rest in
  (forall before p,
     pkts = before ++ [p] ->
     Forall pending before ->
     accepted p ->
     (List.length pkts <= Z.to_nat tmo)%nat ->
     outcome_of run = Returned true /\
     clock (world_of run) = clock w + 1000 * len before /\
     polled) /\
  (Forall pending pkts ->
   List.length pkts = Z.to_nat tmo ->
   outcome_of run = Returned false /\
   clock (world_of run) = clock w + 1000 * len pkts /\
   polled).
Proof.
  intros Hq Ht Hc Hd run polled. subst run polled. unfold checkPrintStatus.
  split.
  - intros before p -> Hb Ha Hn.
    apply Forall2_app_inv_r in Hd.
    destruct Hd as [fb [fl [Hdb [Hdl ->]]]].
    inversion Hdl as [| f p' ? ? Hf Hnil]; subst. inversion Hnil; subst.
    rewrite length_app in Hn. cbn in Hn.
    replace (Z.to_nat tmo)
      with (List.length before + S (Z.to_nat tmo - List.length before - 1))%nat
      by lia.
    unfold answers_at in Hq. rewrite flat_map_app in Hq. cbn [flat_map] in Hq.
    rewrite app_nil_r, <- app_assoc in Hq.
    assert (Hl : live w).
    { destruct fb; cbn in Hq; eapply queue_live; exact Hq. }
    rewrite checkPrintStatus_loop_pending
      with (t := t) (pc := pc) (rest := answer_at t f ++ rest) (frames := fb);
      auto.
    erewrite checkPrintStatus_loop_accepted with (t := t) (rest := rest).
    + rewrite exchange_moved.
      cbn [outcome_of world_of events_of].
      rewrite commands_of_app, responses_of_app.
      rewrite commands_of_status_exchanges, responses_of_status_exchanges.
      rewrite length_app, map_app, repeat_app.
      rewrite set_queue_set_clock, set_queue_set_queue.
      rewrite queue_set_clock, queue_set_queue by assumption.
      repeat split.
    + rewrite queue_set_clock. apply queue_set_queue. exact Hl.
    + change (t <= clock w + 1000 * len before). unfold len. lia.
    + rewrite encoded_set_clock, encoded_set_queue. exact Hc.
    + exact Hf.
    + exact Ha.
  - intros Hp Hn. rewrite <- Hn.
    replace (List.length pkts) with (List.length pkts + 0)%nat by lia.
    rewrite checkPrintStatus_loop_pending
      with (t := t) (pc := pc) (rest := rest) (frames := frames); auto.
    cbn [checkPrintStatus_loop ret outcome_of world_of events_of].
    rewrite app_nil_r.
    rewrite commands_of_status_exchanges, responses_of_status_exchanges.
    rewrite Nat.add_0_r.
    split; [reflexivity |]. split; [reflexivity |].
    split; [reflexivity |]. split; [reflexivity |].
    rewrite queue_set_clock.
    destruct pkts as [| p0 pkts0].
    + inversion Hd; subst. cbn in Hq. rewrite <- Hq, set_queue_queue.
      reflexivity.
    + apply queue_set_queue. inversion Hd; subst. cbn in Hq.
      eapply queue_live; exact Hq.
Qed.

End StatusPoll.

(** The printer answers the first two polls with return code 127 and the
    third with 0, the sentinel of the scripted codec: [checkPrintStatus(30)]
    returns [True] after three commands and two seconds of sleep, and the
    fourth reply stays on the queue. *)
Lemma checkPrintStatus_polls_witness :
  let status rc := Fixture.reply_to Type195Command rc in
  let frames := [status Byte.x7f; status Byte.x7f; status Byte.x00] in
  let extra := Fixture.answer (status Byte.x00) in
  let w := Fixture.connected (answers_at 0 frames ++ extra) in
  let run := checkPrintStatus (PF := Fixture.codec) 30 w in
  outcome_of run = Returned true /\
  clock (world_of run) = clock w + 2000 /\
  commands_of (events_of run) = repeat Type195Command 3 /\
  queue (world_of run) = extra.
Proof.
  intros status frames extra w run.
  pose (pk := fun rc => mkPacket [("returnCode", PyInt rc);
                                  ("battery", PyInt 80);
                                  ("printCount", PyInt 42)] (PyDict [])).
  assert (Hd : decode_to (PF := Fixture.codec) frames [pk 127; pk 127; pk 0])
    by (repeat constructor).
  assert (Hb : Forall (pending (PF := Fixture.codec)) [pk 127; pk 127])
    by (repeat constructor; eexists; split; reflexivity).
  assert (Ha : accepted (PF := Fixture.codec) (pk 0))
    by (eexists; split; reflexivity).
  assert (Hn : Nat.le (List.length [pk 127; pk 127; pk 0]) (Z.to_nat 30))
    by (vm_compute; lia).
  assert (Ht : 0 <= clock w) by (vm_compute; discriminate).
  destruct (@checkPrintStatus_polls Fixture.codec 30 w 0 frames
              [pk 127; pk 127; pk 0] extra (pk 0) eq_refl Ht eq_refl Hd)
    as [H _].
  destruct (H [pk 127; pk 127] (pk 0) eq_refl Hb Ha Hn)
    as [H1 [H2 [H3 [_ H5]]]].
  split; [exact H1 |]. split; [exact H2 |]. split; [exact H3 | exact H5].
Defined.

(** ** C7: printer information *)

Section Information.

Context {PF : PacketFactory}.

(** C7.  The worker of the connection acknowledges CONNECT, answers the
    three queries and acknowledges CLOSE, all of it ready when polled.
    [getPrinterInformation] then connects, sends exactly the Version,
    ModelName and PrintCount commands in this order, closes, and returns the
    mapping built from their replies: the whole payload of the Version reply,
    the [modelName] field of the ModelName reply, the [battery] and
    [printCount] header fields of the Version reply, the literal 'unknown',
    and the [printHistory] field of the PrintCount reply. *)
Theorem getPrinterInformation_result (w : World) (t : Z)
    (a z : ClientReply) (fv fm fc : bytes) (rest : list Arrival)
    (ev em ec pv pm pc : Packet)
    (dm dc : list (string * pyval)) (model battery count history : pyval) :
  hd [] (workers w) = (t, a) :: answers_at t [fv; fm; fc] ++ (t, z) :: rest ->
  t <= clock w ->
  0 < timeout (self w) ->
  is_SUCCESS a = true ->
  is_SUCCESS z = true ->
  decode (encoded w VersionCommand) = Some ev ->
  decode (encoded w ModelNameCommand) = Some em ->
  decode (encoded w PrintCountCommand) = Some ec ->
  decode fv = Some pv ->
  decode fm = Some pm ->
  decode fc = Some pc ->
  payload pm = PyDict dm ->
  dict_get dm "modelName" = Some model ->
  dict_get (header pv) "battery" = Some battery ->
  dict_get (header pv) "printCount" = Some count ->
  payload pc = PyDict dc ->
  dict_get dc "printHistory" = Some history ->
  let run := getPrinterInformation w in
  outcome_of run
  = Returned [ ("version", payload pv); ("model", model);
               ("battery", battery); ("printCount", count);
               ("specs", PyStr "unknown"); ("count", history) ] /\
  events_of run
  = connect_events w
    ++ exchange w VersionCommand pv
    ++ exchange w ModelNameCommand pm
    ++ exchange w PrintCountCommand pc
    ++ [EvPut CLOSE; EvJoin] /\
  comms (self (world_of run)) = None.
Proof.
  intros Hq Ht Htmo Ha Hz Hev Hem Hec Hpv Hpm Hpc Hdm Hmodel Hbat Hcnt Hdc Hhist
         run.
  subst run.
  enough (Hrun : exists w',
            comms (self w') = None /\
            getPrinterInformation w
            = mkRun (Returned [ ("version", payload pv); ("model", model);
                                ("battery", battery); ("printCount", count);
                                ("specs", PyStr "unknown"); ("count", history) ])
                    w'
                    (connect_events w
                     ++ exchange w VersionCommand pv
                     ++ exchange w ModelNameCommand pm
                     ++ exchange w PrintCountCommand pc
                     ++ [EvPut CLOSE; EvJoin])).
  { destruct Hrun as [w' [Hn ->]]. cbn [outcome_of events_of world_of].
    split; [reflexivity |]. split; [reflexivity | exact Hn]. }
  unfold getPrinterInformation.
  unfold getPrinterVersion, getPrinterModelName, getPrintCount.
  (* connect *)
  unfold bind at 1.
  rewrite (@connect_reply w t a (answers_at t [fv; fm; fc] ++ (t, z) :: rest))
    by (rewrite ?wait_clock_ready by assumption; first [exact Hq | zdiv]).
  rewrite Ha. cbv zeta. rewrite wait_clock_ready by assumption.
  set (w1 := pop_reply (set_clock (connecting w) (clock w))).
  assert (Hq1 : queue w1 = answers_at t [fv; fm; fc] ++ (t, z) :: rest).
  { unfold w1. eapply queue_pop. cbn. exact Hq. }
  assert (Hc1 : clock w1 = clock w) by apply clock_pop.
  assert (He1 : forall c, encoded w1 c = encoded w c) by reflexivity.
  assert (Hl1 : live w1).
  { unfold answers_at in Hq1. cbn in Hq1. eapply queue_live. exact Hq1. }
  unfold answers_at in Hq1. cbn [flat_map] in Hq1.
  rewrite <- !app_assoc in Hq1. rewrite app_nil_l in Hq1.
  (* the three queries *)
  unfold bind at 1.
  rewrite (@sendCommand_answered _ VersionCommand w1 t fv _ ev pv Hq1)
    by (rewrite ?He1, ?Hc1; assumption).
  set (w2 := set_queue w1 _).
  assert (Hq2 : queue w2 = answer_at t fm ++ answer_at t fc ++ (t, z) :: rest)
    by (apply queue_set_queue; exact Hl1).
  assert (Hl2 : live w2) by (apply live_set_queue; exact Hl1).
  assert (He2 : forall c, encoded w2 c = encoded w c)
    by (intros; unfold w2; rewrite encoded_set_queue; apply He1).
  assert (Hc2 : clock w2 = clock w).
  { unfold w2, set_queue, with_comms.
    destruct (comms (self w1)); exact Hc1. }
  unfold bind at 1.
  rewrite (@sendCommand_answered _ ModelNameCommand w2 t fm _ em pm Hq2)
    by (rewrite ?He2, ?Hc2; assumption).
  set (w3 := set_queue w2 _).
  assert (Hq3 : queue w3 = answer_at t fc ++ (t, z) :: rest)
    by (apply queue_set_queue; exact Hl2).
  assert (Hl3 : live w3) by (apply live_set_queue; exact Hl2).
  assert (He3 : forall c, encoded w3 c = encoded w c)
    by (intros; unfold w3; rewrite encoded_set_queue; apply He2).
  assert (Hc3 : clock w3 = clock w).
  { unfold w3, set_queue, with_comms.
    destruct (comms (self w2)); exact Hc2. }
  unfold bind at 1.
  rewrite (@sendCommand_answered _ PrintCountCommand w3 t fc _ ec pc Hq3)
    by (rewrite ?He3, ?Hc3; assumption).
  set (w4 := set_queue w3 _).
  assert (Hq4 : queue w4 = (t, z) :: rest)
    by (apply queue_set_queue; exact Hl3).
  assert (Hc4 : clock w4 = clock w).
  { unfold w4, set_queue, with_comms.
    destruct (comms (self w3)); exact Hc3. }
  (* the mapping *)
  unfold getitem, dict_getitem, bind, ret.
  rewrite Hdm, Hmodel, Hbat, Hcnt, Hdc, Hhist.
  (* close *)
  rewrite (@close_reply 10 w4 t z rest Hq4)
    by (rewrite Hc4, wait_clock_ready by assumption; zdiv).
  rewrite Hz. cbv zeta.
  eexists. split; [| unfold exchange; rewrite ?He1, ?He2, ?He3; reflexivity].
  reflexivity.
Qed.

End Information.

(** The scripted printer of the specification's scenario: version "1.00",
    model "SP-1", battery 80, print count 42 and a print history. *)
Lemma getPrinterInformation_result_witness :
  let frames := [Fixture.reply_to VersionCommand Byte.x00;
                 Fixture.reply_to ModelNameCommand Byte.x00;
                 Fixture.reply_to PrintCountCommand Byte.x00] in
  let w := Fixture.world [Fixture.session frames] in
  outcome_of (getPrinterInformation (PF := Fixture.codec) w)
  = Returned [ ("version", PyStr "1.00"); ("model", PyStr "SP-1");
               ("battery", PyInt 80); ("printCount", PyInt 42);
               ("specs", PyStr "unknown");
               ("count", PyList [PyInt 7; PyInt 35]) ].
Proof.
  intros frames w.
  pose (hdr := [("returnCode", PyInt 0); ("battery", PyInt 80);
                ("printCount", PyInt 42)]).
  refine (proj1 (@getPrinterInformation_result Fixture.codec w 0
            (mkReply SUCCESS None) (mkReply SUCCESS None)
            (Fixture.reply_to VersionCommand Byte.x00)
            (Fixture.reply_to ModelNameCommand Byte.x00)
            (Fixture.reply_to PrintCountCommand Byte.x00) []
            (mkPacket hdr (PyStr "1.00"))
            (mkPacket hdr (PyDict [("modelName", PyStr "SP-1")]))
            (mkPacket hdr (PyDict [("printHistory", PyList [PyInt 7; PyInt 35])]))
            (mkPacket hdr (PyStr "1.00"))
            (mkPacket hdr (PyDict [("modelName", PyStr "SP-1")]))
            (mkPacket hdr (PyDict [("printHistory", PyList [PyInt 7; PyInt 35])]))
            [("modelName", PyStr "SP-1")]
            [("printHistory", PyList [PyInt 7; PyInt 35])]
            (PyStr "SP-1") (PyInt 80) (PyInt 42) (PyList [PyInt 7; PyInt 35])
            eq_refl _ _ eq_refl eq_refl eq_refl eq_refl eq_refl eq_refl eq_refl
            eq_refl eq_refl eq_refl eq_refl eq_refl eq_refl eq_refl));
    vm_compute; first [reflexivity | discriminate].
Defined.

(** ** C8: the arguments of the progress callback *)

(** An image of 1000 bytes goes out in two segments.  The report made after
    the first one passes [40 + 30 * 960 / 1000], the float 68.8: its
    [current] is not an int, nor is its value a whole number. *)
Lemma progress_current_not_int :
  let run := printPhoto (PF := Fixture.codec) (Fixture.image 1000)
               record_progress
               (Fixture.world (Fixture.photo_workers 2 [Byte.x00])) in
  outcome_of run = Returned tt /\
  nth_error (progress_of (events_of run)) 5
  = Some (PyFloat (344 # 5), 100, segment_status 1) /\
  is_int (PyFloat (344 # 5)) = false /\
  is_integral (PyFloat (344 # 5)) = false /\
  forallb (fun p => is_int (fst (fst p))) (progress_of (events_of run))
  = false.
Proof.
  vm_compute. repeat split.
Qed.

(** C8, as amended.  Every call of the progress callback made by
    [printPhoto], for every image, every codec and every state of the client
    and the network, whether the print goes through or is abandoned, passes
    the total 100.  The calls come in a fixed order, and which of them pass
    an int is told by their place: the first five pass the ints 0, 10, 20,
    30 and 40; then comes one call for every segment sent, and the call
    after segment number [k - 1] passes a float, the quotient
    [40 + 30 * bytesSent / L] of a true division, [bytesSent] being the
    [960 * k] the loop has counted by then, with the status
    "Sent image segment k."; the three calls after the image pass the ints
    70, 90 and 100.  A print that returns has made all of these calls, so
    as many with a float as the image has segments. *)
Theorem progress_total_100_current_int_or_float
    {PF : PacketFactory} (imageBytes : bytes) (w : World) :
  let L := len imageBytes in
  let n := segment_count (List.length imageBytes) in
  let run := printPhoto imageBytes record_progress w in
  let reports := progress_of (events_of run) in
  (forall i current total status,
     nth_error reports i = Some (current, total, status) ->
     total = 100 /\
     (((i < 5)%nat /\ current = PyInt (10 * Z.of_nat i)) \/
      ((5 <= i < 5 + n)%nat /\
       current = segment_current L (Z.of_nat (i - 4)) /\
       is_int current = false /\
       status = segment_status (Z.of_nat (i - 4))) \/
      (i = (5 + n)%nat /\ current = PyInt 70) \/
      (i = (6 + n)%nat /\ current = PyInt 90) \/
      (i = (7 + n)%nat /\ current = PyInt 100))) /\
  (outcome_of run = Returned tt -> List.length reports = (n + 8)%nat).
Proof.
  intros L n run reports.
  destruct (printPhoto_reports_prefix imageBytes w)
    as [final [rest [Hf [Hp Hr]]]].
  fold run in Hp, Hr. fold reports in Hp.
  split.
  - intros i current total status Hi.
    assert (Hn : nth_error (photo_reports imageBytes ++ final) i
                 = Some (current, total, status)).
    { rewrite Hp. rewrite nth_error_app1; [exact Hi |].
      apply nth_error_Some. rewrite Hi. discriminate. }
    destruct (photo_reports_nth imageBytes i Hf Hn) as [Ht Hc].
    split; [exact Ht |].
    fold n L in Hc.
    destruct Hc as [Hc | [[Hc [Hv Hs]] | Hc]]; [tauto | | tauto].
    right; left. split; [exact Hc |]. split; [exact Hv |].
    split; [rewrite Hv; reflexivity | exact Hs].
  - intros Ho. specialize (Hr Ho). subst rest. rewrite app_nil_r in Hp.
    rewrite <- Hp. apply photo_reports_length. exact Hf.
Qed.

(** The print of 1000 bytes above: it makes ten calls, eight with an int
    and one for each of its two segments, and the call in the sixth place,
    after the first segment, passes the float 68.8. *)
Lemma progress_total_100_current_int_or_float_witness :
  let img := Fixture.image 1000 in
  let run := printPhoto (PF := Fixture.codec) img record_progress
               (Fixture.world (Fixture.photo_workers 2 [Byte.x00])) in
  outcome_of run = Returned tt /\
  List.length (progress_of (events_of run))
  = (segment_count (List.length img) + 8)%nat /\
  nth_error (progress_of (events_of run)) 5
  = Some (PyFloat (344 # 5), 100, segment_status 1) /\
  PyFloat (344 # 5) = segment_current (len img) 1.
Proof.
  intros img run.
  assert (Hr : outcome_of run = Returned tt) by (vm_compute; reflexivity).
  assert (H5 : nth_error (progress_of (events_of run)) 5
               = Some (PyFloat (344 # 5), 100, segment_status 1))
    by (vm_compute; reflexivity).
  pose proof (@progress_total_100_current_int_or_float Fixture.codec img
                (Fixture.world (Fixture.photo_workers 2 [Byte.x00]))) as H.
  cbv zeta in H. destruct H as [Hc Hl].
  split; [exact Hr |]. split; [exact (Hl Hr) |]. split; [exact H5 |].
  destruct (Hc _ _ _ _ H5)
    as [_ [[Hlt _] | [[_ [Hcur _]] | [[Hi _] | [[Hi _] | [Hi _]]]]]].
  - lia.
  - exact Hcur.
  - vm_compute in Hi. discriminate.
  - vm_compute in Hi. discriminate.
  - vm_compute in Hi. discriminate.
Defined.

(** ** C6: the one failure [printPhoto] absorbs *)

Section Absorbed.

Context {PF : PacketFactory}.


End Absorbed.


(** ** C1: the segments of an image *)

Section Segmentation.

Context {PF : PacketFactory}.

(** C1.  For every image, of length [L], and every state of the client and
    the network: the [i]-th call of [sendSendImageCommand] that [printPhoto]
    makes, counting from 0, passes the sequence number [i] and 960 bytes,
    the bytes of the image from offset [960 * i] followed by zero bytes when
    fewer than 960 are left there; every segment but the last is the next
    960 bytes of the image as they are.  This holds in an abandoned print
    too, for the segments sent so far.  When nothing is raised [printPhoto]
    returns, the segments are [ceil(L / 960)], and their payloads
    concatenated and cut at [L] are the image. *)
Theorem image_sent_in_segments (imageBytes : bytes) (w : World) :
  let run := printPhoto imageBytes record_progress w in
  let segs := segments_of (events_of run) in
  let L := List.length imageBytes in
  (forall i s, nth_error segs i = Some s ->
     fst s = Z.of_nat i /\
     List.length (snd s) = 960%nat /\
     snd s = firstn 960 (skipn (960 * i) imageBytes)
             ++ repeat Byte.x00 (960 - (L - 960 * i)) /\
     ((S i < segment_count L)%nat ->
      snd s = firstn 960 (skipn (960 * i) imageBytes))) /\
  (raises_of (events_of run) = [] ->
   outcome_of run = Returned tt /\
   List.length segs = segment_count L /\
   firstn L (List.concat (map snd segs)) = imageBytes).
Proof.
  intros run segs L.
  pose proof (printPhoto_sends_loop imageBytes w) as Hs.
  pose proof (printPhoto_tidy imageBytes w) as Ht.
  rewrite loop_segments_image in Hs.
  fold run in Hs, Ht. unfold sends, tidy in *. fold segs in Hs.
  assert (Hpre : exists rest, image_segments imageBytes = segs ++ rest).
  { destruct (outcome_of run); [exists []; rewrite app_nil_r; symmetry |..];
      assumption. }
  split.
  - intros i s Hi. destruct Hpre as [rest Hrest].
    assert (Hn : nth_error (image_segments imageBytes) i = Some s).
    { rewrite Hrest, nth_error_app1; [exact Hi |].
      apply nth_error_Some. congruence. }
    apply image_segments_nth in Hn. subst s. cbn [fst snd].
    split; [reflexivity |]. split; [apply nth_segment_length |]. split.
    + unfold nth_segment, pad. rewrite length_firstn, length_skipn.
      fold L. f_equal. f_equal. lia.
    + intros Hlast. apply nth_segment_full. fold L.
      unfold segment_count in Hlast. ndiv.
  - intros Hr. destruct (outcome_of run) as [[] | e |].
    + split; [reflexivity |]. rewrite Hs. split.
      * apply image_segments_length.
      * apply image_segments_concat.
    + rewrite Hr in Ht. discriminate Ht.
    + contradiction.
Qed.

End Segmentation.

(** An image of 2400 bytes, with a printer that answers everything: three
    segments, numbered 0, 1 and 2, the last one with 480 bytes of the image
    and 480 zero bytes. *)
Lemma image_sent_in_segments_witness :
  let img := Fixture.image 2400 in
  let run := printPhoto (PF := Fixture.codec) img record_progress
               (Fixture.world (Fixture.photo_workers 3 [Byte.x00])) in
  let segs := segments_of (events_of run) in
  raises_of (events_of run) = [] /\
  (outcome_of run = Returned tt /\
   List.length segs = segment_count (List.length img) /\
   firstn (List.length img) (List.concat (map snd segs)) = img) /\
  segment_count (List.length img) = 3%nat /\
  map fst segs = [0; 1; 2] /\
  nth_error (map snd segs) 2
  = Some (skipn 1920 img ++ repeat Byte.x00 480).
Proof.
  intros img run segs.
  assert (Hr : raises_of (events_of run) = []) by (vm_compute; reflexivity).
  split; [exact Hr |]. split.
  - exact (proj2 (@image_sent_in_segments Fixture.codec img
                    (Fixture.world (Fixture.photo_workers 3 [Byte.x00])))
                 Hr).
  - vm_compute. repeat split.
Defined.

(** * Further properties of the client *)

(** ** [connect] and [close] against a worker that replies *)

(** X1.  The first reply of the new worker thread, whatever it carries,
    ends [connect], provided it comes before the loop gives up: [connect]
    returns on SUCCESS and raises [ConnectError] with the data of the reply
    otherwise, also when that data is [None].  It has then queued one
    CONNECT command with the address of the object, the new thread is
    stored in [self.comms], started and not joined, and less than 0.1 s
    have passed since the reply was there. *)
Theorem connect_first_reply_decides (w : World) t r q :
  hd [] (workers w) = (t, r) :: q ->
  wait_clock t (clock w) / 1000 < clock w / 1000 + timeout (self w) ->
  let run := connect w in
  outcome_of run
  = (if is_SUCCESS r then Returned tt else Raised (ConnectError (rdata r))) /\
  events_of run
  = [EvStart; EvPut (CONNECT (ip (self w)) (port (self w)))]
    ++ (if is_SUCCESS r then [] else [EvRaise (ConnectError (rdata r))]) /\
  comms (self (world_of run)) = Some (mkThread q true) /\
  Z.max t (clock w) <= clock (world_of run) < Z.max t (clock w) + 100.
Proof.
  intros Hq Ht run. unfold run. rewrite (@connect_reply w t r q Hq Ht).
  assert (Hc : comms (self (pop_reply (set_clock (connecting w)
                                         (wait_clock t (clock w)))))
               = Some (mkThread q true)).
  { unfold pop_reply, set_clock, connecting, with_comms. cbn. rewrite Hq.
    reflexivity. }
  assert (Hk : clock (pop_reply (set_clock (connecting w)
                                   (wait_clock t (clock w))))
               = wait_clock t (clock w)) by apply clock_pop.
  pose proof (wait_clock_ge t (clock w)).
  pose proof (wait_clock_arrived t (clock w)).
  pose proof (wait_clock_lt t (clock w)).
  cbv zeta.
  destruct (is_SUCCESS r); cbn [outcome_of events_of world_of];
    rewrite Hc, Hk; (split; [reflexivity |]); (split; [reflexivity |]);
    (split; [reflexivity | lia]).
Qed.

(** A printer that refuses the connection 0.1 s after the call, with a reply
    that carries no data. *)
Lemma connect_first_reply_decides_witness :
  let w := Fixture.world [[(6000, mkReply ERROR None)]] in
  outcome_of (connect w) = Raised (ConnectError None) /\
  comms (self (world_of (connect w))) = Some (mkThread [] true) /\
  clock (world_of (connect w)) = 6000.
Proof.
  intros w.
  assert (Hq : hd [] (workers w) = (6000, mkReply ERROR None) :: [])
    by reflexivity.
  assert (Ht : wait_clock 6000 (clock w) / 1000
               < clock w / 1000 + timeout (self w))
    by (vm_compute; reflexivity).
  destruct (@connect_first_reply_decides w 6000 (mkReply ERROR None) [] Hq Ht)
    as [H1 [_ [H3 H4]]].
  split; [exact H1 |]. split; [exact H3 |].
  change (Z.max 6000 (clock w)) with 6000 in H4.
  vm_compute. reflexivity.
Defined.

(** X2.  A SUCCESS reply that comes before the loop gives up, with or
    without data, ends [close]: it has queued one CLOSE command, joined the
    worker thread and set [self.comms] to [None], and it returns. *)
Theorem close_success_joins (tmo : Z) (w : World) t r q :
  queue w = (t, r) :: q ->
  is_SUCCESS r = true ->
  wait_clock t (clock w) / 1000 < clock w / 1000 + tmo ->
  let run := close tmo w in
  outcome_of run = Returned tt /\
  events_of run = [EvPut CLOSE; EvJoin] /\
  comms (self (world_of run)) = None /\
  Z.max t (clock w) <= clock (world_of run) < Z.max t (clock w) + 100.
Proof.
  intros Hq Hs Ht run. unfold run. rewrite (@close_reply tmo w t r q Hq Ht).
  cbv zeta. rewrite Hs. cbn [outcome_of events_of world_of].
  pose proof (wait_clock_ge t (clock w)).
  pose proof (wait_clock_arrived t (clock w)).
  pose proof (wait_clock_lt t (clock w)).
  split; [reflexivity |]. split; [reflexivity |]. split; [reflexivity |].
  change (clock (with_comms ?x None)) with (clock x).
  rewrite clock_pop. lia.
Qed.

Lemma close_success_joins_witness :
  let w := Fixture.connected [Fixture.ack] in
  outcome_of (close 10 w) = Returned tt /\
  events_of (close 10 w) = [EvPut CLOSE; EvJoin] /\
  comms (self (world_of (close 10 w))) = None.
Proof.
  intros w.
  assert (Hq : queue w = Fixture.ack :: []) by reflexivity.
  assert (Ht : wait_clock 0 (clock w) / 1000 < clock w / 1000 + 10)
    by (vm_compute; reflexivity).
  destruct (@close_success_joins 10 w 0 (mkReply SUCCESS None) [] Hq
              eq_refl Ht) as [H1 [H2 [H3 _]]].
  split; [exact H1 |]. split; [exact H2 | exact H3].
Defined.

(** ** Commands without a connection *)

Section NoConnection.

Context {PF : PacketFactory}.

(** X3.  Once [close] has returned, the object has no thread: a command or
    a second [close] raises [AttributeError] on its first use of
    [self.comms], and queues nothing. *)
Theorem command_after_close_fails (tmo tmo' : Z) (w : World) t r q c pc :
  queue w = (t, r) :: q ->
  is_SUCCESS r = true ->
  wait_clock t (clock w) / 1000 < clock w / 1000 + tmo ->
  decode (encoded w c) = Some pc ->
  let again := (close tmo ;; close tmo')%monad w in
  let command := (close tmo ;; sendCommand c)%monad w in
  outcome_of again = Raised AttributeError /\
  events_of again = [EvPut CLOSE; EvJoin; EvRaise AttributeError] /\
  outcome_of command = Raised AttributeError /\
  events_of command
  = [EvPut CLOSE; EvJoin; EvCommand c; EvRaise AttributeError].
Proof.
  intros Hq Hs Ht Hc again command. unfold again, command, bind.
  rewrite (@close_reply tmo w t r q Hq Ht). cbv zeta. rewrite Hs.
  assert (He : forall k,
             encoded (with_comms (pop_reply (set_clock w k)) None) c
             = encoded w c).
  { intros k. clear. unfold encoded, with_comms, pop_reply, set_clock.
    concrete_world w; reflexivity. }
  set (w1 := with_comms _ None).
  assert (Hd : comms (self w1) = None) by reflexivity.
  specialize (He (wait_clock t (clock w))). fold w1 in He.
  rewrite (@close_dead tmo' w1 Hd).
  rewrite (@sendCommand_dead PF c w1 pc Hd) by (rewrite He; exact Hc).
  repeat split.
Qed.

End NoConnection.

Lemma command_after_close_fails_witness :
  let w := Fixture.connected [Fixture.ack] in
  outcome_of ((close 10 ;; sendCommand (PF := Fixture.codec) VersionCommand)%monad w)
  = Raised AttributeError /\
  events_of ((close 10 ;; sendCommand (PF := Fixture.codec) VersionCommand)%monad w)
  = [EvPut CLOSE; EvJoin; EvCommand VersionCommand; EvRaise AttributeError].
Proof.
  intros w.
  assert (Hq : queue w = Fixture.ack :: []) by reflexivity.
  assert (Ht : wait_clock 0 (clock w) / 1000 < clock w / 1000 + 10)
    by (vm_compute; reflexivity).
  destruct (@command_after_close_fails Fixture.codec 10 10 w 0
              (mkReply SUCCESS None) [] VersionCommand _ Hq eq_refl Ht eq_refl)
    as [_ [_ [H3 H4]]].
  split; [exact H3 | exact H4].
Defined.

(** ** Timeouts that leave no time *)

(** X4.  With a timeout of zero or less the loops of [send_and_recieve] and
    [close] are not entered: the call raises [CommandTimedOutException]
    at once and takes nothing off the reply queue, not even a reply that is
    there.  [send_and_recieve] has queued its two commands all the same, and
    [close] has queued CLOSE, joined the worker and cleared [self.comms]. *)
Theorem no_time_no_poll (cmdBytes : bytes) (tmo : Z) (w : World) :
  live w ->
  tmo <= 0 ->
  send_and_recieve cmdBytes tmo w
  = mkRun (Raised CommandTimedOutException) w
          [EvPut (SEND cmdBytes); EvPut RECEIVE;
           EvRaise CommandTimedOutException] /\
  close tmo w
  = mkRun (Raised CommandTimedOutException) (with_comms w None)
          [EvPut CLOSE; EvJoin; EvRaise CommandTimedOutException].
Proof.
  intros Hl Ht. split.
  - apply send_and_recieve_expired; assumption.
  - apply close_expired; assumption.
Qed.

(** A reply with data is ready, and stays on the queue. *)
Lemma no_time_no_poll_witness :
  let ready := [(0, mkReply SUCCESS (Some [Byte.xc0; Byte.x00]))] in
  let w := Fixture.connected ready in
  outcome_of (send_and_recieve [Byte.x01] 0 w)
  = Raised CommandTimedOutException /\
  queue (world_of (send_and_recieve [Byte.x01] 0 w)) = ready.
Proof.
  intros ready w.
  assert (Hl : live w) by discriminate.
  assert (Ht : 0 <= 0) by lia.
  destruct (@no_time_no_poll [Byte.x01] 0 w Hl Ht) as [H _].
  rewrite H. split; reflexivity.
Defined.

(** ** [sendCommand] *)

Section Commands.

Context {PF : PacketFactory}.

(** X5.  [sendCommand] waits for its reply with the literal timeout 5,
    whatever timeout the object holds: with a worker that stays silent it
    queues SEND, with the command encoded under the time stamp and the pin
    code of the object, and RECEIVE, polls until the whole second of the
    clock has advanced by five, and raises [CommandTimedOutException],
    between 4 s and 5.1 s after the call. *)
Theorem sendCommand_gives_up_after_five_seconds (c : Command) (w : World) pc :
  live w ->
  decode (encoded w c) = Some pc ->
  silent_until (timeout_clock (clock w / 1000 + 5) (clock w)) (queue w) ->
  let run := sendCommand c w in
  outcome_of run = Raised CommandTimedOutException /\
  events_of run
  = [EvCommand c;
     EvPut (SEND (encodeCommand c (currentTimeMillis (self w))
                                (pinCode (self w))));
     EvPut RECEIVE;
     EvRaise CommandTimedOutException] /\
  clock w / 1000 + 5 <= clock (world_of run) / 1000 /\
  4000 < clock (world_of run) - clock w < 5100.
Proof.
  intros Hl Hc Hs run. unfold run.
  rewrite (@sendCommand_silent PF c w pc Hl Hc Hs).
  cbn [outcome_of events_of world_of set_clock clock].
  destruct (timeout_clock_gave_up 5 (clock w)) as [_ [H1 [_ H2]]].
  specialize (H2 ltac:(lia)).
  split; [reflexivity |]. split; [reflexivity |]. split; [exact H1 | lia].
Qed.

(** X6.  [sendCommand] does not check that a reply answers its command: a
    reply that comes after the five seconds of one command is returned,
    decoded, as the response of the next command. *)
Theorem late_reply_answers_next_command
    (c1 c2 : Command) (w : World) t frame rest pc1 pc2 p :
  queue w = (t, mkReply SUCCESS (Some frame)) :: rest ->
  decode (encoded w c1) = Some pc1 ->
  decode (encoded w c2) = Some pc2 ->
  decode frame = Some p ->
  let T := timeout_clock (clock w / 1000 + 5) (clock w) in
  T <= t ->
  wait_clock t T / 1000 < T / 1000 + 5 ->
  let first := sendCommand c1 w in
  let second := sendCommand c2 (world_of first) in
  outcome_of first = Raised CommandTimedOutException /\
  outcome_of second = Returned p /\
  responses_of (events_of second) = [(c2, p)] /\
  queue (world_of second) = rest.
Proof.
  intros Hq Hc1 Hc2 Hp T Hlate Hin first second.
  assert (Hl : live w) by (eapply queue_live; exact Hq).
  assert (Hs : silent_until T (queue w)) by (rewrite Hq; exact Hlate).
  unfold second, first.
  rewrite (@sendCommand_silent PF c1 w pc1 Hl Hc1 Hs).
  cbn [outcome_of world_of]. fold T.
  rewrite (@sendCommand_decides PF c2 (set_clock w T) [] t frame rest pc2 p).
  - cbn [outcome_of events_of world_of].
    split; [reflexivity |]. split; [reflexivity |]. split; [reflexivity |].
    rewrite queue_set_clock. apply queue_set_queue. exact Hl.
  - rewrite queue_set_clock. exact Hq.
  - constructor.
  - exact Hin.
  - rewrite encoded_set_clock. exact Hc2.
  - exact Hp.
Qed.

End Commands.

Lemma sendCommand_gives_up_after_five_seconds_witness :
  let w := with_comms
             (mkWorld (mkSP1 default_ip default_port 60 default_pinCode 0 None)
                      5900 [])
             (Some (mkThread [] true)) in
  let run := sendCommand (PF := Fixture.codec) VersionCommand w in
  outcome_of run = Raised CommandTimedOutException /\
  clock (world_of run) = 10000.
Proof.
  intros w run.
  assert (Hl : live w) by discriminate.
  destruct (@sendCommand_gives_up_after_five_seconds Fixture.codec
              VersionCommand w _ Hl eq_refl I) as [H1 _].
  split; [exact H1 | vm_compute; reflexivity].
Defined.

(** The answer to the Version command comes 5.1 s after the call, and is
    returned as the model name. *)
Lemma late_reply_answers_next_command_witness :
  let frame := Fixture.reply_to VersionCommand Byte.x00 in
  let w := Fixture.connected [(11000, mkReply SUCCESS (Some frame))] in
  let first := sendCommand (PF := Fixture.codec) VersionCommand w in
  let second := sendCommand (PF := Fixture.codec) ModelNameCommand
                  (world_of first) in
  outcome_of first = Raised CommandTimedOutException /\
  option_map payload (decode (PacketFactory := Fixture.codec) frame)
  = Some (PyStr "1.00") /\
  responses_of (events_of second)
  = [(ModelNameCommand,
      mkPacket [("returnCode", PyInt 0); ("battery", PyInt 80);
                ("printCount", PyInt 42)] (PyStr "1.00"))].
Proof.
  intros frame w first second.
  assert (Hq : queue w = (11000, mkReply SUCCESS (Some frame)) :: [])
    by reflexivity.
  assert (H1 : timeout_clock (clock w / 1000 + 5) (clock w) <= 11000)
    by (vm_compute; discriminate).
  assert (H2 : wait_clock 11000 (timeout_clock (clock w / 1000 + 5) (clock w))
               / 1000
               < timeout_clock (clock w / 1000 + 5) (clock w) / 1000 + 5)
    by (vm_compute; reflexivity).
  destruct (@late_reply_answers_next_command Fixture.codec VersionCommand
              ModelNameCommand w 11000 frame [] _ _ _ Hq eq_refl eq_refl
              eq_refl H1 H2) as [G1 [_ [G3 _]]].
  split; [exact G1 |]. split; [reflexivity | exact G3].
Defined.

(** ** The course of [printPhoto] *)

Section Course.

Context {PF : PacketFactory}.

(** X7.  The commands of a print, for every image and every state of the
    client and the network: the eight PrePrint commands numbered 1 to 8,
    PrinterLock 1, Reset, PrepImage 2 0 with the length of the image, one
    SendImage per segment, Type 83, LockState, Version, ModelName, and then
    between one and thirty Type 195 status polls, in this order.  A print
    that returns has issued all of them and nothing else; an abandoned one
    has issued the first of them. *)
Theorem printPhoto_command_order (imageBytes : bytes) (w : World) :
  let run := printPhoto imageBytes record_progress w in
  let cmds := commands_of (events_of run) in
  (exists polls rest,
     status_polls polls /\ photo_commands imageBytes ++ polls = cmds ++ rest) /\
  (outcome_of run = Returned tt ->
   exists polls,
     status_polls polls /\ cmds = photo_commands imageBytes ++ polls).
Proof.
  intros run cmds.
  pose proof (printPhoto_commands imageBytes w) as H.
  fold run in H. unfold emits_then in H.
  change (flat_map command_of (events_of run)) with cmds in H.
  destruct (outcome_of run) as [[] | e |].
  - destruct H as [t [Ht Hc]]. split.
    + exists t, []. split; [exact Ht | rewrite app_nil_r; symmetry; exact Hc].
    + intros _. exists t. split; [exact Ht | exact Hc].
  - split; [exact H | discriminate].
  - split; [exact H | discriminate].
Qed.

(** X8.  The calls of the progress callback in a print, for every image and
    every state of the client and the network: 0, 10, 20, 30 and 40 with
    the status of their phase, one report per segment sent, the [k]-th with
    [40 + 30 * (960 * k) / L] and its number, then 70, 90, and a last one
    with 100 and either "Print is complete!" or
    "Timed out waiting for print..".  A print that returns has made all of
    these calls and no other; an abandoned one has made the first of
    them. *)
Theorem printPhoto_progress_sequence (imageBytes : bytes) (w : World) :
  let run := printPhoto imageBytes record_progress w in
  let reports := progress_of (events_of run) in
  (exists final rest,
     last_report final /\ photo_reports imageBytes ++ final = reports ++ rest) /\
  (outcome_of run = Returned tt ->
   exists final,
     last_report final /\ reports = photo_reports imageBytes ++ final).
Proof.
  intros run reports.
  pose proof (printPhoto_reports imageBytes w) as H.
  fold run in H. unfold emits_then in H.
  change (flat_map report_of (events_of run)) with reports in H.
  destruct (outcome_of run) as [[] | e |].
  - destruct H as [t [Ht Hc]]. split.
    + exists t, []. split; [exact Ht | rewrite app_nil_r; symmetry; exact Hc].
    + intros _. exists t. split; [exact Ht | exact Hc].
  - split; [exact H | discriminate].
  - split; [exact H | discriminate].
Qed.

End Course.

(** A print of 2400 bytes that the printer completes at the second status
    poll. *)
Lemma printPhoto_command_order_witness :
  let img := Fixture.image 2400 in
  let run := printPhoto (PF := Fixture.codec) img record_progress
               (Fixture.world
                  (Fixture.photo_workers 3 [Byte.x7f; Byte.x00])) in
  outcome_of run = Returned tt /\
  (exists polls,
     status_polls polls /\
     commands_of (events_of run) = photo_commands img ++ polls) /\
  List.length (commands_of (events_of run)) = 20%nat.
Proof.
  intros img run.
  assert (Hr : outcome_of run = Returned tt) by (vm_compute; reflexivity).
  split; [exact Hr |]. split.
  - exact (proj2 (@printPhoto_command_order Fixture.codec img _) Hr).
  - vm_compute. reflexivity.
Defined.

Lemma printPhoto_progress_sequence_witness :
  let img := Fixture.image 2400 in
  let run := printPhoto (PF := Fixture.codec) img record_progress
               (Fixture.world
                  (Fixture.photo_workers 3 [Byte.x7f; Byte.x00])) in
  outcome_of run = Returned tt /\
  (exists final,
     last_report final /\
     progress_of (events_of run) = photo_reports img ++ final) /\
  List.length (progress_of (events_of run)) = 11%nat.
Proof.
  intros img run.
  assert (Hr : outcome_of run = Returned tt) by (vm_compute; reflexivity).
  split; [exact Hr |]. split.
  - exact (proj2 (@printPhoto_progress_sequence Fixture.codec img _) Hr).
  - vm_compute. reflexivity.
Defined.

(** ** Outcomes in any state *)

(** X9.  What [send_and_recieve] returns, with a thread in [self.comms]
    and whatever the worker does, is a reply that the worker enqueued, of
    type SUCCESS and with data.  It raises nothing but
    [CommandTimedOutException] or [ConnectError] with the data of a
    reply of type ERROR that the worker enqueued; and it ends. *)
Theorem send_and_recieve_returns_worker_reply
    (cmdBytes : bytes) (tmo : Z) (w : World) :
  live w ->
  let run := send_and_recieve cmdBytes tmo w in
  (forall r, outcome_of run = Returned r ->
     is_SUCCESS r = true /\
     (exists data, rdata r = Some data) /\
     (exists t, In (t, r) (queue w)) /\
     live (world_of run)) /\
  (forall e, outcome_of run = Raised e ->
     e = CommandTimedOutException \/
     exists data t,
       e = ConnectError (Some data) /\
       In (t, mkReply ERROR (Some data)) (queue w)) /\
  outcome_of run <> OutOfFuel.
Proof.
  intros Hl run. pose proof (@send_and_recieve_sound cmdBytes tmo w Hl) as H.
  cbv zeta in H. fold run in H.
  destruct (outcome_of run) as [r | e |].
  - split; [| split; [discriminate | discriminate]].
    intros r' Hr. injection Hr as <-.
    destruct H as [H1 [H2 [H3 H4]]]. repeat split; assumption.
  - split; [discriminate |]. split; [| discriminate].
    intros e' He. injection He as <-. exact (proj1 H).
  - contradiction.
Qed.

(** An acknowledgement without data, then an ERROR reply with data. *)
Lemma send_and_recieve_returns_worker_reply_witness :
  let w := Fixture.connected [Fixture.ack;
                              (0, mkReply ERROR (Some [Byte.x07]))] in
  outcome_of (send_and_recieve [Byte.x01] 5 w)
  = Raised (ConnectError (Some [Byte.x07])) /\
  (ConnectError (Some [Byte.x07]) = CommandTimedOutException \/
   exists data t,
     ConnectError (Some [Byte.x07]) = ConnectError (Some data) /\
     In (t, mkReply ERROR (Some data)) (queue w)).
Proof.
  intros w.
  assert (Hl : live w) by discriminate.
  assert (Ho : outcome_of (send_and_recieve [Byte.x01] 5 w)
               = Raised (ConnectError (Some [Byte.x07])))
    by (vm_compute; reflexivity).
  split; [exact Ho |].
  exact (proj1 (proj2 (@send_and_recieve_returns_worker_reply
                         [Byte.x01] 5 w Hl)) _ Ho).
Defined.

Section Outcomes.

Context {PF : PacketFactory}.

(** X10.  [printPhoto], for every image and from every state of the
    client and the network, ends.  When it returns, [self.comms] is [None]:
    each of its five connections has been closed.  When it raises, the
    exception is [CommandTimedOutException], [ConnectError],
    a decoding error or the [KeyError] of a status reply without return
    code; it is never [AttributeError], [TypeError] or
    [ZeroDivisionError], not even for the empty image. *)
Theorem printPhoto_outcomes (imageBytes : bytes) (w : World) :
  let run := printPhoto imageBytes record_progress w in
  match outcome_of run with
  | Returned _ => comms (self (world_of run)) = None
  | Raised e =>
      e = CommandTimedOutException \/ (exists d, e = ConnectError d) \/
      e = DecodeError \/ e = KeyError "returnCode"
  | OutOfFuel => False
  end.
Proof.
  intros run.
  pose proof (@printPhoto_hoare PF imageBytes (fun _ => True) w Logic.I) as H.
  fold run in H.
  destruct (outcome_of run) as [a | e |]; [exact H | | exact H].
  destruct H as [H _].
  unfold photo_exn, command_exn, transport_exn in H. tauto.
Qed.

(** X11.  [getPrinterInformation], from every state of the client and the
    network, ends.  When it returns, [self.comms] is [None].  When it
    raises, the exception is [CommandTimedOutException], [ConnectError], a
    decoding error, the [TypeError] of a payload that is no dict, or the
    [KeyError] of one of the four keys it reads. *)
Theorem getPrinterInformation_outcomes (w : World) :
  let run := getPrinterInformation w in
  match outcome_of run with
  | Returned _ => comms (self (world_of run)) = None
  | Raised e =>
      e = CommandTimedOutException \/ (exists d, e = ConnectError d) \/
      e = DecodeError \/ e = TypeError \/
      e = KeyError "modelName" \/ e = KeyError "battery" \/
      e = KeyError "printCount" \/ e = KeyError "printHistory"
  | OutOfFuel => False
  end.
Proof.
  intros run.
  pose proof (@getPrinterInformation_hoare PF (fun _ => True) w Logic.I) as H.
  fold run in H.
  destruct (outcome_of run) as [a | e |]; [exact H | | exact H].
  destruct H as [H _].
  unfold information_exn, command_exn, transport_exn in H. tauto.
Qed.

(** X12.  [checkPrintStatus] in any state: it sends Type 195 commands and
    nothing else, at most [timeout] of them.  It returns [True] only when
    the last response carries the sentinel return code and the ones before
    it another code, and [False] only after [timeout] responses with another
    code.  With a timeout of zero or less it returns [False] at once and
    sends nothing. *)
Theorem checkPrintStatus_sound (timeout : Z) (w : World) :
  let run := checkPrintStatus timeout w in
  let st := status_of (events_of run) in
  (exists k, (k <= Z.to_nat timeout)%nat /\
             commands_of (events_of run) = repeat Type195Command k) /\
  (outcome_of run = Returned true ->
   exists before p, st = before ++ [p] /\ Forall pending before /\ accepted p) /\
  (outcome_of run = Returned false ->
   Forall pending st /\ List.length st = Z.to_nat timeout) /\
  (timeout <= 0 -> run = mkRun (Returned false) w []).
Proof.
  intros run st. unfold run, checkPrintStatus in *.
  pose proof (checkPrintStatus_loop_polled (Z.to_nat timeout) w) as Hp.
  unfold polled in Hp. fold st in Hp.
  destruct (checkPrintStatus_loop_commands (Z.to_nat timeout) w)
    as [k [Hk [Hc _]]].
  split; [exists k; split; assumption |].
  split; [| split].
  - intros Ho. rewrite Ho in Hp. exact (proj2 Hp).
  - intros Ho. rewrite Ho in Hp. exact (proj2 Hp).
  - intros Ht. replace (Z.to_nat timeout) with 0%nat by lia. reflexivity.
Qed.

(** X13.  What [getPrinterInformation] returns, in any state in which it
    returns: it has had three responses, to the Version, ModelName and
    PrintCount commands in this order, and its result has the six keys
    version, model, battery, printCount, specs and count, with the payload
    of the first response, the model name in the payload of the second, the
    battery level and the print count in the header of the first (not of
    the third), the string "unknown", and the print history in the payload
    of the third. *)
Theorem getPrinterInformation_assembles (w : World) info :
  outcome_of (getPrinterInformation w) = Returned info ->
  exists pv pm pc dm dc model battery count history,
    responses_of (events_of (getPrinterInformation w))
    = [(VersionCommand, pv); (ModelNameCommand, pm); (PrintCountCommand, pc)] /\
    payload pm = PyDict dm /\ dict_get dm "modelName" = Some model /\
    dict_get (header pv) "battery" = Some battery /\
    dict_get (header pv) "printCount" = Some count /\
    payload pc = PyDict dc /\ dict_get dc "printHistory" = Some history /\
    info = [("version", payload pv); ("model", model); ("battery", battery);
            ("printCount", count); ("specs", PyStr "unknown");
            ("count", history)].
Proof.
  intros Hret.
  unfold getPrinterInformation, getPrinterVersion, getPrinterModelName,
    getPrintCount in *.
  apply bind_Returned in Hret. destruct Hret as [[] [Hc [Hret Hev]]].
  rewrite Hev. clear Hev. cbv beta in *.
  pose proof (@quiet_Returned_no_responses _ (connect w) tt (connect_quiet w) Hc) as Rc.
  set (w1 := world_of (connect w)) in *.
  apply bind_Returned in Hret. destruct Hret as [pv [Hv [Hret Hev]]].
  rewrite Hev. clear Hev. cbv beta in *.
  pose proof (@sendCommand_Returned_response PF _ _ _ Hv) as Rv.
  set (w2 := world_of (sendCommand VersionCommand w1)) in *.
  apply bind_Returned in Hret. destruct Hret as [pm [Hm [Hret Hev]]].
  rewrite Hev. clear Hev. cbv beta in *.
  pose proof (@sendCommand_Returned_response PF _ _ _ Hm) as Rm.
  set (w3 := world_of (sendCommand ModelNameCommand w2)) in *.
  apply bind_Returned in Hret. destruct Hret as [pc [Hp [Hret Hev]]].
  rewrite Hev. clear Hev. cbv beta in *.
  pose proof (@sendCommand_Returned_response PF _ _ _ Hp) as Rp.
  set (w4 := world_of (sendCommand PrintCountCommand w3)) in *.
  apply bind_Returned in Hret. destruct Hret as [model [H1 [Hret Hev]]].
  rewrite Hev. clear Hev. cbv beta in *.
  apply getitem_Returned in H1. destruct H1 as [[dm [Hdm Hmodel]] E1].
  rewrite E1 in *. cbn [world_of events_of] in *.
  apply bind_Returned in Hret. destruct Hret as [battery [H2 [Hret Hev]]].
  rewrite Hev. clear Hev. cbv beta in *.
  apply dict_getitem_Returned in H2. destruct H2 as [Hbat E2].
  rewrite E2 in *. cbn [world_of events_of] in *.
  apply bind_Returned in Hret. destruct Hret as [count [H3 [Hret Hev]]].
  rewrite Hev. clear Hev. cbv beta in *.
  apply dict_getitem_Returned in H3. destruct H3 as [Hcount E3].
  rewrite E3 in *. cbn [world_of events_of] in *.
  apply bind_Returned in Hret. destruct Hret as [history [H4 [Hret Hev]]].
  rewrite Hev. clear Hev. cbv beta in *.
  apply getitem_Returned in H4. destruct H4 as [[dc [Hdc Hhist]] E4].
  rewrite E4 in *. cbn [world_of events_of] in *.
  apply bind_Returned in Hret. destruct Hret as [[] [Hcl [Hret Hev]]].
  rewrite Hev. clear Hev. cbv beta in *.
  pose proof (@quiet_Returned_no_responses _ (close 10 w4) tt (close_quiet 10 w4) Hcl) as Rcl.
  cbn in Hret. injection Hret as <-.
  exists pv, pm, pc, dm, dc, model, battery, count, history.
  split.
  - rewrite !responses_of_app, Rc, Rv, Rm, Rp, Rcl. reflexivity.
  - repeat split; assumption.
Qed.

End Outcomes.

(** The scripted printer answers the three queries. *)
Lemma getPrinterInformation_assembles_witness :
  let w := Fixture.world
             [Fixture.session [Fixture.reply_to VersionCommand Byte.x00;
                               Fixture.reply_to ModelNameCommand Byte.x00;
                               Fixture.reply_to PrintCountCommand Byte.x00]] in
  exists info,
    outcome_of (getPrinterInformation (PF := Fixture.codec) w) = Returned info /\
    map fst info
    = ["version"; "model"; "battery"; "printCount"; "specs"; "count"] /\
    dict_get info "specs" = Some (PyStr "unknown").
Proof.
  intros w.
  destruct (outcome_of (getPrinterInformation (PF := Fixture.codec) w))
    as [info | e |] eqn:Ho; try (vm_compute in Ho; discriminate Ho).
  exists info. split; [reflexivity |].
  destruct (@getPrinterInformation_assembles Fixture.codec w info Ho)
    as [pv [pm [pc [dm [dc [m [b [c [h [_ [_ [_ [_ [_ [_ [_ ->]]]]]]]]]]]]]]]].
  split; reflexivity.
Defined.

(** The printer reports the sentinel at the third poll. *)
Lemma checkPrintStatus_sound_witness :
  let status rc := Fixture.reply_to Type195Command rc in
  let w := Fixture.connected
             (flat_map Fixture.answer
                [status Byte.x7f; status Byte.x7f; status Byte.x00]) in
  let run := checkPrintStatus (PF := Fixture.codec) 30 w in
  outcome_of run = Returned true /\
  (exists before p,
     status_of (events_of run) = before ++ [p] /\
     Forall (pending (PF := Fixture.codec)) before /\
     accepted (PF := Fixture.codec) p) /\
  commands_of (events_of run) = repeat Type195Command 3.
Proof.
  intros status w run.
  assert (Ho : outcome_of run = Returned true) by (vm_compute; reflexivity).
  split; [exact Ho |]. split.
  - exact (proj1 (proj2 (@checkPrintStatus_sound Fixture.codec 30 w)) Ho).
  - vm_compute. reflexivity.
Defined.

(** X14.  [connect] in any state, also when a thread is already stored: it
    ends, and it raises nothing but [CommandTimedOutException] and
    [ConnectError].  All it has done by then is start one new thread and
    queue one CONNECT with [self.ip] and [self.port], and raise its
    exception if it fails: it has joined no thread.  The thread in
    [self.comms] afterwards, whether [connect] returned or raised, is the
    thread it created, started, with those replies of its worker that
    [connect] has not taken; no other thread has been created. *)
Theorem connect_outcomes (w : World) :
  let run := connect w in
  (exists q taken,
     hd [] (workers w) = taken ++ q /\
     comms (self (world_of run)) = Some (mkThread q true)) /\
  workers (world_of run) = tl (workers w) /\
  ~ In EvJoin (events_of run) /\
  match outcome_of run with
  | Returned _ =>
      events_of run = [EvStart; EvPut (CONNECT (ip (self w)) (port (self w)))]
  | Raised e =>
      (e = CommandTimedOutException \/ exists d, e = ConnectError d) /\
      events_of run
      = [EvStart; EvPut (CONNECT (ip (self w)) (port (self w))); EvRaise e]
  | OutOfFuel => False
  end.
Proof.
  intros run.
  destruct (connect_trace w) as [[q [taken [Hs [Hc Hw]]]] Ho].
  fold run in Hc, Hw, Ho.
  split; [exists q, taken; split; [exact Hs | exact Hc] |].
  split; [exact Hw |].
  unfold connect_events in Ho.
  destruct (outcome_of run) as [a | e |].
  - rewrite Ho. split; [| reflexivity].
    intros [H | [H | []]]; discriminate.
  - destruct Ho as [He Hev]. rewrite Hev. split; [| split; [exact He | reflexivity]].
    intros [H | [H | [H | []]]]; discriminate.
  - contradiction.
Qed.

Section Sound.

Context {PF : PacketFactory}.

(** X15.  What [sendCommand] returns, with a thread in [self.comms] and
    whatever the worker does, is the decoding of the data of a reply of
    type SUCCESS that the worker enqueued.  It raises nothing but
    [CommandTimedOutException], [ConnectError] and the decoding error of the
    codec: the [None] of a reply without data is never decoded. *)
Theorem sendCommand_returns_decoded_reply (c : Command) (w : World) :
  live w ->
  let run := sendCommand c w in
  match outcome_of run with
  | Returned p =>
      comms (self (world_of run)) <> None /\
      exists t data,
        In (t, mkReply SUCCESS (Some data)) (queue w) /\
        decode data = Some p
  | Raised e =>
      e = CommandTimedOutException \/ (exists d, e = ConnectError d) \/
      e = DecodeError
  | OutOfFuel => False
  end.
Proof.
  intros Hl run. pose proof (@sendCommand_sound PF c w Hl) as H.
  cbv zeta in H. fold run in H.
  destruct (outcome_of run) as [p | e |]; [exact H | | exact H].
  destruct H as [H _].
  unfold command_exn, transport_exn in H. tauto.
Qed.

End Sound.

(** The acknowledgement of SEND, without data, is passed over; the frame
    that follows is decoded. *)
Lemma sendCommand_returns_decoded_reply_witness :
  let frame := Fixture.reply_to VersionCommand Byte.x00 in
  let w := Fixture.connected (Fixture.answer frame) in
  let run := sendCommand (PF := Fixture.codec) VersionCommand w in
  live w /\
  option_map payload
    (match outcome_of run with Returned p => Some p | _ => None end)
  = Some (PyStr "1.00") /\
  match outcome_of run with
  | Returned p =>
      comms (self (world_of run)) <> None /\
      exists t data,
        In (t, mkReply SUCCESS (Some data)) (queue w) /\
        decode (PacketFactory := Fixture.codec) data = Some p
  | Raised e =>
      e = CommandTimedOutException \/ (exists d, e = ConnectError d) \/
      e = DecodeError
  | OutOfFuel => False
  end.
Proof.
  intros frame w run.
  assert (Hl : live w) by discriminate.
  split; [exact Hl |]. split; [vm_compute; reflexivity |].
  exact (@sendCommand_returns_decoded_reply Fixture.codec VersionCommand w Hl).
Defined.

(** X16.  [close] with a thread in [self.comms], whatever the worker does:
    it ends, and it raises nothing but [CommandTimedOutException] and
    [ConnectError].  The thread is gone from [self.comms] when [close]
    returns and when it times out; it is still there exactly when
    [ConnectError] is raised. *)
Theorem close_outcomes (tmo : Z) (w : World) :
  live w ->
  let run := close tmo w in
  match outcome_of run with
  | Returned _ => comms (self (world_of run)) = None
  | Raised e =>
      (e = CommandTimedOutException /\ comms (self (world_of run)) = None) \/
      ((exists d, e = ConnectError d) /\ comms (self (world_of run)) <> None)
  | OutOfFuel => False
  end.
Proof.
  intros Hl run. pose proof (@close_any tmo w Hl) as H.
  cbv zeta in H. fold run in H. unfold closed, live in H.
  destruct (outcome_of run) as [a | e |]; exact H.
Qed.

(** The printer refuses to close. *)
Lemma close_outcomes_witness :
  let w := Fixture.connected [(0, mkReply ERROR (Some [Byte.x07]))] in
  live w /\
  outcome_of (close 10 w) = Raised (ConnectError (Some [Byte.x07])) /\
  match outcome_of (close 10 w) with
  | Returned _ => comms (self (world_of (close 10 w))) = None
  | Raised e =>
      (e = CommandTimedOutException /\
       comms (self (world_of (close 10 w))) = None) \/
      ((exists d, e = ConnectError d) /\
       comms (self (world_of (close 10 w))) <> None)
  | OutOfFuel => False
  end.
Proof.
  intros w.
  assert (Hl : live w) by discriminate.
  split; [exact Hl |]. split; [vm_compute; reflexivity |].
  exact (@close_outcomes 10 w Hl).
Defined.

(** ** Procedures that are abandoned *)

Section Abandoned.

Context {PF : PacketFactory}.

(** X17.  [printPhoto] does not clean up: when it raises anything but
    [CommandTimedOutException], whatever the image and the state it was
    called in, the thread of the connection it was using is still in
    [self.comms]: the attribute has not been cleared. *)
Theorem abandoned_print_keeps_connection
    (imageBytes : bytes) (w : World) (e : exn) :
  let run := printPhoto imageBytes record_progress w in
  outcome_of run = Raised e ->
  e <> CommandTimedOutException ->
  comms (self (world_of run)) <> None.
Proof.
  intros run Ho Hne.
  pose proof (@printPhoto_hoare PF imageBytes (fun _ => True) w Logic.I) as H.
  fold run in H. rewrite Ho in H.
  destruct H as [_ [Hl | [He _]]]; [exact Hl | contradiction].
Qed.

(** X18.  [getPrinterInformation] does not clean up either: when it raises
    anything but [CommandTimedOutException], for instance the [KeyError]
    of a payload without the key it reads, the thread of the connection is
    still in [self.comms]. *)
Theorem abandoned_information_keeps_connection (w : World) (e : exn) :
  let run := getPrinterInformation w in
  outcome_of run = Raised e ->
  e <> CommandTimedOutException ->
  comms (self (world_of run)) <> None.
Proof.
  intros run Ho Hne.
  pose proof (@getPrinterInformation_hoare PF (fun _ => True) w Logic.I) as H.
  fold run in H. rewrite Ho in H.
  destruct H as [_ [Hl | [He _]]]; [exact Hl | contradiction].
Qed.

End Abandoned.

(** The printer accepts the connection and refuses the first command. *)
Lemma abandoned_print_keeps_connection_witness :
  let w := Fixture.world
             [[Fixture.ack; Fixture.ack;
               (0, mkReply ERROR (Some [Byte.x07]))]] in
  let run := printPhoto (PF := Fixture.codec) (Fixture.image 100)
               record_progress w in
  outcome_of run = Raised (ConnectError (Some [Byte.x07])) /\
  comms (self (world_of run)) <> None.
Proof.
  intros w run.
  assert (Ho : outcome_of run = Raised (ConnectError (Some [Byte.x07])))
    by (vm_compute; reflexivity).
  split; [exact Ho |].
  apply (@abandoned_print_keeps_connection Fixture.codec (Fixture.image 100)
           w _ Ho).
  discriminate.
Defined.

(** The printer answers the ModelName command with a payload that has no
    model name. *)
Lemma abandoned_information_keeps_connection_witness :
  let w := Fixture.world
             [Fixture.session [Fixture.reply_to VersionCommand Byte.x00;
                               Fixture.reply_to ResetCommand Byte.x00;
                               Fixture.reply_to PrintCountCommand Byte.x00]] in
  let run := getPrinterInformation (PF := Fixture.codec) w in
  outcome_of run = Raised (KeyError "modelName") /\
  commands_of (events_of run)
  = [VersionCommand; ModelNameCommand; PrintCountCommand] /\
  comms (self (world_of run)) <> None.
Proof.
  intros w run.
  assert (Ho : outcome_of run = Raised (KeyError "modelName"))
    by (vm_compute; reflexivity).
  split; [exact Ho |]. split; [vm_compute; reflexivity |].
  apply (@abandoned_information_keeps_connection Fixture.codec w _ Ho).
  discriminate.
Defined.
